(** * The to-do task tracker: task state engine

    A shallow embedding of the application script (the account-aware
    variant, and the sort, the update, the deletion and the normalizers of
    the older single-user variant) together with the properties of its
    task state engine: date window, credential store, session restore,
    task store and view engine; then the rest of the script on the same
    state: identifiers, the due badge, the CSV export, the sign-in forms,
    the new-task form, the inline editor and the agenda controls.

    Conventions of the embedding.
    - A JavaScript string is a sequence of code units.  The development
      covers strings whose code units are below 256; one [ascii] stands
      for one code unit, so [String.length] is [.length].
    - A number that the program only uses as an integer (a time value in
      milliseconds, a date part) is a [Z]; [None] stands for [NaN] where
      the program can meet it.
    - The browser is an interface ([Browser]): the standard time-zone
      offset, the implementation-defined part of [Date.parse], the
      availability of WebCrypto and [btoa], and the SHA-256 digest.  The
      daylight saving of the host's zone is a second interface
      ([Daylight]); [noDaylight] is the zone that keeps its standard
      offset all year, and [sydneyDaylight] one that does not.
    - [localStorage] is a finite map from keys to items; an item is a
      string classified by what [JSON.parse] does with it. *)

From Stdlib Require Import ZArith List Bool Ascii String Lia.
From Stdlib Require Import Numbers.DecimalString.
From Stdlib Require Import Sorting.Permutation Sorting.Sorted.
From stdpp Require Import base option gmap strings.

Local Open Scope string_scope.
Local Open Scope list_scope.
Local Open Scope Z_scope.

(* ===================================================================== *)
(** * Strings *)
(* ===================================================================== *)

Module JsString.

(** Code unit of a character. *)
Definition code (c : ascii) : Z := Z.of_N (N_of_ascii c).

Definition ofCode (n : Z) : ascii := ascii_of_N (Z.to_N n).

(** White space and line terminators below 256, as [trim] strips them:
    TAB, LF, VT, FF, CR, SP and NBSP. *)
Definition isWhite (c : ascii) : bool :=
  let n := code c in
  ((9 <=? n) && (n <=? 13)) || (n =? 32) || (n =? 160).

Fixpoint trimStart (s : string) : string :=
  match s with
  | String c r => if isWhite c then trimStart r else s
  | EmptyString => EmptyString
  end.

(** [trimEnd] drops the white suffix: a character is kept when it is
    not white or when something is kept after it. *)
Fixpoint trimEnd (s : string) : string :=
  match s with
  | String c r =>
      match trimEnd r with
      | EmptyString => if isWhite c then EmptyString else String c EmptyString
      | r' => String c r'
      end
  | EmptyString => EmptyString
  end.

Definition trim (s : string) : string := trimEnd (trimStart s).

(** [toLowerCase] on code units below 256: A-Z, and the Latin-1 capitals
    0xC0-0xDE apart from the multiplication sign 0xD7. *)
Definition lowerChar (c : ascii) : ascii :=
  let n := code c in
  if ((65 <=? n) && (n <=? 90))
     || ((192 <=? n) && (n <=? 222) && negb (n =? 215))
  then ofCode (n + 32) else c.

Fixpoint toLowerCase (s : string) : string :=
  match s with
  | String c r => String (lowerChar c) (toLowerCase r)
  | EmptyString => EmptyString
  end.

(** [s.slice(0, n)] for [0 <= n]. *)
Definition slice0 (n : nat) (s : string) : string := substring 0 n s.

(** [s.split(sep)] for a one-character separator. *)
Fixpoint splitAux (sep : ascii) (cur : string) (s : string) : list string :=
  match s with
  | EmptyString => [cur]
  | String c r =>
      if Ascii.eqb c sep then cur :: splitAux sep EmptyString r
      else splitAux sep (cur ++ String c EmptyString) r
  end.

Definition split (sep : ascii) (s : string) : list string :=
  splitAux sep EmptyString s.

Fixpoint join (sep : string) (l : list string) : string :=
  match l with
  | [] => EmptyString
  | [x] => x
  | x :: r => x ++ sep ++ join sep r
  end.

(** Decimal digits. *)
Definition digitChar (d : Z) : ascii := ofCode (48 + d).

Definition digitVal (c : ascii) : option Z :=
  let n := code c in
  if (48 <=? n) && (n <=? 57) then Some (n - 48) else None.

(** [String(n).padStart(w, '0')] for [0 <= n < 10^w]: the [w] low
    decimal digits of [n], most significant first. *)
Fixpoint padDigits (w : nat) (n : Z) : string :=
  match w with
  | O => EmptyString
  | S w' => padDigits w' (n / 10) ++ String (digitChar (n mod 10)) EmptyString
  end.

(** The value of a string of decimal digits, read left to right. *)
Fixpoint digitsVal (acc : Z) (s : string) : option Z :=
  match s with
  | EmptyString => Some acc
  | String c r =>
      match digitVal c with
      | Some d => digitsVal (10 * acc + d) r
      | None => None
      end
  end.

(** A run of decimal digits, as the date formats have them. *)
Definition decimal (s : string) : option Z := digitsVal 0 s.

(** [Number(s)].  White space around the numeral is dropped; the empty
    string is 0; a run of decimal digits, with or without a sign, is the
    integer it writes (taken exactly: the engine rounds beyond 2^53,
    where every date made of the number is invalid on either side); a
    string that is no numeral is [NaN].  [None] is returned for the
    numerals left out here: those written with a fraction, an exponent
    or a radix prefix, and [Infinity]. *)
Inductive number :=
| Integer (n : Z)
| NotANumber.

Definition isDigit (c : ascii) : bool :=
  match digitVal c with Some _ => true | None => false end.

Fixpoint dropDigits (s : string) : string :=
  match s with
  | String c r => if isDigit c then dropDigits r else s
  | EmptyString => EmptyString
  end.

Definition startsWithDigit (s : string) : bool :=
  match s with
  | String c _ => isDigit c
  | EmptyString => false
  end.

Definition dropSign (s : string) : string :=
  match s with
  | String c r => if Ascii.eqb c "+" || Ascii.eqb c "-" then r else s
  | EmptyString => EmptyString
  end.

(** What may follow the mantissa: nothing, or an exponent. *)
Definition exponentPart (s : string) : bool :=
  match s with
  | EmptyString => true
  | String c r =>
      (Ascii.eqb c "e" || Ascii.eqb c "E")
      && startsWithDigit (dropSign r)
      && String.eqb (dropDigits (dropSign r)) ""
  end.

(** An unsigned decimal literal: [Infinity], or digits with an optional
    fraction and an optional exponent, a digit standing before or after
    the point. *)
Definition decimalLiteral (s : string) : bool :=
  String.eqb s "Infinity"
  || match dropDigits s with
     | String "."%char r =>
         (startsWithDigit s || startsWithDigit r) && exponentPart (dropDigits r)
     | rest => startsWithDigit s && exponentPart rest
     end.

(** Lower-case hexadecimal digit, [d.toString(16)] for [0 <= d < 16]. *)
Definition hexChar (d : Z) : ascii :=
  if d <? 10 then ofCode (48 + d) else ofCode (87 + d).

Definition isLowerHex (c : ascii) : bool :=
  let n := code c in
  ((48 <=? n) && (n <=? 57)) || ((97 <=? n) && (n <=? 102)).

Fixpoint allChars (p : ascii -> bool) (s : string) : bool :=
  match s with
  | EmptyString => true
  | String c r => p c && allChars p r
  end.

(** A literal with a radix prefix: [0b], [0o] or [0x] in either case and
    at least one digit of that radix. *)
Definition isBinary (c : ascii) : bool :=
  let n := code c in (n =? 48) || (n =? 49).

Definition isOctal (c : ascii) : bool :=
  let n := code c in (48 <=? n) && (n <=? 55).

Definition isHex (c : ascii) : bool :=
  let n := code c in
  ((48 <=? n) && (n <=? 57)) || ((97 <=? n) && (n <=? 102))
  || ((65 <=? n) && (n <=? 70)).

Definition radixLiteral (s : string) : bool :=
  match s with
  | String "0"%char (String p (String c r)) =>
      let digits := String c r in
      ((Ascii.eqb p "b" || Ascii.eqb p "B") && allChars isBinary digits)
      || ((Ascii.eqb p "o" || Ascii.eqb p "O") && allChars isOctal digits)
      || ((Ascii.eqb p "x" || Ascii.eqb p "X") && allChars isHex digits)
  | _ => false
  end.

Definition toNumber (s : string) : option number :=
  let t := trim s in
  match t with
  | EmptyString => Some (Integer 0)
  | String c _ =>
      let body := dropSign t in
      if startsWithDigit body && String.eqb (dropDigits body) ""
      then
        match digitsVal 0 body with
        | Some n => Some (Integer (if Ascii.eqb c "-" then - n else n))
        | None => Some NotANumber
        end
      else if decimalLiteral body || radixLiteral t then None
      else Some NotANumber
  end.

(** The relational operators on strings compare code units
    lexicographically. *)
Definition le (a b : string) : bool := String.leb a b.

End JsString.

(* ===================================================================== *)
(** * The browser *)
(* ===================================================================== *)

(** What the script takes from its host.  [tzOffsetMinutes] is the value
    of [getTimezoneOffset()] (UTC minus local time, in minutes) while the
    zone is on its standard time.
    [legacyDateParse] is [Date.parse] on the strings that are neither a
    [YYYY-MM-DD] date nor a [toISOString] instant: their interpretation is
    left to the implementation.  [hasSubtleCrypto] is the guard
    [window.crypto && window.crypto.subtle && window.TextEncoder];
    [hasBtoa] tells whether [window.btoa] can be called; [sha256] is
    [crypto.subtle.digest('SHA-256', _)] on bytes. *)
Class Browser := {
  tzOffsetMinutes : Z;
  legacyDateParse : string -> option Z;
  hasSubtleCrypto : bool;
  hasBtoa : bool;
  sha256 : list Byte.byte -> list Byte.byte
}.

(** Daylight saving in the host's time zone, in minutes by which the
    clocks are ahead of standard time: [savingAt t] at the instant whose
    time value is [t], and [savingAtLocal l] at the local time [l], a
    clock reading taken as a time value.  A reading that the clocks skip
    or show twice is given the saving in force before the change, as the
    language specification has it. *)
Class Daylight := {
  savingAt : Z -> Z;
  savingAtLocal : Z -> Z
}.

(** A zone that keeps its standard offset all year. *)
Definition noDaylight : Daylight :=
  {| savingAt := fun _ => 0; savingAtLocal := fun _ => 0 |}.

(* ===================================================================== *)
(** * Dates: the time-value arithmetic behind the [Date] object *)
(* ===================================================================== *)

(** The abstract operations of the language specification (ECMA-262,
    "Date Objects"), under their names there: days and time within the
    day, years, months and dates of a time value, [MakeTime], [MakeDay],
    [MakeDate], [TimeClip], local time; then the methods of [Date] that
    the script calls. *)
Module Date.

Definition msPerDay : Z := 86400000.
Definition msPerHour : Z := 3600000.
Definition msPerMinute : Z := 60000.
Definition msPerSecond : Z := 1000.

Definition Day (t : Z) : Z := t / msPerDay.
Definition TimeWithinDay (t : Z) : Z := t mod msPerDay.

Definition DaysInYear (y : Z) : Z :=
  if negb (y mod 4 =? 0) then 365
  else if negb (y mod 100 =? 0) then 366
  else if negb (y mod 400 =? 0) then 365
  else 366.

Definition DayFromYear (y : Z) : Z :=
  365 * (y - 1970) + (y - 1969) / 4 - (y - 1901) / 100 + (y - 1601) / 400.

Definition TimeFromYear (y : Z) : Z := msPerDay * DayFromYear y.

(** The largest year whose first day is not after day [d]: an estimate
    from the mean year length, moved by one when it is off. *)
Definition yearFromDay (d : Z) : Z :=
  let e := 1970 + (400 * d) / 146097 in
  if DayFromYear (e + 1) <=? d then e + 1
  else if d <? DayFromYear e then e - 1
  else e.

Definition YearFromTime (t : Z) : Z := yearFromDay (Day t).

Definition InLeapYear (t : Z) : Z :=
  if DaysInYear (YearFromTime t) =? 366 then 1 else 0.

Definition DayWithinYear (t : Z) : Z :=
  Day t - DayFromYear (YearFromTime t).

Definition MonthFromTime (t : Z) : Z :=
  let d := DayWithinYear t in
  let l := InLeapYear t in
  if d <? 31 then 0
  else if d <? 59 + l then 1
  else if d <? 90 + l then 2
  else if d <? 120 + l then 3
  else if d <? 151 + l then 4
  else if d <? 181 + l then 5
  else if d <? 212 + l then 6
  else if d <? 243 + l then 7
  else if d <? 273 + l then 8
  else if d <? 304 + l then 9
  else if d <? 334 + l then 10
  else 11.

(** Days of the year before month [mn] (0 is January); [l] is 1 in a
    leap year. *)
Definition daysBeforeMonth (l : Z) (mn : Z) : Z :=
  if mn =? 0 then 0
  else if mn =? 1 then 31
  else if mn =? 2 then 59 + l
  else if mn =? 3 then 90 + l
  else if mn =? 4 then 120 + l
  else if mn =? 5 then 151 + l
  else if mn =? 6 then 181 + l
  else if mn =? 7 then 212 + l
  else if mn =? 8 then 243 + l
  else if mn =? 9 then 273 + l
  else if mn =? 10 then 304 + l
  else 334 + l.

Definition DateFromTime (t : Z) : Z :=
  DayWithinYear t - daysBeforeMonth (InLeapYear t) (MonthFromTime t) + 1.

Definition WeekDay (t : Z) : Z := (Day t + 4) mod 7.

Definition HourFromTime (t : Z) : Z := (t / msPerHour) mod 24.
Definition MinFromTime (t : Z) : Z := (t / msPerMinute) mod 60.
Definition SecFromTime (t : Z) : Z := (t / msPerSecond) mod 60.
Definition msFromTime (t : Z) : Z := t mod msPerSecond.

Definition MakeTime (h m s ms : Z) : Z :=
  h * msPerHour + m * msPerMinute + s * msPerSecond + ms.

Definition leapOf (y : Z) : Z := if DaysInYear y =? 366 then 1 else 0.

(** [MakeDay(year, month, date)]: the month may lie outside 0..11 and
    the date outside the month; both carry over. *)
Definition MakeDay (year month date : Z) : Z :=
  let ym := year + month / 12 in
  let mn := month mod 12 in
  DayFromYear ym + daysBeforeMonth (leapOf ym) mn + date - 1.

Definition MakeDate (day time : Z) : Z := day * msPerDay + time.

Definition TimeClip (t : Z) : option Z :=
  if Z.abs t <=? 8640000000000000 then Some t else None.

(** Length of month [m] (1 is January) of year [y]. *)
Definition daysInMonth (y m : Z) : Z :=
  if m =? 2 then 28 + leapOf y
  else if (m =? 4) || (m =? 6) || (m =? 9) || (m =? 11) then 30
  else 31.

Section Local.
Context `{Browser} `{Daylight}.

(** [LocalTime] and [UTC]: the offset is the one in force at the instant,
    respectively at the local time, that is converted. *)
Definition LocalTime (t : Z) : Z :=
  t - (tzOffsetMinutes - savingAt t) * msPerMinute.
Definition UTC (t : Z) : Z :=
  t + (tzOffsetMinutes - savingAtLocal t) * msPerMinute.

(** Methods of a [Date] object whose time value is [t]; the setters
    return the new time value, [None] being the invalid date. *)
Definition getDay (t : Z) : Z := WeekDay (LocalTime t).
Definition getDate (t : Z) : Z := DateFromTime (LocalTime t).
Definition getMinutes (t : Z) : Z := MinFromTime (LocalTime t).
Definition getTimezoneOffset (t : Z) : Z := (t - LocalTime t) / msPerMinute.

Definition setFullYear (t : Z) (y m d : Z) : option Z :=
  TimeClip (UTC (MakeDate (MakeDay y m d) (TimeWithinDay (LocalTime t)))).

Definition setHours (t : Z) (h m s ms : Z) : option Z :=
  TimeClip (UTC (MakeDate (Day (LocalTime t)) (MakeTime h m s ms))).

Definition setDate (t : Z) (dt : Z) : option Z :=
  let lt := LocalTime t in
  TimeClip (UTC (MakeDate (MakeDay (YearFromTime lt) (MonthFromTime lt) dt)
                          (TimeWithinDay lt))).

Definition setMinutes (t : Z) (m : Z) : option Z :=
  let lt := LocalTime t in
  TimeClip (UTC (MakeDate (Day lt)
                   (MakeTime (HourFromTime lt) m (SecFromTime lt) (msFromTime lt)))).
End Local.

(** [toISOString()]: the UTC fields; a year outside 0..9999 is written
    with a sign and six digits. *)
Definition yearString (y : Z) : string :=
  if ((0 <=? y) && (y <=? 9999))%Z then JsString.padDigits 4 y
  else ((if (y <? 0)%Z then "-" else "+") ++ JsString.padDigits 6 (Z.abs y))%string.

Definition toISOString (t : Z) : string :=
  (yearString (YearFromTime t) ++ "-"
   ++ JsString.padDigits 2 (MonthFromTime t + 1) ++ "-"
   ++ JsString.padDigits 2 (DateFromTime t) ++ "T"
   ++ JsString.padDigits 2 (HourFromTime t) ++ ":"
   ++ JsString.padDigits 2 (MinFromTime t) ++ ":"
   ++ JsString.padDigits 2 (SecFromTime t) ++ "."
   ++ JsString.padDigits 3 (msFromTime t) ++ "Z")%string.

(** The two forms of the date-time string format that the script itself
    writes: the date [YYYY-MM-DD] (read as UTC midnight) and the instant
    [YYYY-MM-DDTHH:mm:ss.sssZ]. *)
Definition charAt (i : nat) (s : string) : string := substring i 1 s.

Definition validCivil (y m d : Z) : bool :=
  (1 <=? m) && (m <=? 12) && (1 <=? d) && (d <=? daysInMonth y m).

Definition parseDateOnly (s : string) : option Z :=
  if (Nat.eqb (String.length s) 10)
     && String.eqb (charAt 4 s) "-" && String.eqb (charAt 7 s) "-"
  then
    match JsString.decimal (substring 0 4 s),
          JsString.decimal (substring 5 2 s),
          JsString.decimal (substring 8 2 s) with
    | Some y, Some m, Some d =>
        if validCivil y m d then Some (MakeDate (MakeDay y (m - 1) d) 0)
        else None
    | _, _, _ => None
    end
  else None.

Definition parseInstant (s : string) : option Z :=
  if (Nat.eqb (String.length s) 24)
     && String.eqb (charAt 10 s) "T" && String.eqb (charAt 13 s) ":"
     && String.eqb (charAt 16 s) ":" && String.eqb (charAt 19 s) "."
     && String.eqb (charAt 23 s) "Z"
  then
    match parseDateOnly (substring 0 10 s),
          JsString.decimal (substring 11 2 s),
          JsString.decimal (substring 14 2 s),
          JsString.decimal (substring 17 2 s),
          JsString.decimal (substring 20 3 s) with
    | Some day, Some h, Some m, Some sec, Some ms =>
        if (h <=? 23) && (m <=? 59) && (sec <=? 59)
        then Some (day + MakeTime h m sec ms) else None
    | _, _, _, _, _ => None
    end
  else None.

Section Parse.
Context `{Browser}.

(** [Date.parse(s)]; [None] is [NaN]. *)
Definition parse (s : string) : option Z :=
  match parseDateOnly s with
  | Some t => Some t
  | None =>
      match parseInstant s with
      | Some t => Some t
      | None => legacyDateParse s
      end
  end.
End Parse.

End Date.

(* ===================================================================== *)
(** * JSON data, property reads and [localStorage] *)
(* ===================================================================== *)

#[local] Set Warnings "-register-all".

(** What [JSON.parse] returns.  Numbers are the integers that print in
    plain decimal (below 10^21 in magnitude); an object is its list of
    own properties, the first entry of a name being the property. *)
Inductive json :=
| JNull
| JBool (b : bool)
| JNum (n : Z)
| JStr (s : string)
| JArr (items : list json)
| JObj (fields : list (string * json)).

(** The completion of an evaluation that can throw. *)
Inductive completion (A : Type) :=
| Throws
| Returns (a : A).

Arguments Throws {A}.
Arguments Returns {A} a.

Module Js.

Fixpoint assoc (k : string) (fields : list (string * json)) : option json :=
  match fields with
  | [] => None
  | (k', v) :: r => if String.eqb k k' then Some v else assoc k r
  end.

(** [o.name] for a name that no built-in prototype defines ([id],
    [title], [dueAt], [passwordHash], [displayName], ...): the own
    property of an object, [undefined] ([None]) otherwise. *)
Definition field (o : json) (name : string) : option json :=
  match o with
  | JObj fields => assoc name fields
  | _ => None
  end.

(** The property names every plain object inherits from
    [Object.prototype]. *)
Definition objectPrototypeNames : list string :=
  [ "constructor"; "__proto__"; "toString"; "toLocaleString"; "valueOf";
    "hasOwnProperty"; "isPrototypeOf"; "propertyIsEnumerable";
    "__defineGetter__"; "__defineSetter__";
    "__lookupGetter__"; "__lookupSetter__" ].

Definition inheritedName (k : string) : bool :=
  existsb (String.eqb k) objectPrototypeNames.

(** The result of [o[k]] on a plain object for a computed key [k]: an
    own property, a built-in reached through the prototype, or
    [undefined]. *)
Inductive prop :=
| Undefined
| Builtin (name : string)
| Own (v : json).

Definition get (fields : list (string * json)) (k : string) : prop :=
  match assoc k fields with
  | Some v => Own v
  | None => if inheritedName k then Builtin k else Undefined
  end.

(** Truthiness. *)
Definition truthy (v : json) : bool :=
  match v with
  | JNull => false
  | JBool b => b
  | JNum n => negb (n =? 0)
  | JStr s => negb (String.eqb s "")
  | JArr _ | JObj _ => true
  end.

Definition truthyOpt (o : option json) : bool :=
  match o with Some v => truthy v | None => false end.

Definition truthyProp (p : prop) : bool :=
  match p with
  | Undefined => false
  | Builtin _ => true
  | Own v => truthy v
  end.

(** A property of the value [o[k]] returned by [get]: a built-in has
    none of the names the script reads. *)
Definition propField (p : prop) (name : string) : option json :=
  match p with
  | Own v => field v name
  | Builtin _ | Undefined => None
  end.

(** [typeof v === 'string' ? v : undefined]. *)
Definition asString (o : option json) : option string :=
  match o with
  | Some (JStr s) => Some s
  | _ => None
  end.

(** [o[k] = v] on the own properties. *)
Fixpoint setField (k : string) (v : json) (fields : list (string * json))
  : list (string * json) :=
  match fields with
  | [] => [(k, v)]
  | (k', v') :: r =>
      if String.eqb k k' then (k, v) :: r else (k', v') :: setField k v r
  end.

Definition numberString (n : Z) : string :=
  DecimalString.NilZero.string_of_int (Z.to_int n).

(** The conversion of a value to a string, as the [Date] constructor
    applies it to an array or an object (ToPrimitive, then ToString).  An
    array is the join of its elements, [null] counting as empty.  A plain
    object is "[object Object]" through the inherited [toString]; but an
    own property [toString] of parsed data is never a function, and then
    no method yields a primitive: the conversion throws a [TypeError]. *)
Fixpoint toString (v : json) : completion string :=
  match v with
  | JNull => Returns "null"
  | JBool b => Returns (if b then "true" else "false")
  | JNum n => Returns (numberString n)
  | JStr s => Returns s
  | JArr items =>
      match
        (fix each (l : list json) : completion (list string) :=
           match l with
           | [] => Returns []
           | x :: r =>
               match (match x with JNull => Returns "" | _ => toString x end),
                     each r with
               | Returns s, Returns ss => Returns (s :: ss)
               | _, _ => Throws
               end
           end) items
      with
      | Returns parts => Returns (JsString.join "," parts)
      | Throws => Throws
      end
  | JObj fields =>
      match assoc "toString" fields with
      | Some _ => Throws
      | None => Returns "[object Object]"
      end
  end.

End Js.

(** A stored string.  [Text v] is a string that [JSON.parse] turns into
    [v] (what [JSON.stringify] wrote, for instance); [Garbage raw] is the
    string [raw], which [JSON.parse] rejects with a [SyntaxError]; the
    empty string is [Garbage ""]. *)
Inductive item :=
| Garbage (raw : string)
| Text (v : json).

Abbreviation storage := (gmap string item).

Definition TASK_KEY_PREFIX : string := "todo.tasks.v1.".
Definition USERS_KEY : string := "todo.users.v1".
Definition SESSION_KEY : string := "todo.session.v1".

(* ===================================================================== *)
(** * Date window *)
(* ===================================================================== *)

Section DateWindow.
Context `{Browser} `{Daylight}.

(** [new Date(value)] on a defined value; [None] is the invalid date. *)
Definition newDate (v : json) : completion (option Z) :=
  match v with
  | JStr s => Returns (Date.parse s)
  | JNum n => Returns (Date.TimeClip n)
  | JBool b => Returns (Date.TimeClip (if b then 1 else 0))
  | JNull => Returns (Date.TimeClip 0)
  | JArr _ | JObj _ =>
      match Js.toString v with
      | Returns s => Returns (Date.parse s)
      | Throws => Throws
      end
  end.

(** [normalizeDate(value)]; [None] is [undefined] on both sides. *)
Definition normalizeDate (value : option json) : completion (option string) :=
  match value with
  | None => Returns None
  | Some v =>
      if negb (Js.truthy v) then Returns None
      else match newDate v with
           | Throws => Throws
           | Returns None => Returns None
           | Returns (Some t) =>
               Returns (Some (JsString.slice0 10 (Date.toISOString t)))
           end
  end.

Definition normalizePriority (value : option json) : option string :=
  match value with
  | Some (JStr s) =>
      if String.eqb s "low" || String.eqb s "med" || String.eqb s "high"
      then Some s else None
  | _ => None
  end.

(** [toISODateLocal(d)] for a valid date [d]; [None] when [toISOString]
    throws on an invalid date. *)
Definition toISODateLocal (d : Z) : option string :=
  match Date.setMinutes d (Date.getMinutes d - Date.getTimezoneOffset d) with
  | Some copy => Some (JsString.slice0 10 (Date.toISOString copy))
  | None => None
  end.

Definition todayISO (now : Z) : option string := toISODateLocal now.

(** [iso.split('-').map(Number)]; [None] when [toNumber] leaves a part
    out. *)
Fixpoint numbers (parts : list string) : option (list JsString.number) :=
  match parts with
  | [] => Some []
  | p :: r =>
      match JsString.toNumber p, numbers r with
      | Some n, Some ns => Some (n :: ns)
      | _, _ => None
      end
  end.

(** [parts[i] || 1]: 0, [NaN] and a missing part give 1. *)
Definition partOr1 (parts : list JsString.number) (i : nat) : Z :=
  match nth_error parts i with
  | Some (JsString.Integer n) => if n =? 0 then 1 else n
  | _ => 1
  end.

(** [parseISOToLocalDate(iso)] at the instant [now].  The outer [None]
    is a part that [toNumber] leaves out; the inner one is the invalid
    date, which a year that is [NaN] gives. *)
Definition parseISOToLocalDate (now : Z) (iso : string) : option (option Z) :=
  if String.eqb iso "" then Some (Some now)
  else
    match numbers (JsString.split "-" iso) with
    | None => None
    | Some parts =>
        Some (match parts with
              | JsString.Integer y :: _ =>
                  match Date.setFullYear now y
                          (partOr1 parts 1 - 1) (partOr1 parts 2) with
                  | Some d => Date.setHours d 0 0 0 0
                  | None => None
                  end
              | _ => None
              end)
    end.

Definition addDaysISO (now : Z) (iso : string) (delta : Z) : option string :=
  match parseISOToLocalDate now iso with
  | Some (Some d) =>
      match Date.setDate d (Date.getDate d + delta) with
      | Some d' => toISODateLocal d'
      | None => None
      end
  | _ => None
  end.

Record WeekRange := { start : string; end_ : string }.

(** [getWeekRangeISO(anchorISO)]; [None] when the anchor is not covered
    or a date on the way is invalid, in which case [toISOString]
    throws. *)
Definition getWeekRangeISO (now : Z) (anchorISO : string) : option WeekRange :=
  match parseISOToLocalDate now anchorISO with
  | Some (Some d) =>
      let day := Date.getDay d in
      let deltaToMonday := if day =? 0 then -6 else 1 - day in
      match Date.setDate d (Date.getDate d + deltaToMonday) with
      | Some monday =>
          match Date.setDate monday (Date.getDate monday + 6) with
          | Some sunday =>
              match toISODateLocal monday, toISODateLocal sunday with
              | Some s, Some e => Some {| start := s; end_ := e |}
              | _, _ => None
              end
          | None => None
          end
      | None => None
      end
  | _ => None
  end.

End DateWindow.

(* ===================================================================== *)
(** * Credential store *)
(* ===================================================================== *)

Module Bytes.

Definition toZ (b : Byte.byte) : Z := Z.of_N (Byte.to_N b).

Definition ofZ (n : Z) : Byte.byte :=
  match Byte.of_N (Z.to_N n) with
  | Some b => b
  | None => Byte.x00
  end.

(** [new TextEncoder().encode(s)], and the binary string
    [unescape(encodeURIComponent(s))]: UTF-8, one or two bytes for a
    code unit below 256. *)
Fixpoint utf8 (s : string) : list Byte.byte :=
  match s with
  | EmptyString => []
  | String c r =>
      let n := JsString.code c in
      if n <? 128 then ofZ n :: utf8 r
      else ofZ (192 + n / 64) :: ofZ (128 + n mod 64) :: utf8 r
  end.

(** [byte.toString(16).padStart(2, '0')], joined. *)
Fixpoint hex (bs : list Byte.byte) : string :=
  match bs with
  | [] => EmptyString
  | b :: r =>
      String (JsString.hexChar (toZ b / 16))
        (String (JsString.hexChar (toZ b mod 16)) (hex r))
  end.

Definition b64Char (n : Z) : ascii :=
  if n <? 26 then JsString.ofCode (65 + n)
  else if n <? 52 then JsString.ofCode (71 + n)
  else if n <? 62 then JsString.ofCode (n - 4)
  else if n =? 62 then "+"%char
  else "/"%char.

(** [btoa] on a binary string given by its bytes. *)
Fixpoint btoa (bs : list Byte.byte) : string :=
  match bs with
  | [] => EmptyString
  | [a] =>
      let x := toZ a in
      String (b64Char (x / 4)) (String (b64Char ((x mod 4) * 16)) "==")
  | [a; b] =>
      let x := toZ a in
      let y := toZ b in
      String (b64Char (x / 4))
        (String (b64Char ((x mod 4) * 16 + y / 16))
           (String (b64Char ((y mod 16) * 4)) "="))
  | a :: b :: c :: r =>
      let x := toZ a in
      let y := toZ b in
      let z := toZ c in
      String (b64Char (x / 4))
        (String (b64Char ((x mod 4) * 16 + y / 16))
           (String (b64Char ((y mod 16) * 4 + z / 64))
              (String (b64Char (z mod 64)) (btoa r))))
  end.

End Bytes.

(** The errors the credential store throws, one per [throw] of the
    script, and the messages they carry. *)
Inductive AuthError :=
| UsernameTooShort
| PasswordTooShort
| UsernameRequired
| UsernameTaken
| EnterUsername
| AccountNotFound
| IncorrectPassword.

Definition message (e : AuthError) : string :=
  match e with
  | UsernameTooShort => "Username must be at least 3 characters long."
  | PasswordTooShort => "Password must be at least 6 characters long."
  | UsernameRequired => "Username is required."
  | UsernameTaken => "That username is already taken."
  | EnterUsername => "Enter your username to sign in."
  | AccountNotFound => "Account not found."
  | IncorrectPassword => "Incorrect password."
  end.

(** The error classes of the specification, and the class each thrown
    error belongs to: the script throws plain [Error] objects and tells
    them apart by message only. *)
Inductive ErrorClass :=
| ValidationError
| ConflictError
| NotFoundError
| InvalidCredentialError.

Definition errorClass (e : AuthError) : ErrorClass :=
  match e with
  | UsernameTooShort | PasswordTooShort | UsernameRequired | EnterUsername =>
      ValidationError
  | UsernameTaken => ConflictError
  | AccountNotFound => NotFoundError
  | IncorrectPassword => InvalidCredentialError
  end.

(** The account object [{ id, displayName }] handed to the caller. *)
Record Account := { id : string; displayName : json }.

Definition accountJson (a : Account) : json :=
  JObj [("id", JStr (id a)); ("displayName", displayName a)].

Section Credentials.
Context `{Browser}.

Definition normalizeUsername (value : string) : string :=
  JsString.toLowerCase (JsString.trim value).

(** [hashPassword(password)]: the SHA-256 digest in hexadecimal when
    WebCrypto is there; otherwise base64 of the UTF-8 bytes; the
    password itself when that throws. *)
Definition hashPassword (password : string) : string :=
  if hasSubtleCrypto then Bytes.hex (sha256 (Bytes.utf8 password))
  else if hasBtoa then Bytes.btoa (Bytes.utf8 password)
  else password.

(** [loadUsers()]: the own properties of the stored table. *)
Definition loadUsers (ls : storage) : list (string * json) :=
  match ls !! USERS_KEY with
  | Some (Text (JObj fields)) => fields
  | _ => []
  end.

Definition saveUsers (users : list (string * json)) (ls : storage) : storage :=
  <[USERS_KEY := Text (JObj users)]> ls.

Definition userRecord (passwordHash cleanName : string) (now : Z) : json :=
  JObj [("passwordHash", JStr passwordHash);
        ("displayName", JStr cleanName);
        ("createdAt", JStr (Date.toISOString now))].

(** [registerUser(username, password)] at the instant [now]: the
    outcome and the storage it leaves. *)
Definition registerUser (now : Z) (ls : storage) (username password : string)
  : (AuthError + Account) * storage :=
  let cleanName := JsString.trim username in
  if (String.length cleanName <? 3)%nat then (inl UsernameTooShort, ls)
  else if (String.length password <? 6)%nat then (inl PasswordTooShort, ls)
  else
    let normalized := normalizeUsername cleanName in
    if String.eqb normalized "" then (inl UsernameRequired, ls)
    else
      let users := loadUsers ls in
      if Js.truthyProp (Js.get users normalized) then (inl UsernameTaken, ls)
      else
        let passwordHash := hashPassword password in
        let users' :=
          Js.setField normalized (userRecord passwordHash cleanName now) users in
        (inr {| id := normalized; displayName := JStr cleanName |},
         saveUsers users' ls).

(** [record.displayName || fallback]. *)
Definition orElse (o : option json) (fallback : json) : json :=
  match o with
  | Some v => if Js.truthy v then v else fallback
  | None => fallback
  end.

(** [record.passwordHash !== passwordHash]. *)
Definition differsFrom (o : option json) (s : string) : bool :=
  match o with
  | Some (JStr s') => negb (String.eqb s' s)
  | _ => true
  end.

Definition authenticateUser (ls : storage) (username password : string)
  : AuthError + Account :=
  let cleanName := JsString.trim username in
  let normalized := normalizeUsername cleanName in
  if String.eqb normalized "" then inl EnterUsername
  else
    let users := loadUsers ls in
    let record := Js.get users normalized in
    if negb (Js.truthyProp record) then inl AccountNotFound
    else
      let passwordHash := hashPassword password in
      if differsFrom (Js.propField record "passwordHash") passwordHash
      then inl IncorrectPassword
      else
        inr {| id := normalized;
               displayName :=
                 orElse (Js.propField record "displayName") (JStr cleanName) |}.

(* =================================================================== *)
(** * Session *)
(* =================================================================== *)

(** [loadSession()]: the restored account, if any, and the storage it
    leaves. *)
Definition loadSession (ls : storage) : option Account * storage :=
  match ls !! SESSION_KEY with
  | None => (None, ls)
  | Some (Garbage raw) =>
      if String.eqb raw "" then (None, ls)
      else (None, delete SESSION_KEY ls)
  | Some (Text parsed) =>
      match parsed with
      | JObj _ | JArr _ =>
          match Js.asString (Js.field parsed "id") with
          | None => (None, ls)
          | Some id_ =>
              if String.eqb id_ "" then (None, ls)
              else
                let record := Js.get (loadUsers ls) id_ in
                if negb (Js.truthyProp record)
                then (None, delete SESSION_KEY ls)
                else
                  (Some {| id := id_;
                           displayName :=
                             orElse (Js.propField record "displayName")
                               (orElse (Js.field parsed "displayName") (JStr id_)) |},
                   ls)
          end
      | _ => (None, ls)
      end
  end.

End Credentials.

(* ===================================================================== *)
(** * Task store *)
(* ===================================================================== *)

Record Task := {
  taskId : string;
  title : string;
  completed : bool;
  description : option string;
  createdAt : string;
  updatedAt : string;
  dueAt : option string;
  priority : option string
}.

(** One entry of the object passed to [updateTask]: a field of the task
    and the value it is to take. *)
Inductive FieldValue :=
| SetId (v : string)
| SetTitle (v : string)
| SetCompleted (v : bool)
| SetDescription (v : option string)
| SetCreatedAt (v : string)
| SetUpdatedAt (v : string)
| SetDueAt (v : option string)
| SetPriority (v : option string).

(** The state of the script: its module-level variables and the
    [localStorage] of the page.  The document and the focus bookkeeping
    are left out. *)
Record App := {
  tasks : list Task;
  currentAccount : option Account;
  currentFilter : string;
  currentSort : string;
  agendaScope : string;
  agendaDate : string;
  localStorage : storage
}.

Definition optStringEqb (a b : option string) : bool :=
  match a, b with
  | Some x, Some y => String.eqb x y
  | None, None => true
  | _, _ => false
  end.

(** [updated[key] !== value]. *)
Definition differs (t : Task) (fv : FieldValue) : bool :=
  match fv with
  | SetId v => negb (String.eqb (taskId t) v)
  | SetTitle v => negb (String.eqb (title t) v)
  | SetCompleted v => negb (Bool.eqb (completed t) v)
  | SetDescription v => negb (optStringEqb (description t) v)
  | SetCreatedAt v => negb (String.eqb (createdAt t) v)
  | SetUpdatedAt v => negb (String.eqb (updatedAt t) v)
  | SetDueAt v => negb (optStringEqb (dueAt t) v)
  | SetPriority v => negb (optStringEqb (priority t) v)
  end.

(** [updated[key] = value]. *)
Definition assign (t : Task) (fv : FieldValue) : Task :=
  match fv with
  | SetId v =>
      {| taskId := v; title := title t; completed := completed t;
         description := description t; createdAt := createdAt t;
         updatedAt := updatedAt t; dueAt := dueAt t; priority := priority t |}
  | SetTitle v =>
      {| taskId := taskId t; title := v; completed := completed t;
         description := description t; createdAt := createdAt t;
         updatedAt := updatedAt t; dueAt := dueAt t; priority := priority t |}
  | SetCompleted v =>
      {| taskId := taskId t; title := title t; completed := v;
         description := description t; createdAt := createdAt t;
         updatedAt := updatedAt t; dueAt := dueAt t; priority := priority t |}
  | SetDescription v =>
      {| taskId := taskId t; title := title t; completed := completed t;
         description := v; createdAt := createdAt t;
         updatedAt := updatedAt t; dueAt := dueAt t; priority := priority t |}
  | SetCreatedAt v =>
      {| taskId := taskId t; title := title t; completed := completed t;
         description := description t; createdAt := v;
         updatedAt := updatedAt t; dueAt := dueAt t; priority := priority t |}
  | SetUpdatedAt v =>
      {| taskId := taskId t; title := title t; completed := completed t;
         description := description t; createdAt := createdAt t;
         updatedAt := v; dueAt := dueAt t; priority := priority t |}
  | SetDueAt v =>
      {| taskId := taskId t; title := title t; completed := completed t;
         description := description t; createdAt := createdAt t;
         updatedAt := updatedAt t; dueAt := v; priority := priority t |}
  | SetPriority v =>
      {| taskId := taskId t; title := title t; completed := completed t;
         description := description t; createdAt := createdAt t;
         updatedAt := updatedAt t; dueAt := dueAt t; priority := v |}
  end.

(** The [forEach] over [Object.entries(nextFields)]: the copy of the task
    and the flag [taskChanged]. *)
Fixpoint applyFields (entries : list FieldValue) (updated : Task) (taskChanged : bool)
  : Task * bool :=
  match entries with
  | [] => (updated, taskChanged)
  | fv :: r =>
      if differs updated fv then applyFields r (assign updated fv) true
      else applyFields r updated taskChanged
  end.

(** The callback of [tasks.map] in [updateTask]: the task it returns and
    whether it set [changed]. *)
Definition updateOne (now : Z) (id_ : string) (nextFields : list FieldValue)
  (task : Task) : Task * bool :=
  if negb (String.eqb (taskId task) id_) then (task, false)
  else
    let '(updated, taskChanged) := applyFields nextFields task false in
    if taskChanged
    then (assign updated (SetUpdatedAt (Date.toISOString now)), true)
    else (task, false).

(** A task as [JSON.stringify] writes it: a field that is [undefined] is
    left out. *)
Definition optField (name : string) (o : option string) : list (string * json) :=
  match o with
  | Some s => [(name, JStr s)]
  | None => []
  end.

Definition taskJson (t : Task) : json :=
  JObj ([("id", JStr (taskId t)); ("title", JStr (title t));
         ("completed", JBool (completed t))]
        ++ optField "description" (description t)
        ++ [("createdAt", JStr (createdAt t)); ("updatedAt", JStr (updatedAt t))]
        ++ optField "dueAt" (dueAt t)
        ++ optField "priority" (priority t)).

Section TaskStore.
Context `{Browser}.

Definition getTaskStorageKey (accountId : option string) : option string :=
  match accountId with
  | Some a => if String.eqb a "" then None else Some (TASK_KEY_PREFIX ++ a)%string
  | None => None
  end.

Definition currentAccountId (a : App) : option string :=
  match currentAccount a with
  | Some acc => Some (id acc)
  | None => None
  end.

(** [normalizeTask(task)] at the instant [now]; [None] is [undefined]. *)
Definition normalizeTask (now : Z) (task : json) : completion (option Task) :=
  match task with
  | JObj _ | JArr _ =>
      match Js.field task "id", Js.field task "title" with
      | Some (JStr i), Some (JStr t) =>
          match normalizeDate (Js.field task "dueAt") with
          | Throws => Throws
          | Returns due =>
              Returns
                (Some {| taskId := i;
                         title := t;
                         completed := Js.truthyOpt (Js.field task "completed");
                         description := Js.asString (Js.field task "description");
                         createdAt :=
                           match Js.field task "createdAt" with
                           | Some (JStr s) => s
                           | _ => Date.toISOString now
                           end;
                         updatedAt :=
                           match Js.field task "updatedAt" with
                           | Some (JStr s) => s
                           | _ => Date.toISOString now
                           end;
                         dueAt := due;
                         priority := normalizePriority (Js.field task "priority") |})
          end
      | _, _ => Returns None
      end
  | _ => Returns None
  end.

(** [parsed.map(normalizeTask).filter(Boolean)]. *)
Fixpoint keepNormalized (now : Z) (parsed : list json) : completion (list Task) :=
  match parsed with
  | [] => Returns []
  | raw :: r =>
      match normalizeTask now raw, keepNormalized now r with
      | Returns (Some t), Returns ts => Returns (t :: ts)
      | Returns None, Returns ts => Returns ts
      | _, _ => Throws
      end
  end.

(** [loadTasks(accountId)]: whatever is thrown inside the [try] gives the
    empty collection. *)
Definition loadTasks (now : Z) (ls : storage) (accountId : option string)
  : list Task :=
  match getTaskStorageKey accountId with
  | None => []
  | Some key =>
      match ls !! key with
      | Some (Text (JArr parsed)) =>
          match keepNormalized now parsed with
          | Returns ts => ts
          | Throws => []
          end
      | _ => []
      end
  end.

(** [saveTasks()]. *)
Definition saveTasks (a : App) : App :=
  match getTaskStorageKey (currentAccountId a) with
  | None => a
  | Some key =>
      {| tasks := tasks a; currentAccount := currentAccount a;
         currentFilter := currentFilter a; currentSort := currentSort a;
         agendaScope := agendaScope a; agendaDate := agendaDate a;
         localStorage :=
           <[key := Text (JArr (map taskJson (tasks a)))]> (localStorage a) |}
  end.

Definition withTasks (a : App) (ts : list Task) : App :=
  {| tasks := ts; currentAccount := currentAccount a;
     currentFilter := currentFilter a; currentSort := currentSort a;
     agendaScope := agendaScope a; agendaDate := agendaDate a;
     localStorage := localStorage a |}.

(** [updateTask(id, nextFields)] at the instant [now]. *)
Definition updateTask (now : Z) (a : App) (id_ : string)
  (nextFields : list FieldValue) : App :=
  match currentAccount a with
  | None => a
  | Some _ =>
      let results := map (updateOne now id_ nextFields) (tasks a) in
      let a' := withTasks a (map fst results) in
      let changed := existsb snd results in
      if negb changed then a' else saveTasks a'
  end.

Definition deleteTask (a : App) (id_ : string) : App :=
  match currentAccount a with
  | None => a
  | Some _ =>
      let next := List.filter (fun task => negb (String.eqb (taskId task) id_)) (tasks a) in
      if Nat.eqb (List.length next) (List.length (tasks a)) then a
      else saveTasks (withTasks a next)
  end.

Definition findTask (a : App) (id_ : string) : option Task :=
  List.find (fun task => String.eqb (taskId task) id_) (tasks a).

End TaskStore.

(* ===================================================================== *)
(** * View engine *)
(* ===================================================================== *)

(** The number a comparator returns. *)
Inductive num :=
| Num (z : Z)
| PosInf
| NegInf
| NaN.

Module ArraySort.

(** [Array.prototype.sort(cmp)] is stable, and with a consistent
    comparator its result is the sorted order; it is modelled by the
    stable insertion sort.  [cmp a b > 0] puts [a] after [b]; [NaN]
    counts as 0, as the language specification has it.  With a
    comparator that is not consistent the language leaves the order to
    the implementation; the insertion then gives one of the orders an
    engine may return (on an array that every neighbouring comparison
    leaves in place, as in the example of the unreadable [createdAt]
    below, the run detection of the common engines returns the array as
    it is, and so does the insertion). *)
Definition positive (c : num) : bool :=
  match c with
  | Num z => 0 <? z
  | PosInf => true
  | NegInf | NaN => false
  end.

Section Sort.
Context {A : Type} (cmp : A -> A -> num).

Fixpoint insert (x : A) (l : list A) : list A :=
  match l with
  | [] => [x]
  | y :: r => if positive (cmp x y) then y :: insert x r else x :: l
  end.

Definition sort (l : list A) : list A := fold_right insert [] l.
End Sort.

End ArraySort.

Definition sub (a b : option Z) : num :=
  match a, b with
  | Some x, Some y => Num (x - y)
  | _, _ => NaN
  end.

(** [if (!task.dueAt)] is false. *)
Definition hasDue (t : Task) : bool :=
  match dueAt t with
  | Some s => negb (String.eqb s "")
  | None => false
  end.

Definition dueString (t : Task) : string :=
  match dueAt t with
  | Some s => s
  | None => ""
  end.

Section ViewEngine.
Context `{Browser} `{Daylight}.

(** [new Date(s).getTime()]. *)
Definition getTime (s : string) : option Z := Date.parse s.

Definition compareCreated (a b : Task) : num :=
  sub (getTime (createdAt b)) (getTime (createdAt a)).

Definition compareDue (a b : Task) : num :=
  if negb (hasDue a) && negb (hasDue b) then compareCreated a b
  else if negb (hasDue a) then Num 1
  else if negb (hasDue b) then Num (-1)
  else
    match sub (getTime (dueString a)) (getTime (dueString b)) with
    | Num 0 => compareCreated a b
    | diff => diff
    end.

(** [priorityRank[task.priority || 'none']]. *)
Definition priorityRank : list (string * json) :=
  [("high", JNum 0); ("med", JNum 1); ("low", JNum 2); ("none", JNum 3)].

Definition rankOf (t : Task) : Js.prop :=
  Js.get priorityRank
    (match priority t with
     | Some p => if String.eqb p "" then "none" else p
     | None => "none"
     end).

Definition comparePriority (a b : Task) : num :=
  match rankOf a, rankOf b with
  | Js.Own (JNum x), Js.Own (JNum y) =>
      if negb (x =? y) then Num (x - y) else compareCreated a b
  | Js.Undefined, Js.Undefined => compareCreated a b
  | Js.Builtin n, Js.Builtin m =>
      if String.eqb n m then compareCreated a b else NaN
  | _, _ => NaN
  end.

(** [sortTasks(listToSort)] under the sort key [currentSort]. *)
Definition sortTasks (currentSort_ : string) (listToSort : list Task) : list Task :=
  if String.eqb currentSort_ "dueAt" then ArraySort.sort compareDue listToSort
  else if String.eqb currentSort_ "priority"
       then ArraySort.sort comparePriority listToSort
       else ArraySort.sort compareCreated listToSort.

Definition statusFilter (currentFilter_ : string) (task : Task) : bool :=
  if String.eqb currentFilter_ "active" then negb (completed task)
  else if String.eqb currentFilter_ "completed" then completed task
  else true.

Definition dueOn (day : string) (task : Task) : bool :=
  hasDue task && String.eqb (dueString task) day.

Definition dueWithin (r : WeekRange) (task : Task) : bool :=
  hasDue task && JsString.le (start r) (dueString task)
  && JsString.le (dueString task) (end_ r).

(** [getVisibleTasks()] at the instant [now]; [None] when
    [getWeekRangeISO] gives no range. *)
Definition getVisibleTasks (now : Z) (a : App) : option (list Task) :=
  let filtered := List.filter (statusFilter (currentFilter a)) (tasks a) in
  if String.eqb (agendaScope a) "day"
  then Some (sortTasks (currentSort a) (List.filter (dueOn (agendaDate a)) filtered))
  else if String.eqb (agendaScope a) "week"
  then
    match getWeekRangeISO now (agendaDate a) with
    | Some r => Some (sortTasks (currentSort a) (List.filter (dueWithin r) filtered))
    | None => None
    end
  else Some (sortTasks (currentSort a) filtered).

End ViewEngine.

(* ===================================================================== *)
(** * The single-user variant of the script *)
(* ===================================================================== *)

Module SingleUser.

Definition STORAGE_KEY : string := "todo.tasks.v1".

Record App := {
  tasks : list Task;
  currentFilter : string;
  currentSort : string;
  localStorage : storage
}.

Section Variant.
Context `{Browser}.

(** [task.dueAt ? new Date(task.dueAt).getTime() : Infinity]. *)
Definition dueTime (t : Task) : num :=
  if hasDue t then
    match getTime (dueString t) with
    | Some z => Num z
    | None => NaN
    end
  else PosInf.

(** [aTime !== bTime]. *)
Definition numDiffers (a b : num) : bool :=
  match a, b with
  | Num x, Num y => negb (x =? y)
  | PosInf, PosInf => false
  | NegInf, NegInf => false
  | _, _ => true
  end.

(** [aTime - bTime] for two values that differ. *)
Definition numSub (a b : num) : num :=
  match a, b with
  | Num x, Num y => Num (x - y)
  | NaN, _ | _, NaN => NaN
  | PosInf, PosInf | NegInf, NegInf => NaN
  | PosInf, _ | _, NegInf => PosInf
  | NegInf, _ | _, PosInf => NegInf
  end.

(** [priorityOrder[task.priority] || 0]. *)
Definition priorityOrder : list (string * json) :=
  [("high", JNum 3); ("med", JNum 2); ("low", JNum 1)].

Definition orderOf (t : Task) : Js.prop :=
  match priority t with
  | Some p =>
      match Js.get priorityOrder p with
      | Js.Undefined => Js.Own (JNum 0)
      | r => r
      end
  | None => Js.Own (JNum 0)
  end.

Definition compare (sortKey : string) (a b : Task) : num :=
  let byCreated := sub (getTime (createdAt b)) (getTime (createdAt a)) in
  if String.eqb sortKey "dueAt" then
    if numDiffers (dueTime a) (dueTime b)
    then numSub (dueTime a) (dueTime b) else byCreated
  else if String.eqb sortKey "priority" then
    match orderOf a, orderOf b with
    | Js.Own (JNum x), Js.Own (JNum y) =>
        if negb (x =? y) then Num (y - x) else byCreated
    | Js.Builtin n, Js.Builtin m =>
        if String.eqb n m then byCreated else NaN
    | _, _ => NaN
    end
  else byCreated.

Definition sortTasks (items : list Task) (sortKey : string) : list Task :=
  ArraySort.sort (compare sortKey) items.

Definition saveTasks (a : App) : App :=
  {| tasks := tasks a; currentFilter := currentFilter a;
     currentSort := currentSort a;
     localStorage :=
       <[STORAGE_KEY := Text (JArr (map taskJson (tasks a)))]> (localStorage a) |}.

Definition updateTask (now : Z) (a : App) (id_ : string)
  (nextFields : list FieldValue) : App :=
  let results := map (updateOne now id_ nextFields) (tasks a) in
  let a' := {| tasks := map fst results; currentFilter := currentFilter a;
               currentSort := currentSort a; localStorage := localStorage a |} in
  if negb (existsb snd results) then a' else saveTasks a'.
End Variant.

End SingleUser.

(* ===================================================================== *)
(** * Hosts and vocabulary of the statements *)
(* ===================================================================== *)

(** A host without WebCrypto, one hour east of Greenwich. *)
Definition legacyHost : Browser :=
  {| tzOffsetMinutes := -60;
     legacyDateParse := fun _ => None;
     hasSubtleCrypto := false;
     hasBtoa := true;
     sha256 := fun bs => bs |}.

(** A host that has neither WebCrypto nor [btoa]. *)
Definition bareHost : Browser :=
  {| tzOffsetMinutes := 0;
     legacyDateParse := fun _ => None;
     hasSubtleCrypto := false;
     hasBtoa := false;
     sha256 := fun bs => bs |}.

(** A host with WebCrypto, five hours west of Greenwich.  Its digest is a
    stand-in: the length of the message and its reversed bytes. *)
Definition modernHost : Browser :=
  {| tzOffsetMinutes := 300;
     legacyDateParse := fun _ => None;
     hasSubtleCrypto := true;
     hasBtoa := true;
     sha256 := fun bs => Bytes.ofZ (Z.of_nat (List.length bs) mod 256) :: rev bs |}.

(** A host in Australia/Sydney: ten hours east of Greenwich on standard
    time, with WebCrypto (the digest is the stand-in of [modernHost]). *)
Definition sydneyHost : Browser :=
  {| tzOffsetMinutes := -600;
     legacyDateParse := fun _ => None;
     hasSubtleCrypto := true;
     hasBtoa := true;
     sha256 := fun bs => Bytes.ofZ (Z.of_nat (List.length bs) mod 256) :: rev bs |}.

(** Daylight saving as Australia/Sydney has kept it since 2008: the
    clocks are an hour ahead from 02:00 standard time on the first Sunday
    of October to 03:00 daylight time, which is 02:00 standard time, on
    the first Sunday of April.  [firstSunday y month] is the day number
    of the first Sunday of a month (0 is January); [sydneySaving border s]
    is the saving at the clock reading [s] when the change falls [border]
    milliseconds after midnight on both Sundays. *)
Definition firstSunday (y month : Z) : Z :=
  let d := Date.MakeDay y month 1 in d + (7 - (d + 4) mod 7) mod 7.

Definition sydneySaving (border s : Z) : Z :=
  let y := Date.YearFromTime s in
  if (firstSunday y 9 * Date.msPerDay + border <=? s)
     || (s <? firstSunday y 3 * Date.msPerDay + border)
  then 60 else 0.

(** At an instant the standard clock reading decides, the change being
    at 02:00 on it; at a local time the reading itself decides: readings
    from 03:00 on the October Sunday are daylight time (02:00 to 03:00 is
    skipped and taken as standard time), readings before 03:00 on the
    April Sunday are daylight time (02:00 to 03:00 comes twice and is
    taken as daylight time). *)
Definition sydneyDaylight : Daylight :=
  {| savingAt := fun t =>
       sydneySaving (2 * Date.msPerHour) (t + 600 * Date.msPerMinute);
     savingAtLocal := fun l => sydneySaving (3 * Date.msPerHour) l |}.

Section Vocabulary.
Context `{Browser} `{Daylight}.

(** The users table holds an account under the key [k]. *)
Definition hasAccount (ls : storage) (k : string) : Prop :=
  exists r, Js.assoc k (loadUsers ls) = Some r /\ Js.truthy r = true.

(** The account under [k] was registered with the display name [dn] and
    the password [pw]. *)
Definition registeredAs (ls : storage) (k dn pw : string) : Prop :=
  exists t, Js.assoc k (loadUsers ls) = Some (userRecord (hashPassword pw) dn t).

(** A stored [dueAt] the [Date] constructor can read: a truthy value
    that gives a valid date. *)
Definition dateLike (v : option json) : Prop :=
  exists x t, v = Some x /\ Js.truthy x = true /\ newDate x = Returns (Some t).

(** A stored [dueAt] on which the [Date] constructor throws. *)
Definition dateThrows (v : option json) : Prop :=
  exists x, v = Some x /\ Js.truthy x = true /\ newDate x = Throws.

(** A stored [priority] that is one of the three levels. *)
Definition priorityLike (v : option json) : Prop :=
  v = Some (JStr "low") \/ v = Some (JStr "med") \/ v = Some (JStr "high").

(** The time values the view engine compares: the creation instant of a
task and, for a task that has one, its due date. *)
Definition createdTime (t : Task) : option Z := getTime (createdAt t).

Definition dueDate (t : Task) : option Z :=
  if hasDue t then getTime (dueString t) else None.

(** A task whose [createdAt] is a readable instant and whose [dueAt],
when present, is a readable date. *)
Definition wellDated (t : Task) : Prop :=
  is_Some (createdTime t) /\ (hasDue t = true -> is_Some (dueDate t)).

(** The sort key under [dueAt]: dated before undated, then the due date,
then the newest first. *)
Definition dueKey (t : Task) : Z * Z * Z :=
  (if hasDue t then 0 else 1, default 0 (dueDate t), - default 0 (createdTime t)).

(** The order of a sequence sorted by due date: of two tasks, the one
placed first has a due date if the other has one, is not due later, and
on equal or absent due dates was not created earlier. *)
Definition dueOrdered (visible : list Task) : Prop :=
  forall i j a b,
    (i < j)%nat -> nth_error visible i = Some a -> nth_error visible j = Some b ->
    (hasDue b = true -> hasDue a = true)
    /\ (forall da db, dueDate a = Some da -> dueDate b = Some db -> da <= db)
    /\ (forall ca cb, createdTime a = Some ca -> createdTime b = Some cb ->
                      dueDate a = dueDate b -> cb <= ca).

(** The time value of local midnight of day number [n], and the time
zones this development covers: an offset of at most a day. *)
Definition localMidnight (n : Z) : Z := Date.UTC (Date.MakeDate n 0).

Definition usualTimeZone : Prop := -1440 <= tzOffsetMinutes <= 1440.

End Vocabulary.

Definition keyLe (x y : Z * Z * Z) : Prop :=
  x.1.1 < y.1.1
  \/ (x.1.1 = y.1.1 /\ (x.1.2 < y.1.2 \/ (x.1.2 = y.1.2 /\ x.2 <= y.2))).

(** Calendar vocabulary: the [YYYY-MM-DD] string of a civil date, the day
number of a civil date (days since 1970-01-01), the civil date and the
string of a day number, and the Monday on or before a day. *)
Definition isoDate (y m d : Z) : string :=
  (JsString.padDigits 4 y ++ "-" ++ JsString.padDigits 2 m ++ "-"
   ++ JsString.padDigits 2 d)%string.

Definition dayNumber (y m d : Z) : Z := Date.MakeDay y (m - 1) d.

Definition civilOfDay (n : Z) : Z * Z * Z :=
  let t := n * Date.msPerDay in
  (Date.YearFromTime t, Date.MonthFromTime t + 1, Date.DateFromTime t).

Definition isoOfDay (n : Z) : string :=
  let '(y, m, d) := civilOfDay n in isoDate y m d.

Definition mondayOf (n : Z) : Z := n - (n + 3) mod 7.

(** The first Monday and the last Sunday of the years 0000 to 9999. *)
Definition firstMonday : Z := dayNumber 0 1 3.

Definition lastSunday : Z := dayNumber 9999 12 26.

(** Day numbers comfortably inside the range of the [Date] object. *)
Definition inCalendar (n : Z) : Prop := -800000 <= n <= 3000000.

(** A signed-in state with two tasks, used in the examples. *)
Definition reportTask : Task :=
  {| taskId := "a1"; title := "Write report"; completed := false;
     description := None;
     createdAt := "2024-03-01T09:00:00.000Z";
     updatedAt := "2024-03-01T09:00:00.000Z";
     dueAt := Some "2024-03-05"; priority := Some "high" |}.

Definition milkTask : Task :=
  {| taskId := "b2"; title := "Buy milk"; completed := true;
     description := None;
     createdAt := "2024-03-02T18:30:00.000Z";
     updatedAt := "2024-03-02T18:30:00.000Z";
     dueAt := None; priority := None |}.

Definition callTask : Task :=
  {| taskId := "c3"; title := "Call the bank"; completed := false;
     description := None;
     createdAt := "2024-03-02T19:00:00.000Z";
     updatedAt := "2024-03-02T19:00:00.000Z";
     dueAt := Some "2024-03-04"; priority := Some "low" |}.

Definition carolApp : App :=
  {| tasks := [milkTask; reportTask];
     currentAccount := Some {| id := "carol"; displayName := JStr "Carol" |};
     currentFilter := "all"; currentSort := "created";
     agendaScope := "all"; agendaDate := "2024-03-01";
     localStorage := ∅ |}.

(** The agenda scenario: Carol has a task A due on 2024-03-01 and an
undated task B, and looks at that day. *)
Definition taskA : Task :=
  {| taskId := "7f3a"; title := "A"; completed := false;
     description := None;
     createdAt := "2024-02-27T08:00:00.000Z";
     updatedAt := "2024-02-27T08:00:00.000Z";
     dueAt := Some "2024-03-01"; priority := None |}.

Definition taskB : Task :=
  {| taskId := "9c1d"; title := "B"; completed := false;
     description := None;
     createdAt := "2024-02-28T08:00:00.000Z";
     updatedAt := "2024-02-28T08:00:00.000Z";
     dueAt := None; priority := None |}.

Definition agendaApp (scope : string) : App :=
  {| tasks := [taskA; taskB];
     currentAccount := Some {| id := "carol"; displayName := JStr "Carol" |};
     currentFilter := "all"; currentSort := "created";
     agendaScope := scope; agendaDate := "2024-03-01";
     localStorage := ∅ |}.

(** Three undated tasks as they are stored, the second with a
    [createdAt] that is a string but not a date, and the tasks that
    [loadTasks] makes of them. *)
Definition unreadableStorage : storage :=
  {[ "todo.tasks.v1.carol" :=
       Text (JArr
         [JObj [("id", JStr "t1"); ("title", JStr "Old"); ("completed", JBool false);
                ("createdAt", JStr "2024-01-01T00:00:00.000Z");
                ("updatedAt", JStr "2024-01-01T00:00:00.000Z")];
          JObj [("id", JStr "t2"); ("title", JStr "Bad"); ("completed", JBool false);
                ("createdAt", JStr "yesterday");
                ("updatedAt", JStr "2024-02-01T00:00:00.000Z")];
          JObj [("id", JStr "t3"); ("title", JStr "New"); ("completed", JBool false);
                ("createdAt", JStr "2024-03-01T00:00:00.000Z");
                ("updatedAt", JStr "2024-03-01T00:00:00.000Z")]]) ]}.

Definition oldTask : Task :=
  {| taskId := "t1"; title := "Old"; completed := false; description := None;
     createdAt := "2024-01-01T00:00:00.000Z";
     updatedAt := "2024-01-01T00:00:00.000Z";
     dueAt := None; priority := None |}.

Definition badTask : Task :=
  {| taskId := "t2"; title := "Bad"; completed := false; description := None;
     createdAt := "yesterday";
     updatedAt := "2024-02-01T00:00:00.000Z";
     dueAt := None; priority := None |}.

Definition newTask : Task :=
  {| taskId := "t3"; title := "New"; completed := false; description := None;
     createdAt := "2024-03-01T00:00:00.000Z";
     updatedAt := "2024-03-01T00:00:00.000Z";
     dueAt := None; priority := None |}.

Definition unreadableApp : App :=
  {| tasks := [oldTask; badTask; newTask];
     currentAccount := Some {| id := "carol"; displayName := JStr "Carol" |};
     currentFilter := "all"; currentSort := "dueAt";
     agendaScope := "all"; agendaDate := "2024-03-01";
     localStorage := unreadableStorage |}.





(** Sunday 2024-10-06, the day the clocks of Australia/Sydney go forward:
    a task due that day, the agenda anchored on it, and an instant of the
    Thursday before (2024-10-03T01:00:00.000Z). *)
Definition sundayTask : Task :=
  {| taskId := "5e0c"; title := "Call home"; completed := false;
     description := None;
     createdAt := "2024-10-01T02:00:00.000Z";
     updatedAt := "2024-10-01T02:00:00.000Z";
     dueAt := Some "2024-10-06"; priority := None |}.

Definition sundayApp (scope : string) : App :=
  {| tasks := [sundayTask];
     currentAccount := Some {| id := "carol"; displayName := JStr "Carol" |};
     currentFilter := "all"; currentSort := "created";
     agendaScope := scope; agendaDate := "2024-10-06";
     localStorage := ∅ |}.

Definition thursday : Z := 1727917200000.

(* ===================================================================== *)
(** * The rest of the script: identifiers, the due badge, the export,
      the forms and the session *)
(* ===================================================================== *)

(** [createId()].  [entropy i] is the byte that the random source of the
    host ([crypto.getRandomValues], or [Math.floor(Math.random() * 256)]
    without it) leaves at index [i] of the 16-byte array. *)
Definition createId (entropy : nat -> Byte.byte) : string :=
  Bytes.hex (map entropy (seq 0 16)).

(** [task.priority || '']. *)
Definition priorityString (t : Task) : string :=
  match priority t with
  | Some s => s
  | None => ""
  end.

Section DueBadge.
Context `{Browser} `{Daylight}.

(** [isPastDue(value)] at the instant [now], for the string [value] of a
    task's [dueAt]: both dates are moved to local midnight; a comparison
    with an invalid date is false. *)
Definition isPastDue (now : Z) (value : string) : bool :=
  if String.eqb value "" then false
  else
    match Date.setHours now 0 0 0 0,
          match Date.parse value with
          | Some due => Date.setHours due 0 0 0 0
          | None => None
          end with
    | Some today, Some due => due <? today
    | _, _ => false
    end.

End DueBadge.

(** The text that [exportVisibleTasksToCSV] hands to the [Blob]. *)
Module Csv.

Definition quote : ascii := "034"%char.
Definition comma : ascii := ","%char.
Definition newline : ascii := "010"%char.

(** The test of [escape]: the string holds a quote, a comma or a line
    feed. *)
Fixpoint needsQuotes (s : string) : bool :=
  match s with
  | EmptyString => false
  | String c r =>
      Ascii.eqb c quote || Ascii.eqb c comma || Ascii.eqb c newline
      || needsQuotes r
  end.

(** The replacement of [escape]: every quote is written twice. *)
Fixpoint doubleQuotes (s : string) : string :=
  match s with
  | EmptyString => EmptyString
  | String c r =>
      if Ascii.eqb c quote then String quote (String quote (doubleQuotes r))
      else String c (doubleQuotes r)
  end.

(** [escape(val)] for a string. *)
Definition escape (s : string) : string :=
  if needsQuotes s
  then String quote (doubleQuotes s ++ String quote EmptyString)
  else s.

Definition headers : list string :=
  ["id"; "title"; "completed"; "createdAt"; "updatedAt"; "dueAt"; "priority"].

(** The array a task is exported as, before [escape]; [String(true)] is
    "true". *)
Definition cells (t : Task) : list string :=
  [taskId t; title t; if completed t then "true" else "false";
   createdAt t; updatedAt t; dueString t; priorityString t].

Definition row (t : Task) : string :=
  JsString.join (String comma EmptyString) (map escape (cells t)).

(** [lines.join('\n')]. *)
Definition content (visible : list Task) : string :=
  JsString.join (String newline EmptyString)
    (JsString.join (String comma EmptyString) headers :: map row visible).

End Csv.

(** A reader of comma-separated values, the reference against which
    the export is stated; it is not part of the script.  Quoting is that
    of RFC 4180: a cell that opens with a quote runs to its closing
    quote, a doubled quote inside it standing for one, and commas and
    line breaks inside it are data.  Outside quotes a comma ends the cell
    and a line break ends the record; RFC 4180 writes the line break as
    CR LF, and the reader, as spreadsheet programs do, also takes a bare
    LF and a bare CR for one. *)
Module CsvReader.

Definition carriage : ascii := "013"%char.

(** [Ended] is the state right after a CR that ended a record: a LF that
    follows belongs to the same line break. *)
Inductive mode :=
| Bare
| Quoted
| Closing
| Ended.

(** [records m cell done s]: the records of [s], read in the mode [m]
    with [cell] the characters of the current cell so far and [done] the
    earlier cells of the current record, last first. *)
Fixpoint records (m : mode) (cell : string) (done : list string) (s : string)
  : list (list string) :=
  match s with
  | EmptyString => [rev (cell :: done)]
  | String c r =>
      if match m with Ended => Ascii.eqb c Csv.newline | _ => false end
      then records Bare cell done r
      else
        match m with
        | Quoted =>
            if Ascii.eqb c Csv.quote then records Closing cell done r
            else records Quoted (cell ++ String c EmptyString) done r
        | Bare | Closing | Ended =>
            if Ascii.eqb c Csv.comma then records Bare EmptyString (cell :: done) r
            else if Ascii.eqb c Csv.newline
            then rev (cell :: done) :: records Bare EmptyString [] r
            else if Ascii.eqb c carriage
            then rev (cell :: done) :: records Ended EmptyString [] r
            else if Ascii.eqb c Csv.quote
            then
              match m, cell with
              | Closing, _ => records Quoted (cell ++ String c EmptyString) done r
              | _, EmptyString => records Quoted EmptyString done r
              | _, _ => records Bare (cell ++ String c EmptyString) done r
              end
            else records Bare (cell ++ String c EmptyString) done r
        end
  end.

Definition read (s : string) : list (list string) :=
  records Bare EmptyString [] s.

(** The string holds a carriage return. *)
Fixpoint hasReturn (s : string) : bool :=
  match s with
  | EmptyString => false
  | String c r => Ascii.eqb c carriage || hasReturn r
  end.

End CsvReader.

(** What the script reads from the sort control of the page:
    [valueAtLoad] is [sortSelect ? sortSelect.value : defaultSortValue]
    when the script starts; [valueAfterReset] is what [setCurrentAccount]
    leaves in [currentSort], that is [sortSelect.value] read back after
    [sortSelect.value = defaultSortValue], or [defaultSortValue] on a page
    without the control. *)
Record SortControl := {
  valueAtLoad : string;
  valueAfterReset : string
}.

(** How a form handler ends: [Refused m] when it calls
    [setAuthMessage(m, true)] and returns without touching the session;
    [Accepted account] when it calls [setCurrentAccount(account)]. *)
Inductive FormOutcome :=
| Refused (notice : string)
| Accepted (account : Account).

(** [String(formData.get(name) || '')] for a text control; [None] is a
    form without a control of that name. *)
Definition formText (value : option string) : string :=
  match value with
  | Some s => s
  | None => ""
  end.

Definition withStorage (a : App) (ls : storage) : App :=
  {| tasks := tasks a; currentAccount := currentAccount a;
     currentFilter := currentFilter a; currentSort := currentSort a;
     agendaScope := agendaScope a; agendaDate := agendaDate a;
     localStorage := ls |}.

Section Forms.
Context `{Browser} `{Daylight}.
Variable control : SortControl.

(** [setCurrentAccount(account)] at the instant [now], on the variables of
    the script and the storage. *)
Definition setCurrentAccount (now : Z) (a : App) (account : option Account) : App :=
  match account with
  | Some acc =>
      let ls := <[SESSION_KEY := Text (accountJson acc)]> (localStorage a) in
      {| tasks := loadTasks now ls (Some (id acc));
         currentAccount := Some acc;
         currentFilter := "all";
         currentSort := valueAfterReset control;
         agendaScope := agendaScope a; agendaDate := agendaDate a;
         localStorage := ls |}
  | None =>
      {| tasks := [];
         currentAccount := None;
         currentFilter := "all";
         currentSort := valueAfterReset control;
         agendaScope := agendaScope a; agendaDate := agendaDate a;
         localStorage := delete SESSION_KEY (localStorage a) |}
  end.

(** The variables of the script when it starts, [today] being
    [todayISO()]. *)
Definition freshApp (today : string) (ls : storage) : App :=
  {| tasks := []; currentAccount := None;
     currentFilter := "all"; currentSort := valueAtLoad control;
     agendaScope := "all"; agendaDate := today;
     localStorage := ls |}.

(** [initialize()]. *)
Definition initialize (now : Z) (a : App) : App :=
  match loadSession (localStorage a) with
  | (Some sessionAccount, ls) =>
      setCurrentAccount now (withStorage a ls) (Some sessionAccount)
  | (None, ls) => withStorage a ls
  end.

(** [handleLogin(event)] on the values of the login form. *)
Definition handleLogin (now : Z) (a : App) (username password : option string)
  : FormOutcome * App :=
  let username := JsString.trim (formText username) in
  let password := formText password in
  if String.eqb username "" || String.eqb password ""
  then (Refused "Username and password are required.", a)
  else
    match authenticateUser (localStorage a) username password with
    | inr account => (Accepted account, setCurrentAccount now a (Some account))
    | inl e => (Refused (message e), a)
    end.

(** [handleRegister(event)] on the values of the registration form. *)
Definition handleRegister (now : Z) (a : App)
  (username password confirm : option string) : FormOutcome * App :=
  let username := JsString.trim (formText username) in
  let password := formText password in
  let confirm := formText confirm in
  if String.eqb username "" || String.eqb password ""
  then (Refused "Choose a username and password to continue.", a)
  else if negb (String.eqb password confirm)
  then (Refused "Passwords do not match.", a)
  else
    match registerUser now (localStorage a) username password with
    | (inr account, ls) =>
        (Accepted account, setCurrentAccount now (withStorage a ls) (Some account))
    | (inl e, ls) => (Refused (message e), withStorage a ls)
    end.

(** [handleLogout()]. *)
Definition handleLogout (now : Z) (a : App) : App :=
  setCurrentAccount now a None.

(** The [submit] listener of the new-task form, on the values of the
    title, due-date and priority controls. *)
Definition submitNewTask (now : Z) (entropy : nat -> Byte.byte) (a : App)
  (titleValue dueValue priorityValue : string) : App :=
  match currentAccount a with
  | None => a
  | Some _ =>
      let title_ := JsString.trim titleValue in
      if String.eqb title_ "" then a
      else
        let timestamp := Date.toISOString now in
        let task :=
          {| taskId := createId entropy;
             title := title_;
             completed := false;
             description := None;
             createdAt := timestamp;
             updatedAt := timestamp;
             dueAt :=
               match normalizeDate (Some (JStr dueValue)) with
               | Returns due => due
               | Throws => None
               end;
             priority := normalizePriority (Some (JStr priorityValue)) |} in
        saveTasks (withTasks a (task :: tasks a))
  end.

(** The [change] listener of the task list, for the checkbox of the task
    [id_]. *)
Definition toggleTask (now : Z) (a : App) (id_ : string) (checked : bool) : App :=
  match currentAccount a with
  | None => a
  | Some _ => updateTask now a id_ [SetCompleted checked]
  end.

(** The [submit] listener of the inline editor that [startEdit(id)]
    opened on [task], the task found under [id_] at that moment, for the
    value of the field. *)
Definition commitEdit (now : Z) (a : App) (id_ : string) (task : Task)
  (fieldValue : string) : App :=
  let nextTitle := JsString.trim fieldValue in
  if String.eqb nextTitle "" then a
  else if negb (String.eqb nextTitle (title task))
       then updateTask now a id_ [SetTitle nextTitle]
       else a.

Definition withAgendaDate (a : App) (date : string) : App :=
  {| tasks := tasks a; currentAccount := currentAccount a;
     currentFilter := currentFilter a; currentSort := currentSort a;
     agendaScope := agendaScope a; agendaDate := date;
     localStorage := localStorage a |}.

(** The listeners of the agenda controls.  [None] stands for a listener
    that does not get to assign [agendaDate]: [todayISO] or [addDaysISO]
    throws on an invalid date, or the date is one the embedding of
    [parseISOToLocalDate] does not cover. *)
Definition agendaDateChange (now : Z) (a : App) (value : string) : option App :=
  match
    match normalizeDate (Some (JStr value)) with
    | Returns (Some next) => if String.eqb next "" then None else Some next
    | _ => None
    end
  with
  | Some next => Some (withAgendaDate a next)
  | None =>
      match todayISO now with
      | Some today => Some (withAgendaDate a today)
      | None => None
      end
  end.

Definition agendaPrev (now : Z) (a : App) : option App :=
  match addDaysISO now (agendaDate a) (-1) with
  | Some date => Some (withAgendaDate a date)
  | None => None
  end.

Definition agendaNext (now : Z) (a : App) : option App :=
  match addDaysISO now (agendaDate a) 1 with
  | Some date => Some (withAgendaDate a date)
  | None => None
  end.

Definition agendaToday (now : Z) (a : App) : option App :=
  match todayISO now with
  | Some today => Some (withAgendaDate a today)
  | None => None
  end.

(** The text [exportVisibleTasksToCSV()] exports at the instant [now];
    [None] when nobody is signed in, and when [getVisibleTasks] gives no
    sequence. *)
Definition exportVisibleTasksToCSV (now : Z) (a : App) : option string :=
  match currentAccount a with
  | None => None
  | Some _ =>
      match getVisibleTasks now a with
      | Some visible => Some (Csv.content visible)
      | None => None
      end
  end.

End Forms.

(** The rest of the single-user variant of the script: its normalizers
    (the due date is kept as a full instant, the priority is read in any
    casing), the deletion and the visible sequence. *)
Module SingleUserStore.

Section Variant.
Context `{Browser}.

(** [normalizeDate(value)]: [date.toISOString()] of a valid date. *)
Definition normalizeDate (value : option json) : completion (option string) :=
  match value with
  | None => Returns None
  | Some v =>
      if negb (Js.truthy v) then Returns None
      else match newDate v with
           | Throws => Throws
           | Returns None => Returns None
           | Returns (Some t) => Returns (Some (Date.toISOString t))
           end
  end.

(** [normalizePriority(value)]: [String(value).toLowerCase()] when it is
    one of the three levels. *)
Definition normalizePriority (value : option json) : completion (option string) :=
  match value with
  | None => Returns None
  | Some v =>
      if negb (Js.truthy v) then Returns None
      else match Js.toString v with
           | Throws => Throws
           | Returns s =>
               let normalized := JsString.toLowerCase s in
               Returns
                 (if String.eqb normalized "low" || String.eqb normalized "med"
                     || String.eqb normalized "high"
                  then Some normalized else None)
           end
  end.

Definition deleteTask (a : SingleUser.App) (id_ : string) : SingleUser.App :=
  let next :=
    List.filter (fun task => negb (String.eqb (taskId task) id_))
      (SingleUser.tasks a) in
  if Nat.eqb (List.length next) (List.length (SingleUser.tasks a)) then a
  else
    SingleUser.saveTasks
      {| SingleUser.tasks := next;
         SingleUser.currentFilter := SingleUser.currentFilter a;
         SingleUser.currentSort := SingleUser.currentSort a;
         SingleUser.localStorage := SingleUser.localStorage a |}.

Definition findTask (a : SingleUser.App) (id_ : string) : option Task :=
  List.find (fun task => String.eqb (taskId task) id_) (SingleUser.tasks a).

Definition getVisibleTasks (a : SingleUser.App) : list Task :=
  SingleUser.sortTasks
    (List.filter (statusFilter (SingleUser.currentFilter a)) (SingleUser.tasks a))
    (SingleUser.currentSort a).

End Variant.

End SingleUserStore.

(** Vocabulary of the statements about the rest of the script. *)

(** The local calendar day of an instant, as a day number. *)
Definition localDay `{Browser} `{Daylight} (t : Z) : Z :=
  Date.Day (Date.LocalTime t).

(** Day numbers of the four-digit years. *)
Definition fourDigitYears (n : Z) : Prop :=
  Date.DayFromYear 0 <= n < Date.DayFromYear 10000.

(** A task as the script itself produces them: the due date is absent or
    the [YYYY-MM-DD] of a valid date, the priority absent or one of the
    three levels. *)
Definition storable (t : Task) : Prop :=
  (dueAt t = None
   \/ exists y m d, dueAt t = Some (isoDate y m d)
                    /\ Date.validCivil y m d = true /\ 0 <= y <= 9999)
  /\ (priority t = None \/ priority t = Some "low"
      \/ priority t = Some "med" \/ priority t = Some "high").

(** The rank of a task under the priority sort: high, medium, low, none. *)
Definition rankNumber (t : Task) : Z :=
  match priority t with
  | Some p =>
      if String.eqb p "high" then 0
      else if String.eqb p "med" then 1
      else if String.eqb p "low" then 2
      else 3
  | None => 3
  end.

Definition knownPriority (t : Task) : Prop :=
  priority t = None \/ priority t = Some "low"
  \/ priority t = Some "med" \/ priority t = Some "high".

(** The account's own storage key, and the states in which an account
    with a usable id is signed in. *)
(** A task whose title is a trimmed, non-empty string, as the forms
    write them. *)
Definition titled (t : Task) : Prop :=
  JsString.trim (title t) = title t /\ title t <> "".

(** An agenda date that is the [YYYY-MM-DD] of a valid date whose week
    lies within the four-digit years. *)
Definition agendaDay (a : App) (n : Z) : Prop :=
  exists y m d, agendaDate a = isoDate y m d /\ Date.validCivil y m d = true
                /\ dayNumber y m d = n /\ firstMonday <= n <= lastSunday.

Definition signedInAs (a : App) (acc : Account) : Prop :=
  currentAccount a = Some acc /\ id acc <> "".

Definition taskKey (acc : Account) : string :=
  (TASK_KEY_PREFIX ++ id acc)%string.

Section SortVocabulary.
Context `{Browser}.

(** The creation instant of a task, 0 when it is unreadable, and the
    tasks the priority sort is stated for: a readable creation instant
    and a priority that is absent or one of the three levels. *)
Definition created (t : Task) : Z := default 0 (createdTime t).

Definition ranked (t : Task) : Prop :=
  is_Some (createdTime t) /\ knownPriority t.

(** The sort key under [priority]: the rank, then the newest first. *)
Definition rankKey (t : Task) : Z * Z * Z := (0, rankNumber t, - created t).

End SortVocabulary.

(** A cell the reader gets back from the export: if it holds a carriage
    return, it also holds a quote, a comma or a line feed, so that
    [escape] puts it in quotes. *)
Definition exportable (cell : string) : Prop :=
  CsvReader.hasReturn cell = true -> Csv.needsQuotes cell = true.

(** A task whose title is two words with a carriage return between
    them. *)
Definition returnTask : Task :=
  {| taskId := "r1";
     title := String "a"%char (String CsvReader.carriage (String "b"%char EmptyString));
     completed := false; description := None;
     createdAt := "2024-03-01T09:00:00.000Z";
     updatedAt := "2024-03-01T09:00:00.000Z";
     dueAt := None; priority := None |}.

(** What may follow a cell in comma-separated text: the end, a comma or
    a line feed. *)
Definition atSeparator (rest : string) : Prop :=
  rest = EmptyString
  \/ (exists r, rest = String Csv.comma r)
  \/ (exists r, rest = String Csv.newline r).

(** The page of the examples, and a storage in which Alice has
    registered. *)
Definition pageControl : SortControl :=
  {| valueAtLoad := "created"; valueAfterReset := "created" |}.

Definition aliceStorage : storage :=
  snd (@registerUser legacyHost 0 ∅ "Alice" "secret1").

(* ===================================================================== *)
(** * Facts about strings *)
(* ===================================================================== *)

Module JsStringFacts.
Import JsString.

Lemma trimEnd_idem s : trimEnd (trimEnd s) = trimEnd s.
Proof.
  induction s as [|c r IH]; simpl; [reflexivity|].
  destruct (trimEnd r) as [|c' r'] eqn:E.
  - destruct (isWhite c) eqn:W; simpl; [reflexivity|]. rewrite W. reflexivity.
  - simpl. simpl in IH. rewrite IH. reflexivity.
Qed.

Lemma trimStart_trimEnd_nonwhite c r :
  isWhite c = false -> trimStart (trimEnd (String c r)) = trimEnd (String c r).
Proof.
  intros W. simpl. destruct (trimEnd r); rewrite ?W; simpl; rewrite W; reflexivity.
Qed.

Lemma trimStart_head s :
  trimStart s = EmptyString
  \/ exists c r, trimStart s = String c r /\ isWhite c = false.
Proof.
  induction s as [|c r IH]; simpl; [left; reflexivity|].
  destruct (isWhite c) eqn:W; [exact IH|]. right. eauto.
Qed.

Lemma trim_idem s : trim (trim s) = trim s.
Proof.
  unfold trim.
  destruct (trimStart_head s) as [E|(c & r & E & W)]; rewrite E.
  - reflexivity.
  - rewrite (trimStart_trimEnd_nonwhite c r W). apply trimEnd_idem.
Qed.

Lemma length_toLowerCase s : String.length (toLowerCase s) = String.length s.
Proof. induction s; simpl; congruence. Qed.

Lemma eqb_empty_length s : String.eqb s "" = true <-> String.length s = 0%nat.
Proof. destruct s; simpl; split; congruence. Qed.

End JsStringFacts.

(* ===================================================================== *)
(** * Credential store: registration and authentication *)
(* ===================================================================== *)

Section ObjectFacts.

Lemma assoc_setField_eq k v fields :
  Js.assoc k (Js.setField k v fields) = Some v.
Proof.
  induction fields as [|[k' v'] r IH]; simpl.
  - rewrite String.eqb_refl. reflexivity.
  - destruct (String.eqb k k') eqn:E; simpl.
    + rewrite String.eqb_refl. reflexivity.
    + rewrite E. exact IH.
Qed.

Lemma assoc_setField_ne k k' v fields :
  k <> k' -> Js.assoc k' (Js.setField k v fields) = Js.assoc k' fields.
Proof.
  intros Hne. induction fields as [|[k0 v0] r IH]; simpl.
  - destruct (String.eqb_spec k' k); [congruence|reflexivity].
  - destruct (String.eqb_spec k k0) as [->|Hk]; simpl.
    + destruct (String.eqb_spec k' k0); [congruence|reflexivity].
    + destruct (String.eqb_spec k' k0); [reflexivity|exact IH].
Qed.

Lemma get_own k fields r :
  Js.assoc k fields = Some r -> Js.get fields k = Js.Own r.
Proof. unfold Js.get. intros ->. reflexivity. Qed.

End ObjectFacts.

Section CredentialFacts.
Context `{Browser} `{Daylight}.

Lemma loadUsers_saveUsers users ls : loadUsers (saveUsers users ls) = users.
Proof. unfold loadUsers, saveUsers. rewrite lookup_insert_eq. reflexivity. Qed.

Lemma normalizeUsername_trim u :
  normalizeUsername (JsString.trim u) = normalizeUsername u.
Proof. unfold normalizeUsername. rewrite JsStringFacts.trim_idem. reflexivity. Qed.

Lemma length_normalizeUsername u :
  String.length (normalizeUsername u) = String.length (JsString.trim u).
Proof. apply JsStringFacts.length_toLowerCase. Qed.

Lemma normalized_nonempty u :
  (3 <= String.length (JsString.trim u))%nat ->
  String.eqb (normalizeUsername u) "" = false.
Proof.
  intros L. destruct (String.eqb (normalizeUsername u) "") eqn:E; [|reflexivity].
  apply JsStringFacts.eqb_empty_length in E.
  rewrite length_normalizeUsername in E. lia.
Qed.

Lemma hasAccount_truthy ls k :
  hasAccount ls k -> Js.truthyProp (Js.get (loadUsers ls) k) = true.
Proof. intros (r & Hr & T). rewrite (get_own _ _ _ Hr). exact T. Qed.

(** The script of [registerUser], case by case. *)
Lemma registerUser_short_name now ls u p :
  (String.length (JsString.trim u) < 3)%nat ->
  registerUser now ls u p = (inl UsernameTooShort, ls).
Proof.
  intros L. unfold registerUser.
  destruct (Nat.ltb_spec (String.length (JsString.trim u)) 3); [reflexivity|lia].
Qed.

Lemma registerUser_short_password now ls u p :
  (3 <= String.length (JsString.trim u))%nat ->
  (String.length p < 6)%nat ->
  registerUser now ls u p = (inl PasswordTooShort, ls).
Proof.
  intros L1 L2. unfold registerUser.
  destruct (Nat.ltb_spec (String.length (JsString.trim u)) 3); [lia|].
  destruct (Nat.ltb_spec (String.length p) 6); [reflexivity|lia].
Qed.

Lemma registerUser_valid now ls u p :
  (3 <= String.length (JsString.trim u))%nat ->
  (6 <= String.length p)%nat ->
  registerUser now ls u p =
    if Js.truthyProp (Js.get (loadUsers ls) (normalizeUsername u))
    then (inl UsernameTaken, ls)
    else (inr {| id := normalizeUsername u; displayName := JStr (JsString.trim u) |},
          saveUsers (Js.setField (normalizeUsername u)
                       (userRecord (hashPassword p) (JsString.trim u) now)
                       (loadUsers ls)) ls).
Proof.
  intros L1 L2. unfold registerUser.
  destruct (Nat.ltb_spec (String.length (JsString.trim u)) 3); [lia|].
  destruct (Nat.ltb_spec (String.length p) 6); [lia|].
  rewrite normalizeUsername_trim, (normalized_nonempty u L1). reflexivity.
Qed.

Lemma registerUser_inr now ls u p acc ls' :
  registerUser now ls u p = (inr acc, ls') ->
  (3 <= String.length (JsString.trim u))%nat
  /\ (6 <= String.length p)%nat
  /\ Js.truthyProp (Js.get (loadUsers ls) (normalizeUsername u)) = false
  /\ acc = {| id := normalizeUsername u; displayName := JStr (JsString.trim u) |}
  /\ ls' = saveUsers (Js.setField (normalizeUsername u)
                        (userRecord (hashPassword p) (JsString.trim u) now)
                        (loadUsers ls)) ls.
Proof.
  intros R.
  destruct (Nat.ltb_spec (String.length (JsString.trim u)) 3) as [L1|L1].
  { rewrite registerUser_short_name in R by exact L1. discriminate. }
  destruct (Nat.ltb_spec (String.length p) 6) as [L2|L2].
  { rewrite registerUser_short_password in R by assumption. discriminate. }
  rewrite registerUser_valid in R by assumption.
  destruct (Js.truthyProp (Js.get (loadUsers ls) (normalizeUsername u))) eqn:T;
    [discriminate|].
  inversion R; subst. repeat split; assumption.
Qed.

Lemma registerUser_registers now ls u p acc ls' :
  registerUser now ls u p = (inr acc, ls') ->
  registeredAs ls' (normalizeUsername u) (JsString.trim u) p.
Proof.
  intros R. apply registerUser_inr in R as (_ & _ & _ & _ & ->).
  exists now. rewrite loadUsers_saveUsers. apply assoc_setField_eq.
Qed.

Lemma registeredAs_hasAccount ls k dn pw :
  registeredAs ls k dn pw -> hasAccount ls k.
Proof. intros (t & Ht). exists (userRecord (hashPassword pw) dn t). split; [exact Ht|reflexivity]. Qed.

End CredentialFacts.

Section Registration.
Context `{Browser} `{Daylight}.

(** C6.  Registration fails with a validation error whenever the
    trimmed username has fewer than 3 characters or the password fewer
    than 6 (these checks come first); with valid lengths it fails with
    the conflict error whenever the normalized username already has an
    account, whatever the casing of the second attempt; and when it
    succeeds it has returned the account [{ id, displayName }], which
    carries no password hash, and written the users item and nothing
    else: under the normalized name the table now holds the record of
    the password's hash, the trimmed name and the instant of the call,
    every other record is what it was, signing in with the same name
    and password returns the same account, and registering the same
    normalized name again fails with the conflict error. *)
Theorem registerUser_outcomes now ls username password :
  ((String.length (JsString.trim username) < 3
    \/ String.length password < 6)%nat ->
   exists e, registerUser now ls username password = (inl e, ls)
             /\ errorClass e = ValidationError)
  /\ ((3 <= String.length (JsString.trim username))%nat ->
      (6 <= String.length password)%nat ->
      hasAccount ls (normalizeUsername username) ->
      registerUser now ls username password = (inl UsernameTaken, ls)
      /\ errorClass UsernameTaken = ConflictError)
  /\ (forall acc ls',
        registerUser now ls username password = (inr acc, ls') ->
        acc = {| id := normalizeUsername username;
                 displayName := JStr (JsString.trim username) |}
        /\ Js.field (accountJson acc) "passwordHash" = None
        /\ ls' = <[USERS_KEY := Text (JObj (loadUsers ls'))]> ls
        /\ Js.assoc (normalizeUsername username) (loadUsers ls')
           = Some (JObj [("passwordHash", JStr (hashPassword password));
                         ("displayName", JStr (JsString.trim username));
                         ("createdAt", JStr (Date.toISOString now))])
        /\ (forall k, k <> normalizeUsername username ->
                      Js.assoc k (loadUsers ls') = Js.assoc k (loadUsers ls))
        /\ authenticateUser ls' username password = inr acc
        /\ (forall now2 u2 p2,
              normalizeUsername u2 = normalizeUsername username ->
              (6 <= String.length p2)%nat ->
              registerUser now2 ls' u2 p2 = (inl UsernameTaken, ls'))).
Proof.
  split; [|split].
  - intros L.
    destruct (Nat.ltb_spec (String.length (JsString.trim username)) 3) as [L1|L1].
    + exists UsernameTooShort. split; [|reflexivity].
      apply registerUser_short_name; exact L1.
    + exists PasswordTooShort. split; [|reflexivity].
      apply registerUser_short_password; [exact L1|lia].
  - intros L1 L2 A. split; [|reflexivity].
    rewrite registerUser_valid by assumption.
    rewrite (hasAccount_truthy _ _ A). reflexivity.
  - intros acc ls' R.
    pose proof (registerUser_registers _ _ _ _ _ _ R) as Reg.
    apply registerUser_inr in R as (L1 & L2 & T & -> & ->).
    split; [reflexivity|]. split; [reflexivity|].
    split; [rewrite loadUsers_saveUsers; reflexivity|].
    split; [rewrite loadUsers_saveUsers; apply assoc_setField_eq|].
    split; [|split].
    + intros k Hk. rewrite loadUsers_saveUsers.
      apply assoc_setField_ne. congruence.
    + unfold authenticateUser.
      rewrite normalizeUsername_trim, (normalized_nonempty username L1).
      rewrite loadUsers_saveUsers, (get_own _ _ _ (assoc_setField_eq _ _ _)).
      cbn. rewrite String.eqb_refl. cbn.
      destruct (String.eqb_spec (JsString.trim username) "") as [Z0|_];
        [rewrite Z0 in L1; simpl in L1; lia|reflexivity].
    + intros now2 u2 p2 E L.
      assert (L3 : (3 <= String.length (JsString.trim u2))%nat).
      { rewrite <- length_normalizeUsername, E, length_normalizeUsername.
        exact L1. }
      rewrite registerUser_valid by assumption.
      rewrite E.
      rewrite (hasAccount_truthy _ _ (registeredAs_hasAccount _ _ _ _ Reg)).
      reflexivity.
Qed.

(** C10.  Registration fails exactly when the trimmed username has
    fewer than 3 characters, the password fewer than 6, the normalized
    username is empty, or the lookup of the normalized username in the
    users table is truthy; and whenever it fails the storage, and with
    it the users table, is left exactly as it was. *)
Theorem registerUser_failure_frame now ls username password :
  (((String.length (JsString.trim username) < 3)%nat
    \/ (String.length password < 6)%nat
    \/ normalizeUsername username = ""
    \/ Js.truthyProp (Js.get (loadUsers ls) (normalizeUsername username)) = true)
   <-> exists e, fst (registerUser now ls username password) = inl e)
  /\ (forall e ls',
        registerUser now ls username password = (inl e, ls') ->
        ls' = ls /\ loadUsers ls' = loadUsers ls
        /\ ls' !! USERS_KEY = ls !! USERS_KEY).
Proof.
  destruct (Nat.ltb_spec (String.length (JsString.trim username)) 3) as [L1|L1].
  { rewrite registerUser_short_name by exact L1. split.
    - split; [eauto|]. intros _. left. exact L1.
    - intros e ls' E. inversion E; subst. auto. }
  destruct (Nat.ltb_spec (String.length password) 6) as [L2|L2].
  { rewrite registerUser_short_password by assumption. split.
    - split; [eauto|]. intros _. right. left. exact L2.
    - intros e ls' E. inversion E; subst. auto. }
  rewrite registerUser_valid by assumption.
  pose proof (normalized_nonempty username L1) as NE.
  destruct (Js.truthyProp (Js.get (loadUsers ls) (normalizeUsername username))) eqn:T.
  - split.
    + split; [eauto|]. intros _. right. right. right. reflexivity.
    + intros e ls' E. inversion E; subst. auto.
  - split.
    + split.
      * intros [L|[L|[L|L]]]; try lia; try discriminate.
        rewrite L in NE. discriminate.
      * intros [e E]. discriminate.
    + intros e ls' E. discriminate.
Qed.

End Registration.

(** Registering "Bob" and then "bob"; a password that is too short; a
    name that is taken. *)
Lemma registerUser_outcomes_witness :
  (exists e, @registerUser legacyHost 0 ∅ "Al" "secret1" = (inl e, ∅)
             /\ errorClass e = ValidationError)
  /\ exists acc ls',
      @registerUser legacyHost 0 ∅ "Bob" "secret1" = (inr acc, ls')
      /\ displayName acc = JStr "Bob"
      /\ Js.assoc "bob" (loadUsers ls')
         = Some (JObj [("passwordHash", JStr "c2VjcmV0MQ==");
                       ("displayName", JStr "Bob");
                       ("createdAt", JStr "1970-01-01T00:00:00.000Z")])
      /\ @authenticateUser legacyHost ls' "Bob" "secret1" = inr acc
      /\ @registerUser legacyHost 1 ls' "bob" "secret2" = (inl UsernameTaken, ls')
      /\ @registerUser legacyHost 2 ls' " BOB " "secret3" = (inl UsernameTaken, ls').
Proof.
  split.
  - apply (proj1 (@registerUser_outcomes legacyHost 0 ∅ "Al" "secret1")).
    left. simpl. lia.
  - destruct (@registerUser_outcomes legacyHost 0 ∅ "Bob" "secret1")
      as (_ & _ & S).
    eexists _, _. split; [reflexivity|].
    destruct (S _ _ eq_refl) as (_ & _ & _ & Rec & _ & Au & T).
    split; [reflexivity|]. split; [exact Rec|]. split; [exact Au|]. split.
    + apply (proj1 (proj1 (proj2 (@registerUser_outcomes legacyHost 1 _ "bob" "secret2"))
                      ltac:(simpl; lia) ltac:(simpl; lia)
                      (ex_intro _ _ (conj Rec eq_refl)))).
    + apply T; [reflexivity|simpl; lia].
Defined.

Lemma registerUser_failure_frame_witness :
  (exists e, fst (@registerUser legacyHost 0 ∅ "Al" "secret1") = inl e)
  /\ snd (@registerUser legacyHost 0 ∅ "Al" "secret1") = ∅.
Proof.
  destruct (@registerUser_failure_frame legacyHost 0 ∅ "Al" "secret1") as [I F].
  split.
  - apply (proj1 I). left. simpl. lia.
  - exact (proj1 (F UsernameTooShort ∅ eq_refl)).
Defined.

Section Authentication.
Context `{Browser} `{Daylight}.

Lemma authenticateUser_found ls u p r :
  String.eqb (normalizeUsername u) "" = false ->
  Js.assoc (normalizeUsername u) (loadUsers ls) = Some r ->
  Js.truthy r = true ->
  authenticateUser ls u p =
    if differsFrom (Js.field r "passwordHash") (hashPassword p)
    then inl IncorrectPassword
    else inr {| id := normalizeUsername u;
                displayName := orElse (Js.field r "displayName")
                                 (JStr (JsString.trim u)) |}.
Proof.
  intros NE A T. unfold authenticateUser.
  rewrite normalizeUsername_trim, NE, (get_own _ _ _ A). simpl.
  rewrite T. reflexivity.
Qed.

(** X28.  Authentication, outcome by outcome.  For an account registered
    under a non-empty key with a non-empty display name, authenticating with
    any username that normalizes (trim, lower case) to the key and with
    the registered password returns the account [{ id, displayName }]
    whose display name is the one entered at registration and which
    carries no password hash; a password whose hash differs from the
    stored one fails with the invalid-credential error; a username
    whose normalized form is not empty, has no truthy entry in the
    users table and is not a name inherited from [Object.prototype]
    fails with the not-found error, and a blank username fails with the
    validation error "Enter your username to sign in."; in particular
    an account registered through [registerUser] is authenticated under
    any casing of its name. *)
Theorem authenticateUser_outcomes ls username password :
  (forall dn pw,
      normalizeUsername username <> "" ->
      registeredAs ls (normalizeUsername username) dn pw ->
      dn <> "" ->
      (authenticateUser ls username pw
       = inr {| id := normalizeUsername username; displayName := JStr dn |}
       /\ Js.field (accountJson {| id := normalizeUsername username;
                                   displayName := JStr dn |}) "passwordHash" = None)
      /\ (hashPassword password <> hashPassword pw ->
          authenticateUser ls username password = inl IncorrectPassword
          /\ errorClass IncorrectPassword = InvalidCredentialError))
  /\ (normalizeUsername username <> "" ->
      ~ hasAccount ls (normalizeUsername username) ->
      Js.inheritedName (normalizeUsername username) = false ->
      authenticateUser ls username password = inl AccountNotFound
      /\ errorClass AccountNotFound = NotFoundError)
  /\ (normalizeUsername username = "" ->
      authenticateUser ls username password = inl EnterUsername
      /\ errorClass EnterUsername = ValidationError)
  /\ (forall now ls0 u0 acc,
        registerUser now ls0 u0 password = (inr acc, ls) ->
        normalizeUsername username = normalizeUsername u0 ->
        authenticateUser ls username password
        = inr {| id := normalizeUsername u0;
                 displayName := JStr (JsString.trim u0) |}).
Proof.
  assert (Reg : forall dn pw,
             normalizeUsername username <> "" ->
             registeredAs ls (normalizeUsername username) dn pw ->
             dn <> "" ->
             authenticateUser ls username pw
             = inr {| id := normalizeUsername username; displayName := JStr dn |}).
  { intros dn pw NE (t & A) D.
    rewrite (authenticateUser_found _ _ _ _ (proj2 (String.eqb_neq _ _) NE) A eq_refl).
    simpl. rewrite String.eqb_refl. simpl.
    destruct (String.eqb_spec dn ""); [contradiction|reflexivity]. }
  split; [|split; [|split]].
  - intros dn pw NE R D. split; [split; [apply Reg; assumption|reflexivity]|].
    intros W. split; [|reflexivity].
    destruct R as (t & A).
    rewrite (authenticateUser_found _ _ _ _ (proj2 (String.eqb_neq _ _) NE) A eq_refl).
    simpl. destruct (String.eqb_spec (hashPassword pw) (hashPassword password));
      [congruence|reflexivity].
  - intros NE NA NI. split; [|reflexivity].
    unfold authenticateUser. rewrite normalizeUsername_trim.
    rewrite (proj2 (String.eqb_neq _ _) NE).
    unfold Js.get. rewrite NI.
    destruct (Js.assoc (normalizeUsername username) (loadUsers ls)) as [r|] eqn:A;
      [|reflexivity].
    simpl. destruct (Js.truthy r) eqn:T; [|reflexivity].
    exfalso. apply NA. exists r. auto.
  - intros E. split; [|reflexivity].
    unfold authenticateUser. rewrite normalizeUsername_trim, E. reflexivity.
  - intros now ls0 u0 acc R E.
    pose proof (registerUser_registers _ _ _ _ _ _ R) as Rg.
    apply registerUser_inr in R as (L1 & _).
    rewrite <- E in Rg. rewrite <- E. apply Reg.
    + intros Z0. pose proof (normalized_nonempty u0 L1) as N0.
      rewrite <- E, Z0 in N0. discriminate.
    + exact Rg.
    + intros Z0. rewrite Z0 in L1. simpl in L1. lia.
Qed.

End Authentication.

(** Registering "Alice" and then signing in as "alice". *)
Lemma authenticateUser_outcomes_witness :
  exists acc ls,
    @registerUser legacyHost 0 ∅ "Alice" "rightPassword" = (inr acc, ls)
    /\ @authenticateUser legacyHost ls "alice" "rightPassword"
       = inr {| id := "alice"; displayName := JStr "Alice" |}
    /\ @authenticateUser legacyHost ls "alice" "wrongPassword" = inl IncorrectPassword
    /\ @authenticateUser legacyHost ls "carol" "rightPassword" = inl AccountNotFound
    /\ @authenticateUser legacyHost ls "  " "rightPassword" = inl EnterUsername.
Proof.
  eexists _, _. split; [reflexivity|].
  match goal with
  | |- @authenticateUser _ ?ls _ _ = _ /\ _ =>
      pose proof (fun u p => @authenticateUser_outcomes legacyHost ls u p) as T
  end.
  split.
  - destruct (T "alice" "rightPassword") as (_ & _ & _ & R).
    exact (R 0 ∅ "Alice" _ eq_refl eq_refl).
  - split.
    + destruct (T "alice" "wrongPassword") as (R & _).
      refine (proj1 (proj2 (R "Alice" "rightPassword" _ _ _) _)).
      * discriminate.
      * exists 0. reflexivity.
      * discriminate.
      * vm_compute. discriminate.
    + split.
      * destruct (T "carol" "rightPassword") as (_ & R & _).
        refine (proj1 (R _ _ eq_refl)).
        -- discriminate.
        -- intros (r & A & _). vm_compute in A. discriminate.
      * destruct (T "  " "rightPassword") as (_ & _ & R & _).
        exact (proj1 (R eq_refl)).
Defined.

(** C5 at the failing input.  Alice is the only registered account.
    The name "constructor" normalizes to itself and has no account, so
    the specification has signing in under it fail with the not-found error, as
    it does for "carol"; the script answers "Incorrect password.", the
    invalid-credential error, because the lookup of the name in the
    users table reaches [Object.prototype] and the test [if (!record)]
    lets the inherited function through.  The login form passes the name
    on as it is typed. *)
Theorem authenticateUser_inherited_name :
  normalizeUsername "constructor" = "constructor"
  /\ Js.assoc "constructor" (loadUsers aliceStorage) = None
  /\ ~ hasAccount aliceStorage "constructor"
  /\ @authenticateUser legacyHost aliceStorage "constructor" "secret1"
     = inl IncorrectPassword
  /\ errorClass IncorrectPassword = InvalidCredentialError
  /\ @authenticateUser legacyHost aliceStorage "carol" "secret1" = inl AccountNotFound
  /\ fst (@handleLogin legacyHost pageControl 0
            (freshApp pageControl "2024-03-01" aliceStorage)
            (Some "constructor") (Some "secret1"))
     = Refused "Incorrect password.".
Proof.
  repeat split.
  intros (r & A & _). vm_compute in A. discriminate.
Qed.

(* ===================================================================== *)
(** * Session restore *)
(* ===================================================================== *)

Section SessionFacts.

(** Restoring never writes the users table. *)
Lemma loadSession_keeps_users ls : loadUsers (snd (loadSession ls)) = loadUsers ls.
Proof.
  assert (D : loadUsers (delete SESSION_KEY ls) = loadUsers ls).
  { unfold loadUsers. rewrite lookup_delete_ne; [reflexivity|discriminate]. }
  unfold loadSession.
  destruct (ls !! SESSION_KEY) as [[raw|parsed]|]; simpl; [| |reflexivity].
  - destruct (String.eqb raw ""); simpl; [reflexivity|exact D].
  - destruct parsed; simpl; try reflexivity;
      destruct (Js.asString _) as [i|]; simpl; try reflexivity;
      destruct (String.eqb i ""); simpl; try reflexivity;
      destruct (Js.truthyProp _); simpl; try reflexivity; exact D.
Qed.

Lemma loadSession_absent ls :
  ls !! SESSION_KEY = None -> loadSession ls = (None, ls).
Proof. unfold loadSession. intros ->. reflexivity. Qed.

(** A pointer to an account that the users table does not hold is
    removed, provided its id is not a name that the table inherits from
    [Object.prototype]. *)
Lemma loadSession_stale ls fields i :
  ls !! SESSION_KEY = Some (Text (JObj fields)) ->
  Js.assoc "id" fields = Some (JStr i) ->
  i <> "" ->
  ~ hasAccount ls i ->
  Js.inheritedName i = false ->
  loadSession ls = (None, delete SESSION_KEY ls)
  /\ snd (loadSession ls) !! SESSION_KEY = None.
Proof.
  intros P I NE NA NI.
  assert (E : loadSession ls = (None, delete SESSION_KEY ls)).
  { unfold loadSession. rewrite P. simpl. rewrite I. simpl.
    rewrite (proj2 (String.eqb_neq _ _) NE).
    unfold Js.get. rewrite NI.
    destruct (Js.assoc i (loadUsers ls)) as [r|] eqn:A; [|reflexivity].
    simpl. destruct (Js.truthy r) eqn:T; [|reflexivity].
    exfalso. apply NA. exists r. auto. }
  split; [exact E|]. rewrite E. simpl. apply lookup_delete_eq.
Qed.

(** C7 at the failing input.  The storage holds a session pointer whose
    id is "constructor" and no users table, so the account the pointer
    names does not exist; restoring nevertheless returns an account
    with that id and keeps the pointer, because the lookup of the id in
    the users table reaches [Object.prototype]. *)
Theorem loadSession_inherited_name :
  let pointer := JObj [("id", JStr "constructor"); ("displayName", JStr "Mallory")] in
  let ls : storage := {[ SESSION_KEY := Text pointer ]} in
  ~ hasAccount ls "constructor"
  /\ loadSession ls
     = (Some {| id := "constructor"; displayName := JStr "Mallory" |}, ls).
Proof.
  split.
  - intros (r & A & _). vm_compute in A. discriminate.
  - reflexivity.
Qed.

End SessionFacts.

(* ===================================================================== *)
(** * Task store: update *)
(* ===================================================================== *)

Section UpdateFacts.

Lemma applyFields_same entries t flag :
  (forall fv, In fv entries -> differs t fv = false) ->
  applyFields entries t flag = (t, flag).
Proof.
  induction entries as [|fv r IH]; intros S; simpl; [reflexivity|].
  rewrite (S fv) by (left; reflexivity).
  apply IH. intros fv' I. apply S. right. exact I.
Qed.

Lemma applyFields_flag entries t : snd (applyFields entries t true) = true.
Proof.
  revert t. induction entries as [|fv r IH]; intros t; simpl; [reflexivity|].
  destruct (differs t fv); apply IH.
Qed.

Lemma applyFields_differs entries t :
  (exists fv, In fv entries /\ differs t fv = true) ->
  snd (applyFields entries t false) = true.
Proof.
  induction entries as [|fv r IH]; intros (fv' & I & D); simpl.
  - destruct I.
  - destruct (differs t fv) eqn:E.
    + apply applyFields_flag.
    + apply IH. destruct I as [->|I]; [congruence|]. eauto.
Qed.

Lemma updateOne_other now i entries t :
  taskId t <> i -> updateOne now i entries t = (t, false).
Proof.
  intros N. unfold updateOne.
  destruct (String.eqb_spec (taskId t) i); [contradiction|reflexivity].
Qed.

Lemma updateOne_same now i entries t :
  (forall fv, In fv entries -> differs t fv = false) ->
  updateOne now i entries t = (t, false).
Proof.
  intros S. unfold updateOne.
  destruct (String.eqb (taskId t) i); [simpl|reflexivity].
  rewrite (applyFields_same _ _ _ S). reflexivity.
Qed.

Lemma updateOne_differs now i entries t :
  taskId t = i ->
  (exists fv, In fv entries /\ differs t fv = true) ->
  exists t', updateOne now i entries t = (t', true)
             /\ updatedAt t' = Date.toISOString now
             /\ createdAt t' = createdAt (fst (applyFields entries t false)).
Proof.
  intros E D. unfold updateOne. rewrite E, String.eqb_refl. simpl.
  pose proof (applyFields_differs _ _ D) as F.
  destruct (applyFields entries t false) as [u c]. simpl in F. subst c.
  eexists. split; [reflexivity|]. split; reflexivity.
Qed.

Lemma map_updateOne_same now i entries ts :
  (forall t, In t ts -> taskId t = i ->
             forall fv, In fv entries -> differs t fv = false) ->
  map fst (map (updateOne now i entries) ts) = ts
  /\ existsb snd (map (updateOne now i entries) ts) = false.
Proof.
  induction ts as [|t r IH]; intros S; simpl; [split; reflexivity|].
  destruct IH as [IH1 IH2]. { intros t' I. apply S. right. exact I. }
  assert (U : updateOne now i entries t = (t, false)).
  { destruct (String.eqb_spec (taskId t) i) as [E|N].
    - apply updateOne_same. apply S; [left; reflexivity|exact E].
    - apply updateOne_other. exact N. }
  rewrite U. simpl. rewrite IH1, IH2. split; reflexivity.
Qed.


End UpdateFacts.

Section Update.
Context `{Browser} `{Daylight}.

(** The single-user variant of the script behaves alike, without the
    account. *)
Lemma SingleUser_updateTask_noop now (a : SingleUser.App) i nextFields :
  (forall t, In t (SingleUser.tasks a) -> taskId t = i ->
             forall fv, In fv nextFields -> differs t fv = false) ->
  SingleUser.updateTask now a i nextFields = a.
Proof.
  intros S. unfold SingleUser.updateTask.
  destruct (map_updateOne_same now i nextFields _ S) as [M1 M2].
  rewrite M1, M2. destruct a. reflexivity.
Qed.

Lemma SingleUser_updateTask_persist now (a : SingleUser.App) i nextFields t :
  In t (SingleUser.tasks a) ->
  taskId t = i ->
  (exists fv, In fv nextFields /\ differs t fv = true) ->
  let a' := SingleUser.updateTask now a i nextFields in
  exists t',
    In t' (SingleUser.tasks a')
    /\ updatedAt t' = Date.toISOString now
    /\ SingleUser.localStorage a' !! SingleUser.STORAGE_KEY
       = Some (Text (JArr (map taskJson (SingleUser.tasks a')))).
Proof.
  intros I E D a'.
  destruct (updateOne_differs now i nextFields t E D) as (t' & U & B & _).
  assert (C : existsb snd (map (updateOne now i nextFields) (SingleUser.tasks a)) = true).
  { apply existsb_exists. exists (t', true). split; [|reflexivity].
    rewrite <- U. apply in_map. exact I. }
  exists t'. unfold a', SingleUser.updateTask. rewrite C. simpl.
  split; [|split; [exact B|apply lookup_insert_eq]].
  change t' with (fst (t', true)). rewrite <- U.
  apply in_map. apply in_map. exact I.
Qed.

End Update.

(* ===================================================================== *)
(** * Task store: load *)
(* ===================================================================== *)

Section LoadFacts.
Context `{Browser} `{Daylight}.

Lemma normalizeDate_throws v : normalizeDate v = Throws <-> dateThrows v.
Proof.
  unfold normalizeDate, dateThrows. split.
  - destruct v as [x|]; [|discriminate].
    destruct (Js.truthy x) eqn:T; [simpl|discriminate].
    destruct (newDate x) as [|[t|]] eqn:D; try discriminate.
    intros _. exists x. auto.
  - intros (x & -> & T & D). rewrite T, D. reflexivity.
Qed.

Lemma normalizeDate_malformed v :
  ~ dateLike v -> ~ dateThrows v -> normalizeDate v = Returns None.
Proof.
  intros M NT. unfold normalizeDate.
  destruct v as [x|]; [|reflexivity].
  destruct (Js.truthy x) eqn:T; [simpl|reflexivity].
  destruct (newDate x) as [|[t|]] eqn:D; [| |reflexivity].
  - exfalso. apply NT. exists x. auto.
  - exfalso. apply M. exists x, t. auto.
Qed.

Lemma normalizePriority_malformed v : ~ priorityLike v -> normalizePriority v = None.
Proof.
  intros M. unfold normalizePriority.
  destruct v as [[| | |s| |]|]; try reflexivity.
  destruct (String.eqb_spec s "low") as [->|]; [exfalso; apply M; left; reflexivity|].
  destruct (String.eqb_spec s "med") as [->|];
    [exfalso; apply M; right; left; reflexivity|].
  destruct (String.eqb_spec s "high") as [->|];
    [exfalso; apply M; right; right; reflexivity|].
  reflexivity.
Qed.

Lemma normalizeTask_dropped now raw :
  (forall s, Js.field raw "id" <> Some (JStr s))
  \/ (forall s, Js.field raw "title" <> Some (JStr s)) ->
  normalizeTask now raw = Returns None.
Proof.
  intros M. unfold normalizeTask.
  destruct raw; try reflexivity;
    destruct (Js.field _ "id") as [[]|]; try reflexivity;
    destruct (Js.field _ "title") as [[]|]; try reflexivity;
    destruct M as [M|M]; exfalso; eapply M; reflexivity.
Qed.

Lemma normalizeTask_kept now raw i ti :
  Js.field raw "id" = Some (JStr i) ->
  Js.field raw "title" = Some (JStr ti) ->
  ~ dateThrows (Js.field raw "dueAt") ->
  exists t, normalizeTask now raw = Returns (Some t)
            /\ taskId t = i /\ title t = ti
            /\ normalizeDate (Js.field raw "dueAt") = Returns (dueAt t)
            /\ priority t = normalizePriority (Js.field raw "priority").
Proof.
  intros I T NT. unfold normalizeTask.
  destruct raw; try discriminate I.
  all: rewrite I, T.
  all: destruct (normalizeDate (Js.field _ "dueAt")) as [|due] eqn:D;
    [exfalso; apply NT, normalizeDate_throws, D|].
  all: eexists; split; [reflexivity|]; repeat split.
Qed.

(** A record with an id and a title whose [dueAt] makes the [Date]
    constructor throw is not normalized: the exception leaves
    [normalizeTask]. *)
Lemma normalizeTask_throws now raw i ti :
  Js.field raw "id" = Some (JStr i) ->
  Js.field raw "title" = Some (JStr ti) ->
  dateThrows (Js.field raw "dueAt") ->
  normalizeTask now raw = Throws.
Proof.
  intros I T D. apply normalizeDate_throws in D. unfold normalizeTask.
  destruct raw; try discriminate I.
  all: rewrite I, T, D; reflexivity.
Qed.

Lemma normalizeTask_returns now raw :
  ~ dateThrows (Js.field raw "dueAt") -> normalizeTask now raw <> Throws.
Proof.
  intros NT. unfold normalizeTask.
  destruct raw; try discriminate.
  all: destruct (Js.field _ "id") as [[]|]; try discriminate.
  all: destruct (Js.field _ "title") as [[]|]; try discriminate.
  all: destruct (normalizeDate (Js.field _ "dueAt")) as [|due] eqn:D;
    [exfalso; apply NT, normalizeDate_throws, D|discriminate].
Qed.

Lemma keepNormalized_returns now parsed :
  (forall raw, In raw parsed -> normalizeTask now raw <> Throws) ->
  exists ts, keepNormalized now parsed = Returns ts.
Proof.
  induction parsed as [|raw r IH]; intros R; simpl.
  - eexists. reflexivity.
  - destruct IH as [ts ->]; [intros x I; apply R; right; exact I|].
    destruct (normalizeTask now raw) as [|[t|]] eqn:N.
    + exfalso. apply (R raw); [left; reflexivity|exact N].
    + eexists. reflexivity.
    + eexists. reflexivity.
Qed.

Lemma keepNormalized_throws now parsed raw :
  In raw parsed -> normalizeTask now raw = Throws ->
  keepNormalized now parsed = Throws.
Proof.
  induction parsed as [|x r IH]; intros I N; [destruct I|].
  simpl. destruct I as [->|I].
  - rewrite N. reflexivity.
  - rewrite (IH I N). destruct (normalizeTask now x) as [|[]]; reflexivity.
Qed.

Lemma in_keepNormalized now parsed ts t :
  keepNormalized now parsed = Returns ts ->
  In t ts <-> exists raw, In raw parsed /\ normalizeTask now raw = Returns (Some t).
Proof.
  revert ts. induction parsed as [|raw r IH]; simpl; intros ts K.
  - injection K as <-. split; [intros []|intros (? & [] & _)].
  - destruct (normalizeTask now raw) as [|[t0|]] eqn:N; [discriminate K| |];
      destruct (keepNormalized now r) as [|ts'] eqn:K'; try discriminate K;
      injection K as <-; specialize (IH ts' eq_refl); simpl; rewrite ?IH; split.
    + intros [<-|(x & I & E)]; eauto.
    + intros (x & [<-|I] & E); [left; congruence|right; eauto].
    + intros (x & I & E); eauto.
    + intros (x & [<-|I] & E); [congruence|eauto].
Qed.

(** As soon as one stored record with an id and a title carries a
    [dueAt] on which the [Date] constructor throws, the exception is
    caught by [loadTasks] and the whole collection loads as empty. *)
Lemma loadTasks_throws now ls accountId key parsed raw i ti :
  getTaskStorageKey accountId = Some key ->
  ls !! key = Some (Text (JArr parsed)) ->
  In raw parsed ->
  Js.field raw "id" = Some (JStr i) ->
  Js.field raw "title" = Some (JStr ti) ->
  dateThrows (Js.field raw "dueAt") ->
  loadTasks now ls accountId = [].
Proof.
  intros K E I Hi Ht D. unfold loadTasks. rewrite K, E.
  rewrite (keepNormalized_throws now parsed raw I
             (normalizeTask_throws now raw i ti Hi Ht D)).
  reflexivity.
Qed.

(** Loading the tasks of an account when no stored [dueAt] makes the
    [Date] constructor throw.  When the stored item is missing, empty,
    rejected by [JSON.parse] or not an array, the result is the empty
    collection.  When it is an array, the result holds exactly the
    normalized records; a record without a string [id] or without a
    string [title] is dropped; a record that has both is kept under that
    id and title, and its [dueAt] or [priority] is absent whenever the
    stored value is not a readable date, or not one of the three
    levels. *)
Lemma loadTasks_soft now ls accountId :
  (getTaskStorageKey accountId = None -> loadTasks now ls accountId = [])
  /\ (forall key,
        getTaskStorageKey accountId = Some key ->
        (forall parsed, ls !! key <> Some (Text (JArr parsed))) ->
        loadTasks now ls accountId = [])
  /\ (forall key parsed,
        getTaskStorageKey accountId = Some key ->
        ls !! key = Some (Text (JArr parsed)) ->
        (forall raw, In raw parsed -> ~ dateThrows (Js.field raw "dueAt")) ->
        (forall t, In t (loadTasks now ls accountId)
                   <-> exists raw, In raw parsed
                                   /\ normalizeTask now raw = Returns (Some t))
        /\ forall raw, In raw parsed ->
             ((forall s, Js.field raw "id" <> Some (JStr s))
              \/ (forall s, Js.field raw "title" <> Some (JStr s)) ->
              normalizeTask now raw = Returns None)
             /\ (forall i ti,
                   Js.field raw "id" = Some (JStr i) ->
                   Js.field raw "title" = Some (JStr ti) ->
                   exists t,
                     normalizeTask now raw = Returns (Some t)
                     /\ In t (loadTasks now ls accountId)
                     /\ taskId t = i /\ title t = ti
                     /\ (~ dateLike (Js.field raw "dueAt") -> dueAt t = None)
                     /\ (~ priorityLike (Js.field raw "priority") ->
                         priority t = None))).
Proof.
  split; [|split].
  - intros K. unfold loadTasks. rewrite K. reflexivity.
  - intros key K N. unfold loadTasks. rewrite K.
    destruct (ls !! key) as [[raw|[]]|] eqn:E; try reflexivity.
    exfalso. eapply N. reflexivity.
  - intros key parsed K E NT.
    destruct (keepNormalized_returns now parsed) as [ts R].
    { intros raw I. apply normalizeTask_returns, NT, I. }
    assert (L : loadTasks now ls accountId = ts).
    { unfold loadTasks. rewrite K, E, R. reflexivity. }
    rewrite L. split; [intros t; apply in_keepNormalized, R|].
    intros raw I. split; [apply normalizeTask_dropped|].
    intros i ti Hi Ht.
    destruct (normalizeTask_kept now raw i ti Hi Ht (NT raw I))
      as (t & N & Ei & Et & Ed & Ep).
    exists t. split; [exact N|].
    split; [apply (in_keepNormalized now parsed ts t R); eauto|].
    split; [exact Ei|]. split; [exact Et|]. split.
    + intros M. rewrite (normalizeDate_malformed _ M (NT raw I)) in Ed.
      injection Ed as <-. reflexivity.
    + intros M. rewrite Ep. apply normalizePriority_malformed. exact M.
Qed.

(** C8 at the failing input.  The account's item holds two records, each
    with a string [id] and a string [title].  The first is well formed
    and, stored alone, loads as itself.  The [dueAt] of the second is
    the object [{toString: 0}], which is not a date; on it
    the [Date] constructor throws a [TypeError] instead of giving an
    invalid date, and the [catch] of [loadTasks] answers with the empty
    collection: neither record is kept. *)
Theorem loadTasks_dueAt_throws :
  let key := "todo.tasks.v1.carol" in
  let good := JObj [("id", JStr "t1"); ("title", JStr "A")] in
  let odd := JObj [("id", JStr "t2"); ("title", JStr "B");
                   ("dueAt", JObj [("toString", JNum 0)])] in
  ~ dateLike (Js.field odd "dueAt")
  /\ map taskId (loadTasks 0 {[ key := Text (JArr [good]) ]} (Some "carol")) = ["t1"]
  /\ loadTasks 0 {[ key := Text (JArr [good; odd]) ]} (Some "carol") = [].
Proof.
  intros key good odd. split; [|split].
  - intros (x & t & E & _ & D). injection E as <-. discriminate D.
  - reflexivity.
  - reflexivity.
Qed.

End LoadFacts.

(** A corrupt item loads as the empty collection; of three stored
    records, the one with an id and a title is kept, without its
    unreadable due date and its unknown priority. *)
Lemma loadTasks_soft_example :
  let key := "todo.tasks.v1.carol" in
  let record :=
    JObj [("id", JStr "t1"); ("title", JStr "A");
          ("dueAt", JStr "not a date"); ("priority", JStr "urgent")] in
  let ls : storage :=
    {[ key := Text (JArr [record; JObj [("title", JStr "no id")]; JNum 7]) ]} in
  @loadTasks legacyHost 0 {[ key := Garbage "{oops" ]} (Some "carol") = []
  /\ exists t,
      @loadTasks legacyHost 0 ls (Some "carol") = [t]
      /\ taskId t = "t1" /\ title t = "A" /\ dueAt t = None /\ priority t = None.
Proof.
  intros key record ls. split.
  - refine (proj1 (proj2 (@loadTasks_soft legacyHost 0 _ (Some "carol"))) key eq_refl _).
    intros parsed E. vm_compute in E. discriminate.
  - destruct (proj2 (proj2 (@loadTasks_soft legacyHost 0 ls (Some "carol")))
                key _ eq_refl eq_refl) as [_ R].
    { intros raw [<-|[<-|[<-|[]]]] (x & E & _ & D); try discriminate E.
      injection E as <-. discriminate D. }
    destruct (R record (or_introl eq_refl)) as [_ K].
    destruct (K "t1" "A" eq_refl eq_refl) as (t & N & _ & Ei & Et & Ed & Ep).
    exists t. split.
    + vm_compute in N. injection N as <-. reflexivity.
    + split; [exact Ei|]. split; [exact Et|]. split.
      * apply Ed. intros (x & d & E & _ & D).
        injection E as <-. vm_compute in D. discriminate.
      * apply Ep. intros [E|[E|E]]; discriminate.
Qed.

(* ===================================================================== *)
(** * Password hashing *)
(* ===================================================================== *)

Section HashFacts.

Lemma hexChar_lower d : 0 <= d < 16 -> JsString.isLowerHex (JsString.hexChar d) = true.
Proof.
  intros R.
  assert (C : d = 0 \/ d = 1 \/ d = 2 \/ d = 3 \/ d = 4 \/ d = 5 \/ d = 6 \/ d = 7
              \/ d = 8 \/ d = 9 \/ d = 10 \/ d = 11 \/ d = 12 \/ d = 13 \/ d = 14
              \/ d = 15) by lia.
  repeat (destruct C as [->|C]; [reflexivity|]). subst. reflexivity.
Qed.

Lemma toZ_range b : 0 <= Bytes.toZ b < 256.
Proof.
  unfold Bytes.toZ. pose proof (Byte.to_N_bounded b) as B. lia.
Qed.

Lemma hex_lower bs : JsString.allChars JsString.isLowerHex (Bytes.hex bs) = true.
Proof.
  induction bs as [|b r IH]; simpl; [reflexivity|].
  pose proof (toZ_range b) as R.
  rewrite !hexChar_lower, IH; [reflexivity| |].
  - pose proof (Z.mod_pos_bound (Bytes.toZ b) 16). lia.
  - split; [apply Z.div_pos; lia|apply Z.div_lt_upper_bound; lia].
Qed.

Lemma length_hex bs : String.length (Bytes.hex bs) = (2 * List.length bs)%nat.
Proof. induction bs as [|b r IH]; simpl; [reflexivity|]. rewrite IH. lia. Qed.

End HashFacts.

Section Hash.
Context `{Browser} `{Daylight}.

(** C9, as the script has it.  Hashing is a function of the password
    and the host: two runs on the same password give the same result.
    When WebCrypto and [TextEncoder] are there, the result is the
    lower-case hexadecimal rendering of the SHA-256 digest of the UTF-8
    bytes of the password, two characters a byte.  When they are not,
    it is the base64 rendering of those bytes, or the password itself
    if [btoa] cannot be called. *)
Theorem hashPassword_rendering password :
  (forall other, other = password -> hashPassword other = hashPassword password)
  /\ (hasSubtleCrypto = true ->
      hashPassword password = Bytes.hex (sha256 (Bytes.utf8 password))
      /\ JsString.allChars JsString.isLowerHex (hashPassword password) = true
      /\ String.length (hashPassword password)
         = (2 * List.length (sha256 (Bytes.utf8 password)))%nat)
  /\ (hasSubtleCrypto = false ->
      hashPassword password
      = if hasBtoa then Bytes.btoa (Bytes.utf8 password) else password).
Proof.
  split; [intros other ->; reflexivity|]. unfold hashPassword. split.
  - intros ->. split; [reflexivity|]. split; [apply hex_lower|apply length_hex].
  - intros ->. reflexivity.
Qed.

End Hash.

Lemma hashPassword_rendering_witness :
  JsString.allChars JsString.isLowerHex (@hashPassword modernHost "secret") = true
  /\ @hashPassword legacyHost "secret" = Bytes.btoa (Bytes.utf8 "secret").
Proof.
  split.
  - exact (proj1 (proj2 (proj1 (proj2 (@hashPassword_rendering modernHost "secret"))
                           eq_refl))).
  - exact (proj2 (proj2 (@hashPassword_rendering legacyHost "secret")) eq_refl).
Defined.

(** C9 as stated fails on a host without WebCrypto: the hash of "secret"
    is its base64 rendering, which is not hexadecimal; and without [btoa]
    it is the password itself. *)
Lemma hashPassword_not_hex_counterexample :
  @hashPassword legacyHost "secret" = "c2VjcmV0"
  /\ JsString.allChars JsString.isLowerHex (@hashPassword legacyHost "secret") = false
  /\ @hashPassword bareHost "secret" = "secret".
Proof. repeat split. Qed.

(* ===================================================================== *)
(** * View engine: the sort *)
(* ===================================================================== *)

Section SortFacts.
Context {A : Type} (cmp : A -> A -> num).

Lemma insert_perm x l : Permutation (x :: l) (ArraySort.insert cmp x l).
Proof.
  induction l as [|y r IH]; simpl; [reflexivity|].
  destruct (ArraySort.positive (cmp x y)); [|reflexivity].
  rewrite perm_swap. apply perm_skip. exact IH.
Qed.

Lemma sort_perm l : Permutation l (ArraySort.sort cmp l).
Proof.
  induction l as [|x r IH]; simpl; [reflexivity|].
  rewrite <- insert_perm. apply perm_skip. exact IH.
Qed.

Lemma sort_in l x : In x (ArraySort.sort cmp l) <-> In x l.
Proof.
  split; apply Permutation_in; [symmetry|]; apply sort_perm.
Qed.

Variables (carrier : A -> Prop) (le : A -> A -> Prop).
Hypothesis le_trans : forall x y z, le x y -> le y z -> le x z.
Hypothesis not_after : forall x y, carrier x -> carrier y ->
  ArraySort.positive (cmp x y) = false -> le x y.
Hypothesis after : forall x y, carrier x -> carrier y ->
  ArraySort.positive (cmp x y) = true -> le y x.

Lemma insert_sorted x l :
  carrier x -> Forall carrier l -> StronglySorted le l ->
  StronglySorted le (ArraySort.insert cmp x l).
Proof.
  intros Cx Cl S. induction S as [|y r S IH F]; simpl.
  - constructor; constructor.
  - apply Forall_cons_iff in Cl as [Cy Cr].
    destruct (ArraySort.positive (cmp x y)) eqn:E.
    + constructor; [apply IH; exact Cr|].
      apply (Permutation_Forall (insert_perm x r)).
      constructor; [apply after; assumption|exact F].
    + assert (L : le x y) by (apply not_after; assumption).
      constructor; [constructor; assumption|].
      constructor; [exact L|].
      eapply Forall_impl; [exact F|]. intros z Hz. eapply le_trans; eassumption.
Qed.

Lemma sort_sorted l :
  Forall carrier l -> StronglySorted le (ArraySort.sort cmp l).
Proof.
  induction l as [|x r IH]; intros C; simpl; [constructor|].
  apply Forall_cons_iff in C as [Cx Cr].
  apply insert_sorted; [exact Cx| |apply IH; exact Cr].
  apply (Permutation_Forall (sort_perm r)). exact Cr.
Qed.

End SortFacts.

Lemma StronglySorted_nth {A} (R : A -> A -> Prop) l :
  StronglySorted R l ->
  forall i j a b, (i < j)%nat -> nth_error l i = Some a -> nth_error l j = Some b -> R a b.
Proof.
  induction 1 as [|x r S IH F]; intros i j a b L Ha Hb.
  - destruct i; discriminate.
  - destruct j as [|j]; [lia|]. simpl in Hb.
    destruct i as [|i]; simpl in Ha.
    + injection Ha as <-. rewrite List.Forall_forall in F. apply F.
      eapply nth_error_In. exact Hb.
    + eapply IH; [|eassumption|eassumption]. lia.
Qed.

Lemma sort_ext {A} (c1 c2 : A -> A -> num) l :
  (forall x y, In x l -> In y l ->
               ArraySort.positive (c1 x y) = ArraySort.positive (c2 x y)) ->
  ArraySort.sort c1 l = ArraySort.sort c2 l.
Proof.
  induction l as [|x r IH]; intros E; simpl; [reflexivity|].
  rewrite IH by (intros; apply E; right; assumption).
  assert (G : forall s, (forall y, In y s -> In y r) ->
                        ArraySort.insert c1 x s = ArraySort.insert c2 x s).
  { induction s as [|y s IHs]; intros Sub; simpl; [reflexivity|].
    rewrite E; [|left; reflexivity|right; apply Sub; left; reflexivity].
    rewrite IHs by (intros; apply Sub; right; assumption). reflexivity. }
  apply G. intros y. apply sort_in.
Qed.

Section DueSort.
Context `{Browser} `{Daylight}.

Lemma keyLe_trans x y z : keyLe x y -> keyLe y z -> keyLe x z.
Proof. unfold keyLe. lia. Qed.

Lemma compareCreated_wf a b ca cb :
  createdTime a = Some ca -> createdTime b = Some cb ->
  compareCreated a b = Num (cb - ca).
Proof. unfold createdTime, compareCreated. intros -> ->. reflexivity. Qed.

Lemma compareDue_key a b :
  wellDated a -> wellDated b ->
  (ArraySort.positive (compareDue a b) = false -> keyLe (dueKey a) (dueKey b))
  /\ (ArraySort.positive (compareDue a b) = true -> keyLe (dueKey b) (dueKey a)).
Proof.
  intros [[ca Ca] Da] [[cb Cb] Db].
  unfold compareDue, dueKey, keyLe, dueDate in *.
  rewrite (compareCreated_wf a b ca cb Ca Cb), Ca, Cb.
  destruct (hasDue a), (hasDue b); simpl.
  - destruct (Da eq_refl) as [da Ea], (Db eq_refl) as [db Eb]. rewrite Ea, Eb. simpl.
    destruct (da - db) as [|p|p] eqn:E; simpl.
    + rewrite !Z.ltb_ge, !Z.ltb_lt. lia.
    + split; [discriminate|]. intros _. lia.
    + split; [|discriminate]. intros _. lia.
  - split; [|discriminate]. intros _. lia.
  - split; [discriminate|]. intros _. lia.
  - rewrite !Z.ltb_ge, !Z.ltb_lt. lia.
Qed.

Lemma compare_variants a b :
  wellDated a -> wellDated b ->
  ArraySort.positive (SingleUser.compare "dueAt" a b)
  = ArraySort.positive (compareDue a b).
Proof.
  intros [[ca Ca] Da] [[cb Cb] Db].
  unfold SingleUser.compare, SingleUser.dueTime, compareDue, dueDate in *. simpl.
  fold (compareCreated a b).
  destruct (hasDue a), (hasDue b); simpl.
  - destruct (Da eq_refl) as [da Ea], (Db eq_refl) as [db Eb]. rewrite Ea, Eb. simpl.
    destruct (Z.eqb_spec da db) as [->|N]; simpl.
    + rewrite Z.sub_diag. reflexivity.
    + destruct (da - db) eqn:E; [lia|reflexivity|reflexivity].
  - destruct (Da eq_refl) as [da Ea]. rewrite Ea. reflexivity.
  - destruct (Db eq_refl) as [db Eb]. rewrite Eb. reflexivity.
  - reflexivity.
Qed.

Lemma sort_dueAt_ordered (collection : list Task) :
  Forall wellDated collection ->
  dueOrdered (ArraySort.sort compareDue collection).
Proof.
  intros W i j a b L Ha Hb.
  assert (S : StronglySorted (fun x y => keyLe (dueKey x) (dueKey y))
                (ArraySort.sort compareDue collection)).
  { apply (sort_sorted compareDue wellDated); [| | |exact W].
    - intros x y z. apply keyLe_trans.
    - intros x y Wx Wy. apply (compareDue_key x y Wx Wy).
    - intros x y Wx Wy. apply (compareDue_key x y Wx Wy). }
  pose proof (StronglySorted_nth _ _ S i j a b L Ha Hb) as K.
  assert (Wa : wellDated a).
  { rewrite List.Forall_forall in W. apply W. apply (sort_in compareDue).
    eapply nth_error_In. exact Ha. }
  assert (Wb : wellDated b).
  { rewrite List.Forall_forall in W. apply W. apply (sort_in compareDue).
    eapply nth_error_In. exact Hb. }
  destruct Wa as [[ca Ca] Da], Wb as [[cb Cb] Db].
  unfold keyLe, dueKey in K. rewrite Ca, Cb in K. simpl in K.
  unfold dueDate in *.
  destruct (hasDue a), (hasDue b); simpl in K; split; try split;
    try (intros; congruence); try lia.
  - intros da db Ea Eb. rewrite Ea, Eb in K. simpl in K. lia.
  - intros ca' cb' Ea Eb E. rewrite E in K.
    assert (ca' = ca) by congruence. assert (cb' = cb) by congruence. subst. lia.
  - intros ca' cb' Ea Eb E. destruct (Da eq_refl). congruence.
  - intros ca' cb' Ea Eb E.
    assert (ca' = ca) by congruence. assert (cb' = cb) by congruence. subst. lia.
Qed.

Lemma Forall_filter_keep {A} (P : A -> Prop) (p : A -> bool) l :
  Forall P l -> Forall P (List.filter p l).
Proof.
  rewrite !List.Forall_forall. intros F x I. apply F.
  apply filter_In in I. tauto.
Qed.

(** X27.  The [dueAt] sort on readable dates.  Under the [dueAt] sort
key, for every collection of tasks whose
creation instants and due dates are readable, the sorted sequence is an
arrangement of the collection in which, for any task [a] placed before a
task [b]: if [b] has a due date then so has [a] (the undated tasks come
after all dated ones); if both have one, the due date of [a] is not after
that of [b]; and if their due dates are equal or both absent, [a] was
created no earlier than [b] (newest first).  The single-user variant of
the script returns the same sequence, and the visible sequence of the
application, whatever the status filter and the agenda window, is ordered
in this way. *)
Theorem sortTasks_dueAt (collection : list Task) :
  Forall wellDated collection ->
  let visible := sortTasks "dueAt" collection in
  Permutation collection visible
  /\ dueOrdered visible
  /\ SingleUser.sortTasks collection "dueAt" = visible
  /\ (forall now a shown,
        tasks a = collection -> currentSort a = "dueAt" ->
        getVisibleTasks now a = Some shown -> dueOrdered shown).
Proof.
  intros W visible. unfold visible, sortTasks. simpl.
  split; [apply sort_perm|]. split; [apply sort_dueAt_ordered, W|]. split.
  - unfold SingleUser.sortTasks. apply sort_ext.
    intros x y Ix Iy. rewrite List.Forall_forall in W.
    apply compare_variants; apply W; assumption.
  - intros now a shown T K V. unfold getVisibleTasks in V.
    rewrite K, T in V. unfold sortTasks in V. simpl in V.
    destruct (String.eqb (agendaScope a) "day").
    { injection V as <-. apply sort_dueAt_ordered.
      do 2 apply Forall_filter_keep. exact W. }
    destruct (String.eqb (agendaScope a) "week").
    { destruct (getWeekRangeISO now (agendaDate a)); [|discriminate].
      injection V as <-. apply sort_dueAt_ordered.
      do 2 apply Forall_filter_keep. exact W. }
    injection V as <-. apply sort_dueAt_ordered.
    apply Forall_filter_keep. exact W.
Qed.
End DueSort.

(** Three tasks, one without a due date. *)
Lemma sortTasks_dueAt_witness :
  Permutation [milkTask; reportTask; callTask]
    (@sortTasks legacyHost "dueAt" [milkTask; reportTask; callTask])
  /\ @dueOrdered legacyHost (@sortTasks legacyHost "dueAt" [milkTask; reportTask; callTask])
  /\ @sortTasks legacyHost "dueAt" [milkTask; reportTask; callTask]
     = [callTask; reportTask; milkTask].
Proof.
  assert (W : Forall (@wellDated legacyHost) [milkTask; reportTask; callTask]).
  { repeat constructor; try (eexists; reflexivity); try discriminate;
      intros _; eexists; reflexivity. }
  destruct (@sortTasks_dueAt legacyHost noDaylight [milkTask; reportTask; callTask] W)
    as (P & O & _).
  split; [exact P|]. split; [exact O|reflexivity].
Defined.

(** C1 at the failing input.  The account's item holds three undated
tasks; the second has the [createdAt] "yesterday", a string, which
[normalizeTask] keeps as it is, and which is not a date.  [loadTasks]
returns the three tasks, and under the [dueAt] sort key the sequence,
and the visible sequence of the application, is Old, Bad, New: both
comparisons with Bad give [NaN], the sort leaves the three where they
are, and Old, created on 2024-01-01, stays ahead of New, created on
2024-03-01, although neither has a due date and the specification has
the newest first. *)
Theorem sortTasks_dueAt_unreadable_createdAt :
  let collection := @loadTasks modernHost 0 unreadableStorage (Some "carol") in
  collection = [oldTask; badTask; newTask]
  /\ @compareDue modernHost oldTask badTask = NaN
  /\ @compareDue modernHost badTask newTask = NaN
  /\ @sortTasks modernHost "dueAt" collection = [oldTask; badTask; newTask]
  /\ @getVisibleTasks modernHost noDaylight 0 unreadableApp
     = Some [oldTask; badTask; newTask]
  /\ dueAt oldTask = None /\ dueAt newTask = None
  /\ @createdTime modernHost oldTask = Some 1704067200000
  /\ @createdTime modernHost newTask = Some 1709251200000
  /\ ~ @dueOrdered modernHost (@sortTasks modernHost "dueAt" collection).
Proof.
  repeat split.
  intros O.
  destruct (O 0%nat 2%nat oldTask newTask ltac:(lia) eq_refl eq_refl) as (_ & _ & C).
  specialize (C 1704067200000 1709251200000 eq_refl eq_refl eq_refl). lia.
Qed.

(* ===================================================================== *)
(** * Date window: digits, the calendar and the week range *)
(* ===================================================================== *)

#[local] Arguments String.append !_ _ / : simpl nomatch.

Module DigitFacts.
Import JsString.

Lemma digit_cases k :
  0 <= k <= 9 ->
  k = 0 \/ k = 1 \/ k = 2 \/ k = 3 \/ k = 4 \/ k = 5 \/ k = 6 \/ k = 7 \/ k = 8 \/ k = 9.
Proof. lia. Qed.

Ltac each_digit k H :=
  destruct (digit_cases k H) as [->|[->|[->|[->|[->|[->|[->|[->|[->| ->]]]]]]]]].

Lemma digitVal_digitChar k : 0 <= k <= 9 -> digitVal (digitChar k) = Some k.
Proof. intros R. each_digit k R; reflexivity. Qed.

Lemma digitChar_not_dash k : 0 <= k <= 9 -> Ascii.eqb (digitChar k) "-" = false.
Proof. intros R. each_digit k R; reflexivity. Qed.

Lemma N_of_digitChar k : 0 <= k <= 9 -> N_of_ascii (digitChar k) = Z.to_N (48 + k).
Proof. intros R. each_digit k R; reflexivity. Qed.

Lemma compare_digitChar a b :
  0 <= a <= 9 -> 0 <= b <= 9 -> Ascii.compare (digitChar a) (digitChar b) = (a ?= b).
Proof.
  intros Ra Rb. unfold Ascii.compare.
  rewrite !N_of_digitChar by assumption.
  rewrite Z2N.inj_compare by lia. apply Z.add_compare_mono_l.
Qed.

Lemma append_assoc (a b c : string) : ((a ++ b) ++ c = a ++ (b ++ c))%string.
Proof. induction a; simpl; congruence. Qed.

Lemma length_append (a b : string) :
  String.length (a ++ b) = (String.length a + String.length b)%nat.
Proof. induction a; simpl; congruence. Qed.

Lemma length_padDigits w n : String.length (padDigits w n) = w.
Proof.
  revert n. induction w as [|w IH]; intros n; simpl; [reflexivity|].
  rewrite length_append, IH. simpl. lia.
Qed.

(** Reading back [w] padded digits. *)
Lemma digitsVal_padDigits w n acc s :
  0 <= n < 10 ^ Z.of_nat w ->
  digitsVal acc (padDigits w n ++ s) = digitsVal (acc * 10 ^ Z.of_nat w + n) s.
Proof.
  revert n acc s. induction w as [|w IH]; intros n acc s R.
  - simpl in *. f_equal. lia.
  - rewrite Nat2Z.inj_succ, Z.pow_succ_r in * by lia.
    simpl. rewrite append_assoc. simpl.
    rewrite IH by (split; [apply Z.div_pos; lia|apply Z.div_lt_upper_bound; lia]).
    simpl. rewrite digitVal_digitChar by (pose proof (Z.mod_pos_bound n 10); lia).
    f_equal. pose proof (Z.div_mod n 10). lia.
Qed.

Lemma decimal_padDigits w n :
  0 <= n < 10 ^ Z.of_nat w -> decimal (padDigits w n) = Some n.
Proof.
  intros R. unfold decimal.
  replace (padDigits w n) with (padDigits w n ++ "")%string
    by (induction (padDigits w n); simpl; congruence).
  rewrite digitsVal_padDigits by exact R. reflexivity.
Qed.

(** A string of digits has no white space to trim and no sign. *)
Lemma isDigit_digitChar k : 0 <= k <= 9 -> isDigit (digitChar k) = true.
Proof. intros R. each_digit k R; reflexivity. Qed.

Lemma isDigit_plain c :
  isDigit c = true ->
  isWhite c = false /\ Ascii.eqb c "+" = false /\ Ascii.eqb c "-" = false.
Proof.
  unfold isDigit, digitVal, isWhite, code. intros D.
  destruct (Ascii.eqb_spec c "+") as [->|_]; [discriminate D|].
  destruct (Ascii.eqb_spec c "-") as [->|_]; [discriminate D|].
  split; [|auto].
  destruct ((48 <=? Z.of_N (N_of_ascii c)) && (Z.of_N (N_of_ascii c) <=? 57)) eqn:E;
    [|discriminate D].
  apply andb_true_iff in E as [E1 E2]. apply Z.leb_le in E1, E2.
  repeat (apply orb_false_iff; split); try apply andb_false_iff;
    try (apply Z.eqb_neq; lia).
  right. apply Z.leb_gt. lia.
Qed.

Lemma allChars_append p a b :
  allChars p (a ++ b) = allChars p a && allChars p b.
Proof.
  induction a as [|c a IH]; simpl; [reflexivity|].
  rewrite IH. apply andb_assoc.
Qed.

Lemma digits_padDigits w n : 0 <= n -> allChars isDigit (padDigits w n) = true.
Proof.
  revert n. induction w as [|w IH]; intros n R; simpl; [reflexivity|].
  rewrite allChars_append, IH by (apply Z.div_pos; lia). simpl.
  rewrite isDigit_digitChar by (pose proof (Z.mod_pos_bound n 10); lia).
  reflexivity.
Qed.

Lemma trimEnd_digits s : allChars isDigit s = true -> trimEnd s = s.
Proof.
  induction s as [|c r IH]; intros D; [reflexivity|].
  simpl in D. apply andb_true_iff in D as [Dc Dr].
  cbn [trimEnd]. rewrite (IH Dr).
  destruct r; [|reflexivity].
  destruct (isDigit_plain c Dc) as [-> _]. reflexivity.
Qed.

Lemma trim_digits s : allChars isDigit s = true -> trim s = s.
Proof.
  intros D. unfold trim.
  assert (T : trimStart s = s).
  { destruct s as [|c r]; [reflexivity|]. simpl in D.
    apply andb_true_iff in D as [Dc _].
    cbn [trimStart]. destruct (isDigit_plain c Dc) as [-> _]. reflexivity. }
  rewrite T. apply trimEnd_digits, D.
Qed.

Lemma dropDigits_digits s : allChars isDigit s = true -> dropDigits s = "".
Proof.
  induction s as [|c r IH]; intros D; [reflexivity|].
  simpl in D. apply andb_true_iff in D as [Dc Dr].
  cbn [dropDigits]. rewrite Dc. apply IH, Dr.
Qed.

Lemma toNumber_padDigits w n :
  (0 < w)%nat -> 0 <= n < 10 ^ Z.of_nat w ->
  toNumber (padDigits w n) = Some (Integer n).
Proof.
  intros W R. unfold toNumber.
  rewrite (trim_digits _ (digits_padDigits w n (proj1 R))).
  pose proof (decimal_padDigits w n R) as V. unfold decimal in V.
  pose proof (digits_padDigits w n (proj1 R)) as D.
  pose proof (length_padDigits w n) as L.
  destruct (padDigits w n) as [|c r]; [simpl in L; lia|].
  pose proof (dropDigits_digits _ D) as Dd.
  simpl in D. apply andb_true_iff in D as [Dc _].
  destruct (isDigit_plain c Dc) as (_ & P & M).
  unfold dropSign. rewrite P, M. cbn [orb].
  unfold startsWithDigit. rewrite Dc, Dd, V. reflexivity.
Qed.

Lemma splitAux_padDigits w n cur s :
  0 <= n ->
  splitAux "-" cur (padDigits w n ++ s) = splitAux "-" (cur ++ padDigits w n) s.
Proof.
  revert n cur s. induction w as [|w IH]; intros n cur s R; simpl.
  - f_equal. induction cur; simpl; congruence.
  - rewrite append_assoc. simpl.
    rewrite IH by (apply Z.div_pos; lia). simpl.
    rewrite digitChar_not_dash by (pose proof (Z.mod_pos_bound n 10); lia).
    rewrite append_assoc. reflexivity.
Qed.

(** Lexicographic comparison of padded numbers is numeric comparison. *)
Lemma compare_padDigits w a b s t :
  0 <= a < 10 ^ Z.of_nat w -> 0 <= b < 10 ^ Z.of_nat w ->
  String.compare (padDigits w a ++ s) (padDigits w b ++ t)
  = match a ?= b with Eq => String.compare s t | c => c end.
Proof.
  revert a b s t. induction w as [|w IH]; intros a b s t Ra Rb.
  - simpl in *. replace a with 0 by lia. replace b with 0 by lia. reflexivity.
  - rewrite Nat2Z.inj_succ, Z.pow_succ_r in * by lia.
    simpl. rewrite !append_assoc. simpl.
    rewrite IH by (split; [apply Z.div_pos; lia|apply Z.div_lt_upper_bound; lia]).
    simpl.
    rewrite compare_digitChar
      by (pose proof (Z.mod_pos_bound a 10); pose proof (Z.mod_pos_bound b 10); lia).
    pose proof (Z.div_mod a 10). pose proof (Z.div_mod b 10).
    pose proof (Z.mod_pos_bound a 10). pose proof (Z.mod_pos_bound b 10).
    destruct (Z.compare_spec (a / 10) (b / 10)) as [E|L|G].
    + destruct (Z.compare_spec (a mod 10) (b mod 10)) as [E'|L'|G'];
        destruct (Z.compare_spec a b); try reflexivity; lia.
    + destruct (Z.compare_spec a b); try reflexivity; lia.
    + destruct (Z.compare_spec a b); try reflexivity; lia.
Qed.

End DigitFacts.

Module CalendarFacts.
Import Date.

Ltac case_eqb :=
  repeat match goal with
    | |- context [?a =? ?b] => destruct (Z.eqb_spec a b)
    end.

Ltac prune_eqb :=
  repeat match goal with
    | |- context [?a =? ?b] => destruct (Z.eqb_spec a b); try lia
    | H : context [?a =? ?b] |- _ => destruct (Z.eqb_spec a b); try lia
    end.

Ltac prune_ltb :=
  repeat match goal with
    | |- context [?a <? ?b] => destruct (Z.ltb_spec a b); try lia
    end.

Ltac case_ltb :=
  repeat match goal with
    | |- context [?a <? ?b] => destruct (Z.ltb_spec a b)
    end.

Lemma DaysInYear_range y : DaysInYear y = 365 \/ DaysInYear y = 366.
Proof. unfold DaysInYear. case_eqb; simpl; auto. Qed.

Lemma leapOf_range y : leapOf y = 0 \/ leapOf y = 1.
Proof. unfold leapOf. destruct (DaysInYear y =? 366); auto. Qed.

Lemma DaysInYear_leapOf y : DaysInYear y = 365 + leapOf y.
Proof.
  unfold leapOf. destruct (Z.eqb_spec (DaysInYear y) 366) as [E|N]; [lia|].
  destruct (DaysInYear_range y); lia.
Qed.

Lemma DayFromYear_succ y : DayFromYear (y + 1) = DayFromYear y + DaysInYear y.
Proof.
  unfold DayFromYear, DaysInYear. case_eqb; simpl; Z.div_mod_to_equations; lia.
Qed.

Lemma DayFromYear_lt y1 y2 : y1 < y2 -> DayFromYear (y1 + 1) <= DayFromYear y2.
Proof.
  intros L. unfold DayFromYear. Z.div_mod_to_equations. lia.
Qed.

Lemma yearFromDay_spec d :
  DayFromYear (yearFromDay d) <= d < DayFromYear (yearFromDay d + 1).
Proof.
  unfold yearFromDay.
  set (e := 1970 + 400 * d / 146097).
  assert (He : 146097 * (e - 1970) <= 400 * d < 146097 * (e - 1970) + 146097).
  { unfold e. Z.div_mod_to_equations. lia. }
  clearbody e.
  pose proof (DayFromYear_succ e) as S1.
  pose proof (DayFromYear_succ (e - 1)) as S0.
  pose proof (DayFromYear_succ (e + 1)) as S2.
  replace (e - 1 + 1) with e in S0 by lia.
  assert (B : forall y, 146097 * (y - 1970) - 600 <= 400 * DayFromYear y
                        <= 146097 * (y - 1970) + 600).
  { intros y. unfold DayFromYear. Z.div_mod_to_equations. lia. }
  pose proof (B e). pose proof (B (e + 1)). pose proof (B (e - 1)).
  pose proof (DaysInYear_range e). pose proof (DaysInYear_range (e + 1)).
  pose proof (DaysInYear_range (e - 1)).
  destruct (Z.leb_spec (DayFromYear (e + 1)) d).
  - lia.
  - destruct (Z.ltb_spec d (DayFromYear e)).
    + replace (e - 1 + 1) with e by lia. lia.
    + lia.
Qed.

Lemma yearFromDay_unique y d :
  DayFromYear y <= d < DayFromYear (y + 1) -> yearFromDay d = y.
Proof.
  intros R. pose proof (yearFromDay_spec d) as S.
  destruct (Z.lt_trichotomy (yearFromDay d) y) as [L|[E|G]]; [|exact E|].
  - pose proof (DayFromYear_lt _ _ L). lia.
  - pose proof (DayFromYear_lt _ _ G). lia.
Qed.

Lemma Day_MakeDate day time :
  0 <= time < msPerDay -> Day (MakeDate day time) = day.
Proof.
  intros R. unfold Day, MakeDate, msPerDay in *. Z.div_mod_to_equations. lia.
Qed.

Lemma TimeWithinDay_MakeDate day time :
  0 <= time < msPerDay -> TimeWithinDay (MakeDate day time) = time.
Proof.
  intros R. unfold TimeWithinDay, MakeDate, msPerDay in *. Z.div_mod_to_equations. lia.
Qed.

Lemma month_cases m :
  1 <= m <= 12 ->
  m = 1 \/ m = 2 \/ m = 3 \/ m = 4 \/ m = 5 \/ m = 6 \/ m = 7 \/ m = 8 \/ m = 9
  \/ m = 10 \/ m = 11 \/ m = 12.
Proof. lia. Qed.

Lemma validCivil_range y m d :
  validCivil y m d = true -> 1 <= m <= 12 /\ 1 <= d <= daysInMonth y m.
Proof.
  unfold validCivil. intros V.
  repeat (apply andb_true_iff in V as [V ?]).
  rewrite !Z.leb_le in *. lia.
Qed.

(** The day number of a civil date lies within its year. *)
Lemma MakeDay_within y m d :
  validCivil y m d = true ->
  MakeDay y (m - 1) d = DayFromYear y + daysBeforeMonth (leapOf y) (m - 1) + d - 1
  /\ 0 <= daysBeforeMonth (leapOf y) (m - 1) + d - 1 < DaysInYear y.
Proof.
  intros V. apply validCivil_range in V as [Rm Rd].
  rewrite DaysInYear_leapOf. unfold MakeDay.
  rewrite (Z.mod_small (m - 1) 12), (Z.div_small (m - 1) 12), Z.add_0_r by lia.
  pose proof (leapOf_range y) as L.
  unfold daysBeforeMonth, daysInMonth in *.
  prune_eqb; simpl in *; split; lia.
Qed.

Section Civil.
Variables (y m d time : Z).
Hypothesis valid : validCivil y m d = true.
Hypothesis timeRange : 0 <= time < msPerDay.

Let t := MakeDate (MakeDay y (m - 1) d) time.

Lemma YearFromTime_civil : YearFromTime t = y.
Proof.
  unfold YearFromTime, t. rewrite Day_MakeDate by exact timeRange.
  destruct (MakeDay_within y m d valid) as [E R].
  apply yearFromDay_unique. rewrite DayFromYear_succ. lia.
Qed.

Lemma DayWithinYear_civil :
  DayWithinYear t = daysBeforeMonth (leapOf y) (m - 1) + d - 1.
Proof.
  unfold DayWithinYear. rewrite YearFromTime_civil.
  unfold t. rewrite Day_MakeDate by exact timeRange.
  destruct (MakeDay_within y m d valid) as [E R]. lia.
Qed.

Lemma InLeapYear_civil : InLeapYear t = leapOf y.
Proof. unfold InLeapYear. rewrite YearFromTime_civil. reflexivity. Qed.

Lemma MonthFromTime_civil : MonthFromTime t = m - 1.
Proof.
  unfold MonthFromTime. rewrite DayWithinYear_civil, InLeapYear_civil.
  pose proof (validCivil_range y m d valid) as [Rm Rd].
  pose proof (leapOf_range y) as L.
  unfold daysBeforeMonth, daysInMonth in *.
  unfold MonthFromTime; prune_eqb; simpl in *; prune_ltb.
Qed.

Lemma DateFromTime_civil : DateFromTime t = d.
Proof.
  unfold DateFromTime.
  rewrite MonthFromTime_civil, DayWithinYear_civil, InLeapYear_civil. lia.
Qed.

End Civil.

Lemma MonthFromTime_range t : 0 <= MonthFromTime t <= 11.
Proof. unfold MonthFromTime. case_ltb; lia. Qed.

(** Every day is a civil date. *)
Lemma civil_of_time t :
  let y := YearFromTime t in
  let mo := MonthFromTime t in
  let dt := DateFromTime t in
  validCivil y (mo + 1) dt = true /\ MakeDay y mo dt = Day t.
Proof.
  intros y mo dt.
  pose proof (yearFromDay_spec (Day t)) as S. fold (YearFromTime t) in S. fold y in S.
  rewrite DayFromYear_succ, DaysInYear_leapOf in S.
  assert (W : 0 <= DayWithinYear t < 365 + leapOf y).
  { unfold DayWithinYear. fold y. lia. }
  assert (L : InLeapYear t = leapOf y) by reflexivity.
  pose proof (leapOf_range y) as Lr.
  pose proof (MonthFromTime_range t) as Mr. fold mo in Mr.
  unfold validCivil, MakeDay, daysInMonth.
  rewrite (Z.mod_small mo 12), (Z.div_small mo 12), Z.add_0_r by lia.
  assert (Dy : Day t = DayFromYear y + DayWithinYear t)
    by (unfold DayWithinYear; fold y; lia).
  rewrite Dy. clear Dy S Mr.
  unfold dt, DateFromTime, mo, MonthFromTime. rewrite L. clear L.
  generalize dependent (DayWithinYear t). intros w W.
  generalize dependent (leapOf y). intros l Lr W.
  case_ltb; unfold daysBeforeMonth; simpl;
    (split; [rewrite !andb_true_iff, !Z.leb_le; lia|lia]).
Qed.

End CalendarFacts.

Module IsoFacts.
Import JsString DigitFacts Date CalendarFacts.

Lemma substring_prefix s r : substring 0 (String.length s) (s ++ r) = s.
Proof.
  induction s as [|c s IH]; simpl.
  - destruct r; reflexivity.
  - rewrite IH. reflexivity.
Qed.

Lemma length_isoDate y m d : String.length (isoDate y m d) = 10%nat.
Proof.
  unfold isoDate. rewrite !length_append, !length_padDigits. reflexivity.
Qed.

Lemma isoDate_nonempty y m d : String.eqb (isoDate y m d) "" = false.
Proof.
  destruct (String.eqb (isoDate y m d) "") eqn:E; [|reflexivity].
  apply String.eqb_eq in E. pose proof (length_isoDate y m d) as L.
  rewrite E in L. discriminate.
Qed.

Lemma splitAux_dash cur s :
  splitAux "-" cur ("-" ++ s) = cur :: splitAux "-" "" s.
Proof. reflexivity. Qed.

Lemma append_nil_r (s : string) : (s ++ "")%string = s.
Proof. induction s; simpl; congruence. Qed.

Lemma split_isoDate y m d :
  0 <= y -> 0 <= m -> 0 <= d ->
  split "-" (isoDate y m d) = [padDigits 4 y; padDigits 2 m; padDigits 2 d].
Proof.
  intros Ry Rm Rd. unfold split, isoDate.
  rewrite splitAux_padDigits, splitAux_dash by exact Ry.
  rewrite splitAux_padDigits, splitAux_dash by exact Rm.
  rewrite <- (append_nil_r (padDigits 2 d)) at 1.
  rewrite splitAux_padDigits by exact Rd. reflexivity.
Qed.

Lemma numbers_isoDate y m d :
  0 <= y <= 9999 -> 0 <= m <= 99 -> 0 <= d <= 99 ->
  numbers (split "-" (isoDate y m d)) = Some [Integer y; Integer m; Integer d].
Proof.
  intros Ry Rm Rd. rewrite split_isoDate by lia. unfold numbers.
  rewrite (toNumber_padDigits 4), !(toNumber_padDigits 2) by (simpl; lia).
  reflexivity.
Qed.

End IsoFacts.

Section LocalDates.
Context `{Browser}.
(* In this section the zone keeps its standard offset all year. *)
#[local] Existing Instance noDaylight.
Import Date CalendarFacts IsoFacts.
Hypothesis zone : usualTimeZone.

Lemma TimeClip_some t : Z.abs t <= 8640000000000000 -> TimeClip t = Some t.
Proof. intros B. unfold TimeClip. destruct (Z.leb_spec (Z.abs t) 8640000000000000); [reflexivity|lia]. Qed.

(** Without daylight saving the two conversions shift by the standard
    offset. *)
Lemma LocalTime_fixed t : LocalTime t = t - tzOffsetMinutes * msPerMinute.
Proof. unfold LocalTime. simpl. lia. Qed.

Lemma UTC_fixed t : UTC t = t + tzOffsetMinutes * msPerMinute.
Proof. unfold UTC. simpl. lia. Qed.

Lemma TimeClip_local n time :
  inCalendar n -> 0 <= time < msPerDay ->
  TimeClip (UTC (MakeDate n time)) = Some (UTC (MakeDate n time)).
Proof.
  intros C R. apply TimeClip_some. rewrite UTC_fixed.
  unfold MakeDate, msPerDay, msPerMinute, inCalendar, usualTimeZone in *. lia.
Qed.

Lemma LocalTime_UTC t : LocalTime (UTC t) = t.
Proof. rewrite LocalTime_fixed, UTC_fixed. lia. Qed.

Lemma TimeWithinDay_range t : 0 <= TimeWithinDay t < msPerDay.
Proof. unfold TimeWithinDay, msPerDay. apply Z.mod_pos_bound. lia. Qed.

Lemma dayNumber_range y m d :
  validCivil y m d = true -> 0 <= y <= 9999 ->
  DayFromYear 0 <= dayNumber y m d < DayFromYear 10000.
Proof.
  intros V R. destruct (MakeDay_within y m d V) as [E W].
  unfold dayNumber. rewrite E.
  assert (DayFromYear 0 <= DayFromYear y).
  { unfold DayFromYear. Z.div_mod_to_equations. lia. }
  assert (DayFromYear (y + 1) <= DayFromYear 10000).
  { unfold DayFromYear. Z.div_mod_to_equations. lia. }
  rewrite DayFromYear_succ in *. lia.
Qed.

Lemma DayFromYear_0 : DayFromYear 0 = -719528.
Proof. reflexivity. Qed.

Lemma DayFromYear_10000 : DayFromYear 10000 = 2932897.
Proof. reflexivity. Qed.

Lemma parseISOToLocalDate_isoDate now y m d :
  validCivil y m d = true -> 0 <= y <= 9999 ->
  parseISOToLocalDate now (isoDate y m d) = Some (Some (localMidnight (dayNumber y m d))).
Proof.
  intros V Ry.
  pose proof (validCivil_range y m d V) as [Rm Rd].
  assert (Rd' : d <= 31).
  { unfold daysInMonth in Rd. pose proof (leapOf_range y).
    destruct (m =? 2); [lia|]. destruct ((m =? 4) || (m =? 6) || (m =? 9) || (m =? 11)); lia. }
  pose proof (dayNumber_range y m d V Ry) as Rn.
  rewrite DayFromYear_0, DayFromYear_10000 in Rn.
  unfold parseISOToLocalDate.
  rewrite isoDate_nonempty. rewrite numbers_isoDate; [|lia..].
  cbv [partOr1 nth_error nth].
  rewrite (proj2 (Z.eqb_neq m 0)), (proj2 (Z.eqb_neq d 0)) by lia.
  unfold setFullYear, localMidnight, dayNumber in *.
  rewrite TimeClip_local
    by (try apply TimeWithinDay_range; unfold inCalendar; lia).
  unfold setHours. rewrite LocalTime_UTC, Day_MakeDate by apply TimeWithinDay_range.
  change (MakeTime 0 0 0 0) with 0.
  rewrite TimeClip_local by (unfold inCalendar, msPerDay; lia).
  reflexivity.
Qed.

Lemma LocalTime_localMidnight n : LocalTime (localMidnight n) = n * msPerDay.
Proof. unfold localMidnight. rewrite LocalTime_UTC. unfold MakeDate. lia. Qed.

Lemma Day_midnight n : Day (n * msPerDay) = n.
Proof. unfold Day, msPerDay. Z.div_mod_to_equations. lia. Qed.

Lemma TimeWithinDay_midnight n : TimeWithinDay (n * msPerDay) = 0.
Proof. unfold TimeWithinDay, msPerDay. Z.div_mod_to_equations. lia. Qed.

Lemma getDay_localMidnight n : getDay (localMidnight n) = (n + 4) mod 7.
Proof. unfold getDay, WeekDay. rewrite LocalTime_localMidnight, Day_midnight. reflexivity. Qed.

Lemma MakeDay_add y mo dt delta : MakeDay y mo (dt + delta) = MakeDay y mo dt + delta.
Proof. unfold MakeDay. lia. Qed.

Lemma MakeDay_of_time t :
  MakeDay (YearFromTime t) (MonthFromTime t) (DateFromTime t) = Day t.
Proof. exact (proj2 (civil_of_time t)). Qed.

(** [d.setDate(d.getDate() + delta)] moves local midnight by [delta] days. *)
Lemma setDate_localMidnight n delta :
  inCalendar (n + delta) ->
  setDate (localMidnight n) (getDate (localMidnight n) + delta)
  = Some (localMidnight (n + delta)).
Proof.
  intros C. unfold setDate, getDate. rewrite LocalTime_localMidnight.
  rewrite MakeDay_add, MakeDay_of_time, Day_midnight, TimeWithinDay_midnight.
  apply TimeClip_local; [exact C|unfold msPerDay; lia].
Qed.

Lemma HourFromTime_midnight n : HourFromTime (n * msPerDay) = 0.
Proof.
  unfold HourFromTime, msPerDay, msPerHour.
  replace (n * 86400000) with (n * 24 * 3600000) by lia.
  rewrite Z.div_mul by lia. apply Z.mod_mul. lia.
Qed.

Lemma MinFromTime_midnight n : MinFromTime (n * msPerDay) = 0.
Proof.
  unfold MinFromTime, msPerDay, msPerMinute.
  replace (n * 86400000) with (n * 1440 * 60000) by lia.
  rewrite Z.div_mul by lia.
  replace (n * 1440) with (n * 24 * 60) by lia. apply Z.mod_mul. lia.
Qed.

Lemma SecFromTime_midnight n : SecFromTime (n * msPerDay) = 0.
Proof.
  unfold SecFromTime, msPerDay, msPerSecond.
  replace (n * 86400000) with (n * 86400 * 1000) by lia.
  rewrite Z.div_mul by lia.
  replace (n * 86400) with (n * 1440 * 60) by lia. apply Z.mod_mul. lia.
Qed.

Lemma msFromTime_midnight n : msFromTime (n * msPerDay) = 0.
Proof.
  unfold msFromTime, msPerDay, msPerSecond.
  replace (n * 86400000) with (n * 86400 * 1000) by lia. apply Z.mod_mul. lia.
Qed.

Lemma getTimezoneOffset_localMidnight n :
  getTimezoneOffset (localMidnight n) = tzOffsetMinutes.
Proof.
  unfold getTimezoneOffset. rewrite LocalTime_localMidnight.
  unfold localMidnight. rewrite UTC_fixed. unfold MakeDate.
  replace (n * msPerDay + 0 + tzOffsetMinutes * msPerMinute - n * msPerDay)
    with (tzOffsetMinutes * msPerMinute) by lia.
  apply Z.div_mul. unfold msPerMinute. lia.
Qed.

Lemma toISODateLocal_localMidnight n :
  inCalendar n ->
  toISODateLocal (localMidnight n)
  = Some (JsString.slice0 10 (toISOString (n * msPerDay))).
Proof.
  intros C. unfold toISODateLocal. rewrite getTimezoneOffset_localMidnight.
  unfold setMinutes, getMinutes.
  rewrite LocalTime_localMidnight, Day_midnight, HourFromTime_midnight,
    MinFromTime_midnight, SecFromTime_midnight, msFromTime_midnight.
  assert (E : UTC (MakeDate n (MakeTime 0 (0 - tzOffsetMinutes) 0 0)) = n * msPerDay).
  { rewrite UTC_fixed. unfold MakeDate, MakeTime. lia. }
  rewrite E. rewrite TimeClip_some; [reflexivity|].
  unfold inCalendar, msPerDay in *. lia.
Qed.

End LocalDates.

Module OrderFacts.
Import JsString DigitFacts Date CalendarFacts IsoFacts.

Lemma substring_prefix_length s r n :
  String.length s = n -> substring 0 n (s ++ r) = s.
Proof. intros <-. apply substring_prefix. Qed.

(** The first ten characters of [toISOString] in a four-digit year. *)
Lemma slice_toISOString t :
  0 <= YearFromTime t <= 9999 ->
  slice0 10 (toISOString t)
  = isoDate (YearFromTime t) (MonthFromTime t + 1) (DateFromTime t).
Proof.
  intros R. unfold slice0, toISOString, yearString.
  destruct (Z.leb_spec 0 (YearFromTime t)); [|lia].
  destruct (Z.leb_spec (YearFromTime t) 9999); [|lia]. cbn [andb].
  set (rest := ("T" ++ _)%string).
  replace (padDigits 4 (YearFromTime t) ++ "-" ++ padDigits 2 (MonthFromTime t + 1)
           ++ "-" ++ padDigits 2 (DateFromTime t) ++ rest)%string
    with (isoDate (YearFromTime t) (MonthFromTime t + 1) (DateFromTime t) ++ rest)%string.
  - apply substring_prefix_length, length_isoDate.
  - unfold isoDate. rewrite !append_assoc. reflexivity.
Qed.

Lemma yearFromDay_calendar n :
  DayFromYear 0 <= n < DayFromYear 10000 -> 0 <= yearFromDay n <= 9999.
Proof.
  intros R. pose proof (yearFromDay_spec n) as S.
  split.
  - destruct (Z.lt_ge_cases (yearFromDay n) 0) as [L|G]; [|exact G].
    pose proof (DayFromYear_lt _ _ L). lia.
  - destruct (Z.lt_ge_cases 9999 (yearFromDay n)) as [L|G]; [|lia].
    pose proof (DayFromYear_lt 9999 (yearFromDay n) L) as M.
    change (9999 + 1) with 10000 in M. lia.
Qed.

Lemma isoOfDay_slice n :
  DayFromYear 0 <= n < DayFromYear 10000 ->
  slice0 10 (toISOString (n * msPerDay)) = isoOfDay n.
Proof.
  intros R. rewrite slice_toISOString; [reflexivity|].
  unfold YearFromTime. rewrite (Day_midnight n). apply yearFromDay_calendar. exact R.
Qed.

(** The civil date of a day number, and back. *)
Lemma civilOfDay_valid n :
  let '(y, m, d) := civilOfDay n in
  validCivil y m d = true /\ dayNumber y m d = n.
Proof.
  unfold civilOfDay, dayNumber.
  destruct (civil_of_time (n * msPerDay)) as [V E].
  rewrite Day_midnight in E. split; [exact V|].
  rewrite Z.add_simpl_r. exact E.
Qed.

Lemma civilOfDay_dayNumber y m d :
  validCivil y m d = true -> civilOfDay (dayNumber y m d) = (y, m, d).
Proof.
  intros V. unfold civilOfDay, dayNumber.
  assert (T : MakeDay y (m - 1) d * msPerDay = MakeDate (MakeDay y (m - 1) d) 0)
    by (unfold MakeDate; lia).
  rewrite T.
  assert (Z0 : 0 <= 0 < msPerDay) by (unfold msPerDay; lia).
  rewrite (YearFromTime_civil y m d 0 V Z0), (MonthFromTime_civil y m d 0 V Z0),
    (DateFromTime_civil y m d 0 V Z0).
  f_equal. f_equal. lia.
Qed.

Lemma isoOfDay_dayNumber y m d :
  validCivil y m d = true -> isoOfDay (dayNumber y m d) = isoDate y m d.
Proof. intros V. unfold isoOfDay. rewrite civilOfDay_dayNumber by exact V. reflexivity. Qed.

(** Order of the date strings. *)
Lemma compare_dash s t : String.compare ("-" ++ s) ("-" ++ t) = String.compare s t.
Proof. reflexivity. Qed.

Lemma le_isoDate y1 m1 d1 y2 m2 d2 :
  0 <= y1 <= 9999 -> 0 <= m1 <= 99 -> 0 <= d1 <= 99 ->
  0 <= y2 <= 9999 -> 0 <= m2 <= 99 -> 0 <= d2 <= 99 ->
  (JsString.le (isoDate y1 m1 d1) (isoDate y2 m2 d2) = true
   <-> keyLe (y1, m1, d1) (y2, m2, d2)).
Proof.
  intros Ry1 Rm1 Rd1 Ry2 Rm2 Rd2. unfold JsString.le, String.leb, isoDate, keyLe.
  rewrite (compare_padDigits 4), compare_dash by (simpl; lia).
  rewrite (compare_padDigits 2), compare_dash by (simpl; lia).
  rewrite <- (append_nil_r (padDigits 2 d1)), <- (append_nil_r (padDigits 2 d2)).
  rewrite (compare_padDigits 2) by (simpl; lia).
  cbn [fst snd String.compare].
  destruct (Z.compare_spec y1 y2); [|split; [lia|reflexivity]|split; [discriminate|lia]].
  destruct (Z.compare_spec m1 m2); [|split; [lia|reflexivity]|split; [discriminate|lia]].
  destruct (Z.compare_spec d1 d2); [split; [lia|reflexivity]|split; [lia|reflexivity]|].
  split; [discriminate|lia].
Qed.

End OrderFacts.

Module MonotoneFacts.
Import JsString DigitFacts Date CalendarFacts IsoFacts OrderFacts.

Lemma months_before y ma mb :
  1 <= ma -> ma < mb -> mb <= 12 ->
  daysBeforeMonth (leapOf y) (ma - 1) + daysInMonth y ma
  <= daysBeforeMonth (leapOf y) (mb - 1).
Proof.
  intros A B C. pose proof (leapOf_range y) as L.
  unfold daysBeforeMonth, daysInMonth.
  destruct (month_cases ma ltac:(lia))
    as [->|[->|[->|[->|[->|[->|[->|[->|[->|[->|[->| ->]]]]]]]]]]];
    cbn [Z.eqb Z.sub Z.add Z.opp Z.pos_sub Pos.eqb orb Pos.pred_double Z.succ_double
         Z.pred_double Z.double];
    prune_eqb.
Qed.

Lemma dayNumber_lt y1 m1 d1 y2 m2 d2 :
  validCivil y1 m1 d1 = true -> validCivil y2 m2 d2 = true ->
  y1 < y2 \/ (y1 = y2 /\ (m1 < m2 \/ (m1 = m2 /\ d1 < d2))) ->
  dayNumber y1 m1 d1 < dayNumber y2 m2 d2.
Proof.
  intros V1 V2 L. unfold dayNumber.
  destruct (MakeDay_within _ _ _ V1) as [E1 W1].
  destruct (MakeDay_within _ _ _ V2) as [E2 W2].
  pose proof (validCivil_range _ _ _ V1) as [Rm1 Rd1].
  pose proof (validCivil_range _ _ _ V2) as [Rm2 Rd2].
  rewrite E1, E2. destruct L as [L|[-> [L|[-> L]]]].
  - pose proof (DayFromYear_lt _ _ L) as M. rewrite DayFromYear_succ in M. lia.
  - pose proof (months_before y2 m1 m2 ltac:(lia) L ltac:(lia)). lia.
  - lia.
Qed.

Lemma dayNumber_le_iff y1 m1 d1 y2 m2 d2 :
  validCivil y1 m1 d1 = true -> validCivil y2 m2 d2 = true ->
  (keyLe (y1, m1, d1) (y2, m2, d2) <-> dayNumber y1 m1 d1 <= dayNumber y2 m2 d2).
Proof.
  intros V1 V2. unfold keyLe. cbn [fst snd]. split.
  - intros L.
    destruct (Z.eq_dec y1 y2) as [->|Ny];
      [destruct (Z.eq_dec m1 m2) as [->|Nm];
       [destruct (Z.eq_dec d1 d2) as [->|Nd]; [lia|]|]|];
      apply Z.lt_le_incl, dayNumber_lt; try assumption; lia.
  - intros L.
    destruct (Z.lt_trichotomy y1 y2) as [?|[->|G]]; [lia| |].
    + destruct (Z.lt_trichotomy m1 m2) as [?|[->|G]]; [lia| |].
      * destruct (Z.le_gt_cases d1 d2) as [?|G]; [lia|].
        pose proof (dayNumber_lt y2 m2 d2 y2 m2 d1 V2 V1 ltac:(lia)). lia.
      * pose proof (dayNumber_lt y2 m2 d2 y2 m1 d1 V2 V1 ltac:(lia)). lia.
    + pose proof (dayNumber_lt y2 m2 d2 y1 m1 d1 V2 V1 ltac:(lia)). lia.
Qed.

(** A valid date of the calendar years has two-digit parts. *)
Lemma validCivil_digits y m d :
  validCivil y m d = true -> 0 <= m <= 99 /\ 0 <= d <= 99.
Proof.
  intros V. pose proof (validCivil_range y m d V) as [Rm Rd].
  unfold daysInMonth in Rd. pose proof (leapOf_range y).
  destruct (m =? 2); [lia|].
  destruct ((m =? 4) || (m =? 6) || (m =? 9) || (m =? 11)); lia.
Qed.

Lemma calendar_year y m d :
  validCivil y m d = true ->
  DayFromYear 0 <= dayNumber y m d < DayFromYear 10000 -> 0 <= y <= 9999.
Proof.
  intros V R. destruct (MakeDay_within y m d V) as [E W].
  assert (Y : yearFromDay (dayNumber y m d) = y).
  { apply yearFromDay_unique. unfold dayNumber. rewrite DayFromYear_succ. lia. }
  rewrite <- Y. apply yearFromDay_calendar. exact R.
Qed.

(** String order of the stored dates is the order of the days. *)
Lemma le_isoOfDay a b :
  DayFromYear 0 <= a < DayFromYear 10000 ->
  DayFromYear 0 <= b < DayFromYear 10000 ->
  (JsString.le (isoOfDay a) (isoOfDay b) = true <-> a <= b).
Proof.
  intros Ra Rb. unfold isoOfDay.
  pose proof (civilOfDay_valid a) as Ca. pose proof (civilOfDay_valid b) as Cb.
  destruct (civilOfDay a) as [[ya ma] da], (civilOfDay b) as [[yb mb] db].
  destruct Ca as [Va Ea], Cb as [Vb Eb].
  pose proof (validCivil_digits _ _ _ Va) as [? ?].
  pose proof (validCivil_digits _ _ _ Vb) as [? ?].
  rewrite <- Ea in Ra. rewrite <- Eb in Rb.
  pose proof (calendar_year _ _ _ Va Ra). pose proof (calendar_year _ _ _ Vb Rb).
  rewrite le_isoDate by assumption.
  rewrite dayNumber_le_iff by assumption. rewrite Ea, Eb. reflexivity.
Qed.

End MonotoneFacts.

Section WeekRange.
Context `{Browser}.
(* In this section the zone keeps its standard offset all year. *)
#[local] Existing Instance noDaylight.
Import JsString DigitFacts Date CalendarFacts IsoFacts OrderFacts MonotoneFacts.

Lemma mondayOf_spec n :
  mondayOf n <= n <= mondayOf n + 6
  /\ WeekDay (mondayOf n * msPerDay) = 1
  /\ WeekDay ((mondayOf n + 6) * msPerDay) = 0.
Proof.
  unfold WeekDay. rewrite !Day_midnight. unfold mondayOf.
  Z.div_mod_to_equations. lia.
Qed.

Lemma mondayOf_calendar n :
  firstMonday <= n <= lastSunday ->
  firstMonday <= mondayOf n /\ mondayOf n + 6 <= lastSunday.
Proof.
  change firstMonday with (-719526). change lastSunday with 2932891.
  unfold mondayOf. intros R. Z.div_mod_to_equations. lia.
Qed.

Lemma getWeekRangeISO_from_midnight now iso n :
  usualTimeZone ->
  firstMonday <= n <= lastSunday ->
  parseISOToLocalDate now iso = Some (Some (localMidnight n)) ->
  getWeekRangeISO now iso
  = Some {| start := isoOfDay (mondayOf n); end_ := isoOfDay (mondayOf n + 6) |}.
Proof.
  intros zone R P.
  pose proof (mondayOf_calendar n R) as [M1 M2].
  pose proof (mondayOf_spec n) as [M3 _].
  revert R M1 M2. change firstMonday with (-719526). change lastSunday with 2932891.
  intros R M1 M2.
  unfold getWeekRangeISO. rewrite P, getDay_localMidnight.
  assert (D : n + (if (n + 4) mod 7 =? 0 then -6 else 1 - (n + 4) mod 7) = mondayOf n).
  { unfold mondayOf. destruct (Z.eqb_spec ((n + 4) mod 7) 0);
      Z.div_mod_to_equations; lia. }
  rewrite (setDate_localMidnight zone) by (rewrite D; unfold inCalendar; lia).
  rewrite D.
  rewrite (setDate_localMidnight zone) by (unfold inCalendar; lia).
  rewrite !toISODateLocal_localMidnight by (unfold inCalendar; lia).
  rewrite !isoOfDay_slice by (rewrite DayFromYear_0, DayFromYear_10000; lia).
  reflexivity.
Qed.

Lemma getWeekRangeISO_isoDate now y m d :
  usualTimeZone ->
  validCivil y m d = true ->
  firstMonday <= dayNumber y m d <= lastSunday ->
  getWeekRangeISO now (isoDate y m d)
  = Some {| start := isoOfDay (mondayOf (dayNumber y m d));
            end_ := isoOfDay (mondayOf (dayNumber y m d) + 6) |}.
Proof.
  intros zone V R. apply getWeekRangeISO_from_midnight; [exact zone|exact R|].
  apply (parseISOToLocalDate_isoDate zone); [exact V|].
  apply (calendar_year y m d V). rewrite DayFromYear_0, DayFromYear_10000.
  revert R. change firstMonday with (-719526). change lastSunday with 2932891. lia.
Qed.

(** X29.  The week range at a fixed offset.  In a time zone without daylight
saving whose offset is at most a
day, for every valid calendar date from 0000-01-03 to 9999-12-26 (the
dates whose week lies within the four-digit years), given as
[YYYY-MM-DD], the week range starts on the Monday on or before the date
and ends on the Sunday six days later: the date lies between the two
days, as days and as strings, both ends included; every day of the span
is written as the [YYYY-MM-DD] of a valid date; and the result does not
depend on the instant of the call.  In particular the ranges of
2024-01-01 (a Monday) and of 2024-01-07 (a Sunday) are both 2024-01-01
to 2024-01-07. *)
Theorem getWeekRangeISO_span now :
  usualTimeZone ->
  (forall y m d,
      validCivil y m d = true ->
      firstMonday <= dayNumber y m d <= lastSunday ->
      let n := dayNumber y m d in
      getWeekRangeISO now (isoDate y m d)
      = Some {| start := isoOfDay (mondayOf n); end_ := isoOfDay (mondayOf n + 6) |}
      /\ mondayOf n <= n <= mondayOf n + 6
      /\ WeekDay (mondayOf n * msPerDay) = 1
      /\ WeekDay ((mondayOf n + 6) * msPerDay) = 0
      /\ (forall k, mondayOf n <= k <= mondayOf n + 6 ->
                    exists y' m' d',
                      isoOfDay k = isoDate y' m' d' /\ validCivil y' m' d' = true
                      /\ 0 <= y' <= 9999 /\ dayNumber y' m' d' = k)
      /\ JsString.le (isoOfDay (mondayOf n)) (isoDate y m d) = true
      /\ JsString.le (isoDate y m d) (isoOfDay (mondayOf n + 6)) = true)
  /\ getWeekRangeISO now "2024-01-01"
     = Some {| start := "2024-01-01"; end_ := "2024-01-07" |}
  /\ getWeekRangeISO now "2024-01-07"
     = Some {| start := "2024-01-01"; end_ := "2024-01-07" |}.
Proof.
  intros zone.
  pose proof (fun y m d => getWeekRangeISO_isoDate now y m d zone) as G.
  split; [|split].
  - intros y m d V R n.
    pose proof (mondayOf_spec n) as (S1 & S2 & S3).
    pose proof (mondayOf_calendar n R) as [M1 M2].
    assert (C : forall k, mondayOf n <= k <= mondayOf n + 6 ->
                          DayFromYear 0 <= k < DayFromYear 10000).
    { intros k Rk. rewrite DayFromYear_0, DayFromYear_10000.
      revert M1 M2. change firstMonday with (-719526).
      change lastSunday with 2932891. lia. }
    split; [apply G; assumption|]. split; [exact S1|]. split; [exact S2|].
    split; [exact S3|]. split; [|split].
    + intros k Rk. pose proof (civilOfDay_valid k) as Cv. unfold isoOfDay.
      destruct (civilOfDay k) as [[y' m'] d']. destruct Cv as [V' E'].
      exists y', m', d'. split; [reflexivity|]. split; [exact V'|].
      split; [|exact E']. apply (calendar_year y' m' d' V'). rewrite E'. apply C, Rk.
    + rewrite <- (isoOfDay_dayNumber y m d V). fold n.
      apply le_isoOfDay; [apply C; lia|apply C; lia|lia].
    + rewrite <- (isoOfDay_dayNumber y m d V). fold n.
      apply le_isoOfDay; [apply C; lia|apply C; lia|lia].
  - exact (G 2024 1 1 eq_refl ltac:(vm_compute; split; discriminate)).
  - exact (G 2024 1 7 eq_refl ltac:(vm_compute; split; discriminate)).
Qed.

End WeekRange.

(** The week of Friday 2024-03-01. *)
Lemma getWeekRangeISO_span_witness :
  @getWeekRangeISO legacyHost noDaylight 0 "2024-03-01"
  = Some {| start := "2024-02-26"; end_ := "2024-03-03" |}.
Proof.
  assert (zone : @usualTimeZone legacyHost) by (unfold usualTimeZone; simpl; lia).
  exact (proj1 (proj1 (@getWeekRangeISO_span legacyHost 0 zone) 2024 3 1 eq_refl
                  ltac:(vm_compute; split; discriminate))).
Defined.

(** The end of the four-digit years: 9999-12-31 is a valid date, a
Friday; the Sunday of its week is in the year 10000, which [toISOString]
writes with a sign and six digits, so the end of the range is the ten
characters "+010000-01": not a [YYYY-MM-DD] date, and in the order of
strings the date itself is not within the range. *)
Lemma getWeekRangeISO_year_9999 :
  Date.validCivil 9999 12 31 = true
  /\ isoDate 9999 12 31 = "9999-12-31"
  /\ @getWeekRangeISO legacyHost noDaylight 0 "9999-12-31"
     = Some {| start := "9999-12-27"; end_ := "+010000-01" |}
  /\ Date.parseDateOnly "+010000-01" = None
  /\ JsString.le "9999-12-31" "+010000-01" = false.
Proof. repeat split. Qed.

(** C4 at the failing input.  In Australia/Sydney the clocks go forward
at 02:00 on Sunday 2024-10-06.  On the Thursday before, the week range of
that Sunday, a valid date and the last day of the week that starts on
Monday 2024-09-30, is computed as follows: [parseISOToLocalDate] gives
local midnight of the Sunday, 2024-10-05T14:00:00.000Z, ten hours ahead
of UTC; the Monday is six days earlier and the Sunday six days after it,
the same instant again; in [toISODateLocal] [getTimezoneOffset()] is
-600 there, [setMinutes(0 + 600)] sets the local time 10:00 of the
Sunday, which lies after the change and is eleven hours ahead of UTC, so
the time value is 2024-10-05T23:00:00.000Z and the first ten characters
of [toISOString()] are the Saturday.  The range of the Sunday, and of
every day of its week, ends on 2024-10-05; the Sunday is not within its
own week.  The same host without the clock change returns the week
2024-09-30 to 2024-10-06, and the ranges of 2024-01-01 and 2024-01-07,
far from a change, are as the specification has them. *)
Theorem getWeekRangeISO_daylight_saving :
  let sunday := 1728136800000 in
  Date.toISOString thursday = "2024-10-03T01:00:00.000Z"
  /\ Date.validCivil 2024 10 6 = true
  /\ isoDate 2024 10 6 = "2024-10-06"
  /\ Date.WeekDay (dayNumber 2024 10 6 * Date.msPerDay) = 0
  /\ isoOfDay (mondayOf (dayNumber 2024 10 6)) = "2024-09-30"
  /\ isoOfDay (mondayOf (dayNumber 2024 10 6) + 6) = "2024-10-06"
  /\ @parseISOToLocalDate sydneyHost sydneyDaylight thursday "2024-10-06"
     = Some (Some sunday)
  /\ Date.toISOString sunday = "2024-10-05T14:00:00.000Z"
  /\ @Date.getTimezoneOffset sydneyHost sydneyDaylight sunday = -600
  /\ @Date.setMinutes sydneyHost sydneyDaylight sunday (0 - -600)
     = Some 1728169200000
  /\ Date.toISOString 1728169200000 = "2024-10-05T23:00:00.000Z"
  /\ @toISODateLocal sydneyHost sydneyDaylight sunday = Some "2024-10-05"
  /\ @getWeekRangeISO sydneyHost sydneyDaylight thursday "2024-10-06"
     = Some {| start := "2024-09-30"; end_ := "2024-10-05" |}
  /\ @getWeekRangeISO sydneyHost sydneyDaylight thursday "2024-09-30"
     = Some {| start := "2024-09-30"; end_ := "2024-10-05" |}
  /\ JsString.le "2024-10-06" "2024-10-05" = false
  /\ @getWeekRangeISO sydneyHost noDaylight thursday "2024-10-06"
     = Some {| start := "2024-09-30"; end_ := "2024-10-06" |}
  /\ @getWeekRangeISO sydneyHost sydneyDaylight thursday "2024-01-01"
     = Some {| start := "2024-01-01"; end_ := "2024-01-07" |}
  /\ @getWeekRangeISO sydneyHost sydneyDaylight thursday "2024-01-07"
     = Some {| start := "2024-01-01"; end_ := "2024-01-07" |}.
Proof. vm_compute. repeat split. Qed.

Section IsoParse.
Context `{Browser} `{Daylight}.
Import JsString DigitFacts Date CalendarFacts IsoFacts OrderFacts MonotoneFacts.

Lemma iso_parts (a b c : string) :
  String.length a = 4%nat -> String.length b = 2%nat -> String.length c = 2%nat ->
  let s := (a ++ "-" ++ b ++ "-" ++ c)%string in
  String.length s = 10%nat
  /\ substring 0 4 s = a /\ charAt 4 s = "-" /\ substring 5 2 s = b
  /\ charAt 7 s = "-" /\ substring 8 2 s = c.
Proof.
  destruct a as [|a1 [|a2 [|a3 [|a4 [|]]]]]; try discriminate.
  destruct b as [|b1 [|b2 [|]]]; try discriminate.
  destruct c as [|c1 [|c2 [|]]]; try discriminate.
  intros _ _ _. repeat split.
Qed.

Lemma parseDateOnly_isoDate y m d :
  validCivil y m d = true -> 0 <= y <= 9999 ->
  parseDateOnly (isoDate y m d) = Some (dayNumber y m d * msPerDay).
Proof.
  intros V Ry. pose proof (validCivil_digits y m d V) as [Rm Rd].
  destruct (iso_parts (padDigits 4 y) (padDigits 2 m) (padDigits 2 d))
    as (L & P1 & P2 & P3 & P4 & P5); try apply length_padDigits.
  unfold parseDateOnly. fold (isoDate y m d) in *.
  rewrite L, P1, P2, P3, P4, P5.
  rewrite (decimal_padDigits 4), !(decimal_padDigits 2) by (simpl; lia).
  cbn [Nat.eqb String.eqb Ascii.eqb Bool.eqb andb]. rewrite V.
  unfold dayNumber, MakeDate. f_equal. lia.
Qed.

(** A stored [YYYY-MM-DD] date reads as UTC midnight of its day. *)
Lemma getTime_isoDate y m d :
  validCivil y m d = true -> 0 <= y <= 9999 ->
  getTime (isoDate y m d) = Some (dayNumber y m d * msPerDay).
Proof.
  intros V Ry. unfold getTime, parse.
  rewrite (parseDateOnly_isoDate y m d V Ry). reflexivity.
Qed.

Lemma dueDate_isoDate t y m d :
  dueAt t = Some (isoDate y m d) ->
  validCivil y m d = true -> 0 <= y <= 9999 ->
  dueDate t = Some (dayNumber y m d * msPerDay).
Proof.
  intros D V Ry. unfold dueDate, hasDue, dueString. rewrite D.
  rewrite isoDate_nonempty. simpl. apply getTime_isoDate; assumption.
Qed.

End IsoParse.

(* ===================================================================== *)
(** * View engine: the agenda window *)
(* ===================================================================== *)

Section Agenda.
Context `{Browser}.
(* In this section the zone keeps its standard offset all year. *)
#[local] Existing Instance noDaylight.
Import JsString DigitFacts Date CalendarFacts IsoFacts OrderFacts MonotoneFacts.

Lemma sortTasks_perm key l : Permutation l (sortTasks key l).
Proof.
  unfold sortTasks.
  destruct (String.eqb key "dueAt"); [apply sort_perm|].
  destruct (String.eqb key "priority"); apply sort_perm.
Qed.


Lemma in_sorted_filter key (p : Task -> bool) l t :
  In t (sortTasks key (List.filter p l)) <-> In t l /\ p t = true.
Proof.
  rewrite <- filter_In. split; apply Permutation_in;
    [symmetry|]; apply sortTasks_perm.
Qed.






End Agenda.


(** C3 at the failing input.  In Australia/Sydney, on the Thursday before
the clocks go forward, Carol has one task, due on Sunday 2024-10-06, the
filter is [all] and the agenda is anchored on that Sunday.  The Sunday
lies within the Monday-to-Sunday week of the anchor, 2024-09-30 to
2024-10-06, so the specification has the task visible under the scope
[week];
the script computes the range 2024-09-30 to 2024-10-05 and shows
nothing.  Under the scope [day] the task is shown, and on the same host
without the clock change it is shown under [week] as well. *)
Theorem getVisibleTasks_week_daylight_saving :
  tasks (sundayApp "week") = [sundayTask]
  /\ currentFilter (sundayApp "week") = "all"
  /\ agendaDate (sundayApp "week") = isoDate 2024 10 6
  /\ dueAt sundayTask = Some (isoDate 2024 10 6)
  /\ mondayOf (dayNumber 2024 10 6) <= dayNumber 2024 10 6
     <= mondayOf (dayNumber 2024 10 6) + 6
  /\ @getWeekRangeISO sydneyHost sydneyDaylight thursday (agendaDate (sundayApp "week"))
     = Some {| start := "2024-09-30"; end_ := "2024-10-05" |}
  /\ @getVisibleTasks sydneyHost sydneyDaylight thursday (sundayApp "week") = Some []
  /\ @getVisibleTasks sydneyHost sydneyDaylight thursday (sundayApp "day")
     = Some [sundayTask]
  /\ @getVisibleTasks sydneyHost noDaylight thursday (sundayApp "week")
     = Some [sundayTask].
Proof. vm_compute. repeat split; discriminate. Qed.

(** The same defect in [todayISO]: in Australia/Sydney, half an hour
into Sunday 2024-10-06 (2024-10-05T14:30:00.000Z), the local day is the
Sunday and [todayISO()] returns the Saturday. *)
Lemma todayISO_daylight_saving :
  Date.toISOString 1728138600000 = "2024-10-05T14:30:00.000Z"
  /\ @localDay sydneyHost sydneyDaylight 1728138600000 = dayNumber 2024 10 6
  /\ @todayISO sydneyHost sydneyDaylight 1728138600000 = Some "2024-10-05"
  /\ @todayISO sydneyHost noDaylight 1728138600000 = Some "2024-10-06".
Proof. vm_compute. repeat split. Qed.

(* ===================================================================== *)
(** * The rest of the script *)
(* ===================================================================== *)

Section AnyZone.
Context `{Browser} `{Daylight}.
Import JsString Date CalendarFacts IsoFacts.

(** With or without daylight saving, [setHours(0, 0, 0, 0)] moves to
    local midnight of the local day, and local midnights follow the order
    of the days as long as the saving stays below a day. *)
Lemma setHours_midnight_any t :
  usualTimeZone -> (forall l, 0 <= savingAtLocal l < 1440) ->
  inCalendar (localDay t) ->
  setHours t 0 0 0 0 = Some (localMidnight (localDay t)).
Proof.
  intros zone B C. unfold setHours, localMidnight, localDay in *.
  change (MakeTime 0 0 0 0) with 0.
  set (n := Day (LocalTime t)) in *.
  unfold TimeClip, UTC.
  pose proof (B (MakeDate n 0)) as Bn.
  destruct (Z.leb_spec (Z.abs (MakeDate n 0
              + (tzOffsetMinutes - savingAtLocal (MakeDate n 0)) * msPerMinute))
              8640000000000000) as [L|L]; [reflexivity|].
  exfalso. revert L.
  unfold MakeDate, msPerDay, msPerMinute, inCalendar, usualTimeZone in *. lia.
Qed.

Lemma localMidnight_ltb a b :
  (forall l, 0 <= savingAtLocal l < 1440) ->
  (localMidnight a <? localMidnight b) = (a <? b).
Proof.
  intros B. unfold localMidnight, UTC.
  pose proof (B (MakeDate a 0)) as Ba. pose proof (B (MakeDate b 0)) as Bb.
  destruct (Z.eq_dec a b) as [->|N].
  { rewrite !Z.ltb_irrefl. reflexivity. }
  unfold MakeDate, msPerDay, msPerMinute in *.
  destruct (Z.ltb_spec a b);
    [apply Z.ltb_lt|apply Z.ltb_ge]; lia.
Qed.

Lemma isPastDue_any_zone now y m d :
  usualTimeZone -> (forall l, 0 <= savingAtLocal l < 1440) ->
  validCivil y m d = true -> 0 <= y <= 9999 ->
  inCalendar (localDay now) ->
  inCalendar (localDay (dayNumber y m d * msPerDay)) ->
  isPastDue now (isoDate y m d)
  = (localDay (dayNumber y m d * msPerDay) <? localDay now).
Proof.
  intros zone B V Ry C1 C2. unfold isPastDue. rewrite isoDate_nonempty.
  unfold parse. rewrite (parseDateOnly_isoDate y m d V Ry).
  rewrite (setHours_midnight_any now zone B C1).
  rewrite (setHours_midnight_any _ zone B C2).
  apply localMidnight_ltb, B.
Qed.

End AnyZone.

Section ClockFacts.
Context `{Browser}.
(* In this section the zone keeps its standard offset all year. *)
#[local] Existing Instance noDaylight.
Import JsString Date CalendarFacts IsoFacts OrderFacts MonotoneFacts.

Lemma time_parts t :
  Day t * msPerDay
  + MakeTime (HourFromTime t) (MinFromTime t) (SecFromTime t) (msFromTime t) = t.
Proof.
  unfold Day, MakeTime, HourFromTime, MinFromTime, SecFromTime, msFromTime,
    msPerDay, msPerHour, msPerMinute, msPerSecond.
  Z.div_mod_to_equations. lia.
Qed.

Lemma getTimezoneOffset_any t : getTimezoneOffset t = tzOffsetMinutes.
Proof.
  unfold getTimezoneOffset. rewrite LocalTime_fixed.
  replace (t - (t - tzOffsetMinutes * msPerMinute)) with (tzOffsetMinutes * msPerMinute) by lia.
  apply Z.div_mul. unfold msPerMinute. lia.
Qed.

Lemma civil_of_day t :
  YearFromTime (Day t * msPerDay) = YearFromTime t
  /\ MonthFromTime (Day t * msPerDay) = MonthFromTime t
  /\ DateFromTime (Day t * msPerDay) = DateFromTime t.
Proof.
  unfold DateFromTime, MonthFromTime, DayWithinYear, InLeapYear, YearFromTime.
  rewrite !Day_midnight. auto.
Qed.

Lemma slice_isoOfDay t :
  fourDigitYears (Day t) -> slice0 10 (toISOString t) = isoOfDay (Day t).
Proof.
  intros R. destruct (civil_of_day t) as (Ey & Em & Ed).
  rewrite slice_toISOString.
  - unfold isoOfDay, civilOfDay. rewrite Ey, Em, Ed. reflexivity.
  - unfold YearFromTime. apply yearFromDay_calendar. exact R.
Qed.

Lemma fourDigitYears_clip t : fourDigitYears (Day t) -> TimeClip t = Some t.
Proof.
  intros R. apply TimeClip_some. unfold fourDigitYears in R.
  rewrite DayFromYear_0, DayFromYear_10000 in R.
  unfold Day, msPerDay in R. Z.div_mod_to_equations. lia.
Qed.

Lemma toISODateLocal_local t :
  fourDigitYears (localDay t) ->
  toISODateLocal t = Some (isoOfDay (localDay t)).
Proof.
  intros R. unfold toISODateLocal, setMinutes, getMinutes.
  rewrite getTimezoneOffset_any.
  assert (E : UTC (MakeDate (Day (LocalTime t))
                     (MakeTime (HourFromTime (LocalTime t))
                        (MinFromTime (LocalTime t) - tzOffsetMinutes)
                        (SecFromTime (LocalTime t)) (msFromTime (LocalTime t))))
              = LocalTime t).
  { pose proof (time_parts (LocalTime t)) as P.
    rewrite UTC_fixed. unfold MakeDate, MakeTime in *. lia. }
  rewrite E, (fourDigitYears_clip _ R), (slice_isoOfDay _ R). reflexivity.
Qed.


Lemma isoOfDay_valid n :
  fourDigitYears n ->
  exists y m d, isoOfDay n = isoDate y m d /\ validCivil y m d = true
                /\ 0 <= y <= 9999 /\ dayNumber y m d = n.
Proof.
  intros R. pose proof (civilOfDay_valid n) as Cv. unfold isoOfDay.
  destruct (civilOfDay n) as [[y m] d]. destruct Cv as [V E].
  exists y, m, d. split; [reflexivity|]. split; [exact V|]. split; [|exact E].
  apply (calendar_year y m d V). rewrite E. exact R.
Qed.

(** X1.  In a time zone without daylight saving, [todayISO()] is the
    local calendar date of the instant of the call, not its UTC date:
    whenever that local day lies in the four-digit years, the result is
    the [YYYY-MM-DD] string of a valid date whose day number is the local
    day. *)
Theorem todayISO_local_date now :
  fourDigitYears (localDay now) ->
  todayISO now = Some (isoOfDay (localDay now))
  /\ exists y m d, isoOfDay (localDay now) = isoDate y m d
                   /\ validCivil y m d = true /\ 0 <= y <= 9999
                   /\ dayNumber y m d = localDay now.
Proof.
  intros R. split; [apply toISODateLocal_local, R|apply isoOfDay_valid, R].
Qed.

Lemma addDaysISO_isoDate now y m d delta :
  usualTimeZone ->
  validCivil y m d = true -> 0 <= y <= 9999 ->
  fourDigitYears (dayNumber y m d + delta) ->
  addDaysISO now (isoDate y m d) delta = Some (isoOfDay (dayNumber y m d + delta)).
Proof.
  intros zone V Ry R. unfold addDaysISO.
  rewrite (parseISOToLocalDate_isoDate zone now y m d V Ry).
  assert (C : inCalendar (dayNumber y m d + delta)).
  { unfold fourDigitYears in R. rewrite DayFromYear_0, DayFromYear_10000 in R.
    unfold inCalendar. lia. }
  rewrite (setDate_localMidnight zone) by exact C.
  rewrite toISODateLocal_localMidnight by exact C.
  rewrite isoOfDay_slice by exact R. reflexivity.
Qed.

(** X2.  In a time zone without daylight saving whose offset is at most
    a day, [addDaysISO] moves a valid [YYYY-MM-DD] date by [delta] calendar days, whatever the
    instant of the call, as long as the result stays in the four-digit
    years; the result is again the string of a valid date, and moving it
    back by [- delta] returns the date one started from (the agenda's
    previous and next buttons undo each other). *)
Theorem addDaysISO_moves_days now y m d delta :
  usualTimeZone ->
  validCivil y m d = true -> 0 <= y <= 9999 ->
  fourDigitYears (dayNumber y m d + delta) ->
  addDaysISO now (isoDate y m d) delta = Some (isoOfDay (dayNumber y m d + delta))
  /\ (exists y' m' d',
        isoOfDay (dayNumber y m d + delta) = isoDate y' m' d'
        /\ validCivil y' m' d' = true /\ 0 <= y' <= 9999
        /\ dayNumber y' m' d' = dayNumber y m d + delta)
  /\ forall later,
       addDaysISO later (isoOfDay (dayNumber y m d + delta)) (- delta)
       = Some (isoDate y m d).
Proof.
  intros zone V Ry R.
  split; [apply addDaysISO_isoDate; assumption|].
  split; [apply isoOfDay_valid, R|].
  intros later. destruct (isoOfDay_valid _ R) as (y' & m' & d' & E & V' & Ry' & N).
  rewrite E, (addDaysISO_isoDate later y' m' d' (- delta) zone V' Ry').
  - rewrite N. replace (dayNumber y m d + delta + - delta) with (dayNumber y m d) by lia.
    rewrite (isoOfDay_dayNumber y m d V). reflexivity.
  - rewrite N. replace (dayNumber y m d + delta + - delta) with (dayNumber y m d) by lia.
    apply (dayNumber_range y m d V Ry).
Qed.

Lemma isoOfDay_nonempty n : String.eqb (isoOfDay n) "" = false.
Proof.
  unfold isoOfDay. destruct (civilOfDay n) as [[y m] d]. apply isoDate_nonempty.
Qed.

Lemma parse_isoOfDay n :
  fourDigitYears n -> Date.parse (isoOfDay n) = Some (n * msPerDay).
Proof.
  intros R. destruct (isoOfDay_valid n R) as (y & m & d & E & V & Ry & N).
  rewrite E. unfold parse. rewrite (parseDateOnly_isoDate y m d V Ry), N. reflexivity.
Qed.

(** X3.  For every truthy value that the [Date] constructor reads as an
    instant of the four-digit years, [normalizeDate] returns the
    [YYYY-MM-DD] string of the UTC day of that instant; the string is that
    of a valid date, and normalizing it again returns it unchanged. *)
Theorem normalizeDate_utc_day v t :
  Js.truthy v = true -> newDate v = Returns (Some t) ->
  fourDigitYears (Day t) ->
  normalizeDate (Some v) = Returns (Some (isoOfDay (Day t)))
  /\ normalizeDate (Some (JStr (isoOfDay (Day t)))) = Returns (Some (isoOfDay (Day t)))
  /\ exists y m d, isoOfDay (Day t) = isoDate y m d
                   /\ validCivil y m d = true /\ 0 <= y <= 9999.
Proof.
  intros T D R. split; [|split].
  - unfold normalizeDate. rewrite T, D. simpl. rewrite (slice_isoOfDay t R). reflexivity.
  - unfold normalizeDate, newDate. cbn [Js.truthy].
    rewrite isoOfDay_nonempty. cbn [negb]. rewrite (parse_isoOfDay _ R).
    rewrite slice_isoOfDay; rewrite Day_midnight; [reflexivity|exact R].
  - destruct (isoOfDay_valid _ R) as (y & m & d & E & V & Ry & _). eauto 6.
Qed.


Lemma setHours_midnight t :
  usualTimeZone -> inCalendar (localDay t) ->
  setHours t 0 0 0 0 = Some (localMidnight (localDay t)).
Proof.
  intros zone C. unfold setHours, localMidnight, localDay in *.
  change (MakeTime 0 0 0 0) with 0.
  apply (TimeClip_local zone); [exact C|unfold msPerDay; lia].
Qed.

Lemma localDay_utc_midnight n :
  -1440 < tzOffsetMinutes <= 1440 ->
  localDay (n * msPerDay) = n - (if 0 <? tzOffsetMinutes then 1 else 0).
Proof.
  intros zone. unfold localDay. rewrite LocalTime_fixed.
  unfold Day, msPerDay, msPerMinute.
  destruct (Z.ltb_spec 0 tzOffsetMinutes); Z.div_mod_to_equations; lia.
Qed.

(** X4.  [isPastDue] compares local days.  A stored [YYYY-MM-DD] date is
    read as UTC midnight, whose local day, in a zone without daylight
    saving, is the date itself east of Greenwich and on it, and the day
    before west of it; so the date is past due when that local day is
    before the local day of the call.  In particular a task due today is
    reported past due exactly in the time zones behind UTC.  With
    daylight saving, as long as the saving stays below a day, the date
    is still past due exactly when the local day of its UTC midnight is
    before the local day of the call. *)
Theorem isPastDue_local_days now y m d :
  -1440 < tzOffsetMinutes <= 1440 ->
  validCivil y m d = true -> 0 <= y <= 9999 ->
  inCalendar (localDay now) ->
  (isPastDue now (isoDate y m d)
   = (dayNumber y m d - (if 0 <? tzOffsetMinutes then 1 else 0) <? localDay now)
   /\ (dayNumber y m d = localDay now ->
       isPastDue now (isoDate y m d) = (0 <? tzOffsetMinutes)))
  /\ (forall D : Daylight,
        (forall l, 0 <= @savingAtLocal D l < 1440) ->
        inCalendar (@localDay _ D now) ->
        inCalendar (@localDay _ D (dayNumber y m d * msPerDay)) ->
        @isPastDue _ D now (isoDate y m d)
        = (@localDay _ D (dayNumber y m d * msPerDay) <? @localDay _ D now)).
Proof.
  intros zone V Ry C.
  split;
    [|intros D B C1 C2; apply isPastDue_any_zone; try assumption;
      unfold usualTimeZone; lia].
  assert (zone' : usualTimeZone) by (unfold usualTimeZone; lia).
  pose proof (dayNumber_range y m d V Ry) as Rn.
  rewrite DayFromYear_0, DayFromYear_10000 in Rn.
  assert (E : isPastDue now (isoDate y m d)
              = (dayNumber y m d - (if 0 <? tzOffsetMinutes then 1 else 0)
                 <? localDay now)).
  { unfold isPastDue. rewrite isoDate_nonempty.
    unfold parse. rewrite (parseDateOnly_isoDate y m d V Ry).
    rewrite (setHours_midnight now zone' C).
    rewrite (setHours_midnight _ zone')
      by (rewrite (localDay_utc_midnight _ zone); unfold inCalendar;
          destruct (0 <? tzOffsetMinutes); lia).
    rewrite (localDay_utc_midnight _ zone).
    unfold localMidnight. rewrite !UTC_fixed. unfold MakeDate, msPerDay.
    set (a := dayNumber y m d - _). set (b := localDay now).
    destruct (Z.ltb_spec a b), (Z.ltb_spec (a * 86400000 + 0 + tzOffsetMinutes * msPerMinute)
                                  (b * 86400000 + 0 + tzOffsetMinutes * msPerMinute));
      try reflexivity; lia. }
  split; [exact E|].
  intros T. rewrite E, T.
  destruct (0 <? tzOffsetMinutes); [apply Z.ltb_lt|apply Z.ltb_ge]; lia.
Qed.

End ClockFacts.


Section InstantFacts.
Context `{Browser} `{Daylight}.
Import JsString DigitFacts Date CalendarFacts IsoFacts OrderFacts MonotoneFacts.

Lemma instant_parts (a b c d e : string) :
  String.length a = 10%nat -> String.length b = 2%nat -> String.length c = 2%nat ->
  String.length d = 2%nat -> String.length e = 3%nat ->
  let s := (a ++ "T" ++ b ++ ":" ++ c ++ ":" ++ d ++ "." ++ e ++ "Z")%string in
  String.length s = 24%nat
  /\ substring 0 10 s = a /\ charAt 10 s = "T" /\ substring 11 2 s = b
  /\ charAt 13 s = ":" /\ substring 14 2 s = c /\ charAt 16 s = ":"
  /\ substring 17 2 s = d /\ charAt 19 s = "." /\ substring 20 3 s = e
  /\ charAt 23 s = "Z".
Proof.
  destruct a as [|a1 [|a2 [|a3 [|a4 [|a5 [|a6 [|a7 [|a8 [|a9 [|a10 [|]]]]]]]]]]];
    try discriminate.
  destruct b as [|b1 [|b2 [|]]]; try discriminate.
  destruct c as [|c1 [|c2 [|]]]; try discriminate.
  destruct d as [|d1 [|d2 [|]]]; try discriminate.
  destruct e as [|e1 [|e2 [|e3 [|]]]]; try discriminate.
  intros _ _ _ _ _. repeat split.
Qed.

Lemma time_ranges t :
  0 <= HourFromTime t <= 23 /\ 0 <= MinFromTime t <= 59
  /\ 0 <= SecFromTime t <= 59 /\ 0 <= msFromTime t <= 999.
Proof.
  unfold HourFromTime, MinFromTime, SecFromTime, msFromTime,
    msPerHour, msPerMinute, msPerSecond.
  repeat split; Z.div_mod_to_equations; lia.
Qed.

Lemma toISOString_parts t :
  0 <= YearFromTime t <= 9999 ->
  toISOString t
  = (isoDate (YearFromTime t) (MonthFromTime t + 1) (DateFromTime t) ++ "T"
     ++ padDigits 2 (HourFromTime t) ++ ":" ++ padDigits 2 (MinFromTime t) ++ ":"
     ++ padDigits 2 (SecFromTime t) ++ "." ++ padDigits 3 (msFromTime t) ++ "Z")%string.
Proof.
  intros R. unfold toISOString, yearString.
  destruct (Z.leb_spec 0 (YearFromTime t)); [|lia].
  destruct (Z.leb_spec (YearFromTime t) 9999); [|lia]. cbn [andb].
  unfold isoDate. rewrite !append_assoc. reflexivity.
Qed.

(** What [toISOString] writes, [Date.parse] reads back. *)
Lemma parse_toISOString t :
  fourDigitYears (Day t) -> parse (toISOString t) = Some t.
Proof.
  intros R.
  assert (Ry : 0 <= YearFromTime t <= 9999)
    by (unfold YearFromTime; apply yearFromDay_calendar; exact R).
  destruct (civil_of_time t) as [V E].
  pose proof (time_ranges t) as (Rh & Rm & Rs & Rms).
  rewrite (toISOString_parts t Ry).
  destruct (instant_parts
              (isoDate (YearFromTime t) (MonthFromTime t + 1) (DateFromTime t))
              (padDigits 2 (HourFromTime t)) (padDigits 2 (MinFromTime t))
              (padDigits 2 (SecFromTime t)) (padDigits 3 (msFromTime t)))
    as (L & P1 & P2 & P3 & P4 & P5 & P6 & P7 & P8 & P9 & P10);
    try apply length_padDigits; try apply length_isoDate.
  set (s := (isoDate _ _ _ ++ _)%string) in *.
  unfold parse.
  assert (D : parseDateOnly s = None).
  { unfold parseDateOnly. rewrite L. reflexivity. }
  rewrite D. unfold parseInstant.
  rewrite L, P1, P2, P3, P4, P5, P6, P7, P8, P9, P10.
  cbn [Nat.eqb String.eqb Ascii.eqb Bool.eqb andb].
  rewrite (parseDateOnly_isoDate _ _ _ V Ry).
  rewrite !(decimal_padDigits 2), (decimal_padDigits 3) by (simpl; lia).
  destruct (Z.leb_spec (HourFromTime t) 23); [|lia].
  destruct (Z.leb_spec (MinFromTime t) 59); [|lia].
  destruct (Z.leb_spec (SecFromTime t) 59); [|lia].
  cbn [andb]. f_equal.
  unfold dayNumber. rewrite Z.add_simpl_r. rewrite E.
  apply time_parts.
Qed.

End InstantFacts.


Section OtherSorts.
Context `{Browser} `{Daylight}.

Lemma compareCreated_order a b :
  is_Some (createdTime a) -> is_Some (createdTime b) ->
  (ArraySort.positive (compareCreated a b) = false -> created b <= created a)
  /\ (ArraySort.positive (compareCreated a b) = true -> created a <= created b).
Proof.
  intros [ca Ca] [cb Cb]. unfold created.
  rewrite (compareCreated_wf a b ca cb Ca Cb), Ca, Cb. simpl.
  rewrite Z.ltb_ge, Z.ltb_lt. lia.
Qed.

Lemma sort_created_ordered collection :
  Forall (fun t => is_Some (createdTime t)) collection ->
  StronglySorted (fun x y => created y <= created x)
    (ArraySort.sort compareCreated collection).
Proof.
  intros W.
  apply (sort_sorted compareCreated (fun t => is_Some (createdTime t))); [| | |exact W].
  - intros x y z. lia.
  - intros x y Cx Cy. apply (compareCreated_order x y Cx Cy).
  - intros x y Cx Cy. apply (compareCreated_order x y Cx Cy).
Qed.

(** X5.  Under every sort key other than [dueAt] and [priority], for a
    collection whose creation instants are readable, [sortTasks] returns
    an arrangement of the collection with the newest task first; the
    single-user variant of the script returns the same sequence. *)
Theorem sortTasks_newest_first key (collection : list Task) :
  key <> "dueAt" -> key <> "priority" ->
  Forall (fun t => is_Some (createdTime t)) collection ->
  let visible := sortTasks key collection in
  Permutation collection visible
  /\ (forall i j a b ca cb,
        (i < j)%nat -> nth_error visible i = Some a -> nth_error visible j = Some b ->
        createdTime a = Some ca -> createdTime b = Some cb -> cb <= ca)
  /\ SingleUser.sortTasks collection key = visible.
Proof.
  intros N1 N2 W visible.
  assert (E : visible = ArraySort.sort compareCreated collection).
  { unfold visible, sortTasks.
    rewrite (proj2 (String.eqb_neq key "dueAt") N1),
      (proj2 (String.eqb_neq key "priority") N2). reflexivity. }
  rewrite E. split; [apply sort_perm|]. split.
  - intros i j a b ca cb L Ha Hb Ca Cb.
    pose proof (StronglySorted_nth _ _ (sort_created_ordered collection W)
                  i j a b L Ha Hb) as K.
    unfold created in K. rewrite Ca, Cb in K. exact K.
  - unfold SingleUser.sortTasks. apply sort_ext. intros x y _ _.
    unfold SingleUser.compare.
    rewrite (proj2 (String.eqb_neq key "dueAt") N1),
      (proj2 (String.eqb_neq key "priority") N2). reflexivity.
Qed.

Lemma rankOf_known t :
  knownPriority t -> rankOf t = Js.Own (JNum (rankNumber t)).
Proof.
  unfold knownPriority, rankOf, rankNumber.
  intros [E|[E|[E|E]]]; rewrite E; reflexivity.
Qed.

Lemma orderOf_known t :
  knownPriority t -> SingleUser.orderOf t = Js.Own (JNum (3 - rankNumber t)).
Proof.
  unfold knownPriority, SingleUser.orderOf, rankNumber.
  intros [E|[E|[E|E]]]; rewrite E; reflexivity.
Qed.

Lemma comparePriority_key a b :
  ranked a -> ranked b ->
  (ArraySort.positive (comparePriority a b) = false -> keyLe (rankKey a) (rankKey b))
  /\ (ArraySort.positive (comparePriority a b) = true -> keyLe (rankKey b) (rankKey a)).
Proof.
  intros [[ca Ca] Ka] [[cb Cb] Kb].
  unfold comparePriority, rankKey, keyLe, created.
  rewrite (rankOf_known a Ka), (rankOf_known b Kb).
  rewrite (compareCreated_wf a b ca cb Ca Cb), Ca, Cb. simpl.
  destruct (Z.eqb_spec (rankNumber a) (rankNumber b)) as [E|N]; simpl;
    rewrite Z.ltb_ge, Z.ltb_lt; lia.
Qed.

Lemma comparePriority_variants a b :
  ranked a -> ranked b ->
  ArraySort.positive (SingleUser.compare "priority" a b)
  = ArraySort.positive (comparePriority a b).
Proof.
  intros [_ Ka] [_ Kb]. unfold SingleUser.compare, comparePriority. simpl.
  rewrite (rankOf_known a Ka), (rankOf_known b Kb),
    (orderOf_known a Ka), (orderOf_known b Kb).
  fold (compareCreated a b).
  destruct (Z.eqb_spec (rankNumber a) (rankNumber b)) as [E|N],
           (Z.eqb_spec (3 - rankNumber a) (3 - rankNumber b)) as [E'|N'];
    try lia; simpl; [reflexivity|].
  destruct (Z.ltb_spec 0 (3 - rankNumber b - (3 - rankNumber a))),
           (Z.ltb_spec 0 (rankNumber a - rankNumber b)); try reflexivity; lia.
Qed.

(** X6.  Under the [priority] sort key, for tasks with a readable
    creation instant and a priority that is absent or one of the three
    levels, [sortTasks] returns an arrangement of the collection ordered
    high, medium, low, none, and newest first within one rank; the
    single-user variant of the script returns the same sequence. *)
Theorem sortTasks_priority (collection : list Task) :
  Forall ranked collection ->
  let visible := sortTasks "priority" collection in
  Permutation collection visible
  /\ (forall i j a b,
        (i < j)%nat -> nth_error visible i = Some a -> nth_error visible j = Some b ->
        rankNumber a <= rankNumber b
        /\ (forall ca cb, rankNumber a = rankNumber b ->
                          createdTime a = Some ca -> createdTime b = Some cb -> cb <= ca))
  /\ SingleUser.sortTasks collection "priority" = visible.
Proof.
  intros W visible.
  assert (E : visible = ArraySort.sort comparePriority collection) by reflexivity.
  rewrite E. split; [apply sort_perm|]. split.
  - intros i j a b L Ha Hb.
    assert (S : StronglySorted (fun x y => keyLe (rankKey x) (rankKey y))
                  (ArraySort.sort comparePriority collection)).
    { apply (sort_sorted comparePriority ranked); [| | |exact W].
      - intros x y z. apply keyLe_trans.
      - intros x y Cx Cy. apply (comparePriority_key x y Cx Cy).
      - intros x y Cx Cy. apply (comparePriority_key x y Cx Cy). }
    pose proof (StronglySorted_nth _ _ S i j a b L Ha Hb) as K.
    unfold keyLe, rankKey, created in K. simpl in K.
    split; [lia|]. intros ca cb R Ca Cb. rewrite Ca, Cb in K. simpl in K. lia.
  - unfold SingleUser.sortTasks. apply sort_ext. intros x y Ix Iy.
    rewrite List.Forall_forall in W. apply comparePriority_variants; apply W; assumption.
Qed.

End OtherSorts.


Section StoreFacts.
Context `{Browser} `{Daylight}.
Import JsString Date CalendarFacts IsoFacts OrderFacts MonotoneFacts.

Lemma key_signedIn a acc :
  signedInAs a acc -> getTaskStorageKey (currentAccountId a) = Some (taskKey acc).
Proof.
  intros [E N]. unfold currentAccountId, getTaskStorageKey, taskKey. rewrite E.
  rewrite (proj2 (String.eqb_neq (id acc) "") N). reflexivity.
Qed.

Lemma key_of_id acc :
  id acc <> "" -> getTaskStorageKey (Some (id acc)) = Some (taskKey acc).
Proof.
  intros N. unfold getTaskStorageKey, taskKey.
  rewrite (proj2 (String.eqb_neq (id acc) "") N). reflexivity.
Qed.

Lemma normalizeDate_isoDate y m d :
  validCivil y m d = true -> 0 <= y <= 9999 ->
  normalizeDate (Some (JStr (isoDate y m d))) = Returns (Some (isoDate y m d)).
Proof.
  intros V Ry. unfold normalizeDate, newDate. cbn [Js.truthy].
  rewrite isoDate_nonempty. cbn [negb].
  unfold parse. rewrite (parseDateOnly_isoDate y m d V Ry).
  rewrite isoOfDay_slice by (apply dayNumber_range; assumption).
  rewrite (isoOfDay_dayNumber y m d V). reflexivity.
Qed.

Lemma normalizeTask_taskJson now t :
  storable t -> normalizeTask now (taskJson t) = Returns (Some t).
Proof.
  destruct t as [i ti c de cr up du pr]. intros [D P]. cbn [dueAt priority] in D, P.
  assert (ND : normalizeDate (Js.field (taskJson {| taskId := i; title := ti; completed := c;
                 description := de; createdAt := cr; updatedAt := up; dueAt := du;
                 priority := pr |}) "dueAt") = Returns du).
  { destruct D as [-> | (y & m & d & -> & V & Ry)].
    - destruct de, pr; reflexivity.
    - replace (Js.field _ "dueAt") with (Some (JStr (isoDate y m d)))
        by (destruct de, pr; reflexivity).
      apply normalizeDate_isoDate; assumption. }
  unfold normalizeTask. rewrite ND.
  assert (NP : normalizePriority (Js.field (taskJson {| taskId := i; title := ti; completed := c;
                 description := de; createdAt := cr; updatedAt := up; dueAt := du;
                 priority := pr |}) "priority") = pr).
  { destruct P as [-> | [-> | [-> | ->]]]; destruct de, du; reflexivity. }
  rewrite NP.
  destruct de, du, pr, c; reflexivity.
Qed.

Lemma keepNormalized_taskJson now ts :
  Forall storable ts -> keepNormalized now (map taskJson ts) = Returns ts.
Proof.
  induction 1 as [|t ts S F IH]; [reflexivity|].
  cbn [map keepNormalized]. rewrite (normalizeTask_taskJson now t S), IH. reflexivity.
Qed.

(** X8.  Saving and loading is a round trip.  When an account with a
    non-empty id is signed in and every task has a due date that is
    absent or a valid [YYYY-MM-DD] date, and a priority that is absent or
    one of the three levels, [saveTasks] writes the collection under the
    account's key, leaves it unchanged in memory, and [loadTasks] for that
    account returns exactly the collection, at any later instant. *)
Theorem saveTasks_loadTasks now a acc :
  signedInAs a acc -> Forall storable (tasks a) ->
  localStorage (saveTasks a) !! taskKey acc
  = Some (Text (JArr (map taskJson (tasks a))))
  /\ tasks (saveTasks a) = tasks a
  /\ loadTasks now (localStorage (saveTasks a)) (Some (id acc)) = tasks a.
Proof.
  intros S F. pose proof (key_signedIn a acc S) as K.
  assert (L : localStorage (saveTasks a) !! taskKey acc
              = Some (Text (JArr (map taskJson (tasks a))))).
  { unfold saveTasks. rewrite K. cbn [localStorage]. apply lookup_insert_eq. }
  split; [exact L|]. split.
  - unfold saveTasks. rewrite K. reflexivity.
  - unfold loadTasks. rewrite (key_of_id acc (proj2 S)), L,
      (keepNormalized_taskJson now _ F). reflexivity.
Qed.

Lemma saveTasks_withTasks a acc ts :
  signedInAs a acc ->
  saveTasks (withTasks a ts)
  = {| tasks := ts; currentAccount := currentAccount a;
       currentFilter := currentFilter a; currentSort := currentSort a;
       agendaScope := agendaScope a; agendaDate := agendaDate a;
       localStorage :=
         <[taskKey acc := Text (JArr (map taskJson ts))]> (localStorage a) |}.
Proof.
  intros [E N]. unfold saveTasks, currentAccountId, getTaskStorageKey, withTasks, taskKey.
  cbn [currentAccount]. rewrite E.
  rewrite (proj2 (String.eqb_neq (id acc) "") N). reflexivity.
Qed.

Lemma filter_all_length {A} (p : A -> bool) l :
  List.length (List.filter p l) = List.length l -> List.filter p l = l.
Proof.
  induction l as [|x r IH]; [reflexivity|]. simpl.
  pose proof (List.filter_length_le p r) as B.
  destruct (p x); simpl; intros E.
  - f_equal. apply IH. lia.
  - lia.
Qed.

Lemma filter_all_forall {A} (p : A -> bool) l :
  List.filter p l = l <-> forall x, In x l -> p x = true.
Proof.
  induction l as [|x r IH]; simpl.
  - split; [intros _ x []|reflexivity].
  - destruct (p x) eqn:E; split.
    + intros F y [<-|I]; [exact E|]. apply IH; [|exact I]. congruence.
    + intros F. f_equal. apply IH. intros y I. apply F. right. exact I.
    + intros F. pose proof (List.filter_length_le p r) as B.
      rewrite F in B. simpl in B. lia.
    + intros F. specialize (F x (or_introl eq_refl)). congruence.
Qed.

Lemma find_filter_none (i : string) (ts : list Task) :
  List.find (fun task => String.eqb (taskId task) i)
    (List.filter (fun task => negb (String.eqb (taskId task) i)) ts) = None.
Proof.
  induction ts as [|t r IH]; [reflexivity|]. simpl.
  destruct (String.eqb (taskId t) i) eqn:E; simpl; [exact IH|].
  rewrite E. exact IH.
Qed.

(** X9.  With an account signed in, [deleteTask] keeps exactly the tasks
    whose id differs from the given one, in their order; afterwards
    [findTask] finds nothing under that id.  When no task has the id the
    whole state, storage included, is left as it was; otherwise the
    remaining collection is written under the account's key, and loading
    that item at any later instant returns the remaining tasks (for
    tasks the store can hold: a due date that is absent or a valid date,
    a priority that is absent or one of the three levels). *)
Theorem deleteTask_removes a acc i :
  signedInAs a acc ->
  let kept := List.filter (fun task => negb (String.eqb (taskId task) i)) (tasks a) in
  tasks (deleteTask a i) = kept
  /\ findTask (deleteTask a i) i = None
  /\ (forall t, In t (tasks (deleteTask a i)) <-> In t (tasks a) /\ taskId t <> i)
  /\ (findTask a i = None -> deleteTask a i = a)
  /\ (findTask a i <> None ->
      localStorage (deleteTask a i)
      = <[taskKey acc := Text (JArr (map taskJson kept))]> (localStorage a))
  /\ (findTask a i <> None -> Forall storable kept ->
      forall later,
        loadTasks later (localStorage (deleteTask a i)) (Some (id acc)) = kept).
Proof.
  intros S kept. pose proof (saveTasks_withTasks a acc kept S) as K.
  pose proof (key_of_id acc (proj2 S)) as Key.
  destruct S as [E N].
  assert (T : tasks (deleteTask a i) = kept).
  { unfold deleteTask. rewrite E. fold kept.
    destruct (Nat.eqb_spec (List.length kept) (List.length (tasks a))) as [L|L].
    - symmetry. apply filter_all_length. exact L.
    - rewrite K. reflexivity. }
  assert (Q : findTask a i = None <-> kept = tasks a).
  { unfold findTask, kept. rewrite filter_all_forall. split.
    - intros F t I. pose proof (List.find_none _ _ F t I) as G. simpl in G.
      rewrite G. reflexivity.
    - intros F. destruct (List.find _ (tasks a)) as [t|] eqn:G; [|reflexivity].
      apply List.find_some in G as [I G]. specialize (F t I). simpl in F.
      rewrite G in F. discriminate. }
  split; [exact T|]. split; [|split; [|split; [|split]]].
  - unfold findTask. rewrite T. apply find_filter_none.
  - intros t. rewrite T. unfold kept. rewrite filter_In, negb_true_iff, String.eqb_neq.
    tauto.
  - intros F. apply Q in F. unfold deleteTask. rewrite E. fold kept. rewrite F.
    rewrite Nat.eqb_refl. reflexivity.
  - intros F. unfold deleteTask. rewrite E. fold kept.
    destruct (Nat.eqb_spec (List.length kept) (List.length (tasks a))) as [L|L].
    + exfalso. apply F, Q, filter_all_length, L.
    + rewrite K. reflexivity.
  - intros F St later. unfold deleteTask. rewrite E. fold kept.
    destruct (Nat.eqb_spec (List.length kept) (List.length (tasks a))) as [L|L].
    + exfalso. apply F, Q, filter_all_length, L.
    + rewrite K. cbn [localStorage]. unfold loadTasks.
      rewrite Key, lookup_insert_eq, (keepNormalized_taskJson later _ St). reflexivity.
Qed.

Lemma updateOne_cases now i fs t :
  fst (updateOne now i fs t) = t
  \/ (taskId t = i /\ updatedAt (fst (updateOne now i fs t)) = Date.toISOString now).
Proof.
  unfold updateOne. destruct (String.eqb_spec (taskId t) i) as [E|N]; simpl; [|left; reflexivity].
  destruct (applyFields fs t false) as [u [|]]; [|left; reflexivity].
  right. split; [exact E|reflexivity].
Qed.

Lemma tasks_updateTask now a i fs :
  tasks (updateTask now a i fs)
  = match currentAccount a with
    | Some _ => map (fun t => fst (updateOne now i fs t)) (tasks a)
    | None => tasks a
    end.
Proof.
  unfold updateTask. destruct (currentAccount a) as [acc|] eqn:E; [|reflexivity].
  rewrite map_map.
  destruct (negb _); [reflexivity|].
  unfold saveTasks.
  destruct (getTaskStorageKey _); reflexivity.
Qed.

Lemma updateTask_nth now a i fs k t' :
  nth_error (tasks (updateTask now a i fs)) k = Some t' ->
  exists t, nth_error (tasks a) k = Some t
            /\ (t' = t \/ (taskId t = i /\ updatedAt t' = Date.toISOString now)).
Proof.
  rewrite tasks_updateTask. destruct (currentAccount a) as [acc|].
  - intros Hk. rewrite nth_error_map in Hk.
    destruct (nth_error (tasks a) k) as [t|]; [|discriminate].
    simpl in Hk. injection Hk as <-. exists t. split; [reflexivity|].
    apply updateOne_cases.
  - intros Hk. exists t'. auto.
Qed.

(** X10.  [updateTask] never adds or removes a task and never touches a
    task with another id: the collection keeps its length, every task
    whose id differs from the given one stays at its place unchanged, and
    a task that did change has the given id and carries the instant of the
    call as [updatedAt].  The account, the filter, the sort key and the
    agenda are left as they were. *)
Theorem updateTask_frame now a i fs :
  List.length (tasks (updateTask now a i fs)) = List.length (tasks a)
  /\ (forall k t, nth_error (tasks a) k = Some t -> taskId t <> i ->
                  nth_error (tasks (updateTask now a i fs)) k = Some t)
  /\ (forall k t', nth_error (tasks (updateTask now a i fs)) k = Some t' ->
        exists t, nth_error (tasks a) k = Some t
                  /\ (t' = t
                      \/ (taskId t = i /\ updatedAt t' = Date.toISOString now)))
  /\ currentAccount (updateTask now a i fs) = currentAccount a
  /\ currentFilter (updateTask now a i fs) = currentFilter a
  /\ currentSort (updateTask now a i fs) = currentSort a
  /\ agendaScope (updateTask now a i fs) = agendaScope a
  /\ agendaDate (updateTask now a i fs) = agendaDate a.
Proof.
  rewrite tasks_updateTask.
  assert (F : currentAccount (updateTask now a i fs) = currentAccount a
              /\ currentFilter (updateTask now a i fs) = currentFilter a
              /\ currentSort (updateTask now a i fs) = currentSort a
              /\ agendaScope (updateTask now a i fs) = agendaScope a
              /\ agendaDate (updateTask now a i fs) = agendaDate a).
  { unfold updateTask. destruct (currentAccount a) as [acc|] eqn:E; [|auto].
    destruct (negb _); [cbn; auto|].
    unfold saveTasks. destruct (getTaskStorageKey _); cbn; auto. }
  pose proof (updateTask_nth now a i fs) as G. rewrite tasks_updateTask in G.
  destruct (currentAccount a) as [acc|].
  - split; [apply length_map|]. split; [|split; [exact G|exact F]].
    intros k t Hk N. rewrite nth_error_map, Hk. simpl. f_equal.
    unfold updateOne. rewrite (proj2 (String.eqb_neq (taskId t) i) N). reflexivity.
  - split; [reflexivity|]. split; [auto|]. split; [exact G|exact F].
Qed.


Lemma taskKey_not_users acc : taskKey acc <> USERS_KEY.
Proof. unfold taskKey, TASK_KEY_PREFIX, USERS_KEY. simpl. discriminate. Qed.

Lemma taskKey_not_session acc : taskKey acc <> SESSION_KEY.
Proof. unfold taskKey, TASK_KEY_PREFIX, SESSION_KEY. simpl. discriminate. Qed.

Lemma taskKey_inj a b : taskKey a = taskKey b -> id a = id b.
Proof. unfold taskKey, TASK_KEY_PREFIX. simpl. intros E. injection E. auto. Qed.

Lemma saveTasks_frame a acc k :
  currentAccount a = Some acc -> k <> taskKey acc ->
  localStorage (saveTasks a) !! k = localStorage a !! k.
Proof.
  intros E N. unfold saveTasks, currentAccountId, getTaskStorageKey. rewrite E.
  destruct (String.eqb (id acc) ""); [reflexivity|].
  cbn [localStorage]. apply lookup_insert_ne. intros Q. apply N. rewrite <- Q. reflexivity.
Qed.

Lemma loadSession_depends ls ls' :
  ls' !! SESSION_KEY = ls !! SESSION_KEY -> ls' !! USERS_KEY = ls !! USERS_KEY ->
  fst (loadSession ls') = fst (loadSession ls).
Proof.
  intros S U. unfold loadSession, loadUsers. rewrite S, U.
  destruct (ls !! SESSION_KEY) as [[raw|parsed]|]; [| |reflexivity].
  - destruct (String.eqb raw ""); reflexivity.
  - destruct parsed; try reflexivity;
      destruct (Js.asString _) as [i|]; try reflexivity;
      destruct (String.eqb i ""); try reflexivity;
      destruct (negb _); reflexivity.
Qed.

Lemma loadTasks_depends now ls ls' o :
  (forall k, getTaskStorageKey o = Some k -> ls' !! k = ls !! k) ->
  loadTasks now ls' o = loadTasks now ls o.
Proof.
  intros E. unfold loadTasks. destruct (getTaskStorageKey o) as [k|]; [|reflexivity].
  rewrite (E k eq_refl). reflexivity.
Qed.


Lemma updateTask_storage now a acc i fs k :
  currentAccount a = Some acc -> k <> taskKey acc ->
  localStorage (updateTask now a i fs) !! k = localStorage a !! k.
Proof.
  intros E N. unfold updateTask. rewrite E.
  destruct (negb _); [reflexivity|].
  rewrite (saveTasks_frame _ acc k); [reflexivity|exact E|exact N].
Qed.

Lemma deleteTask_storage a acc i k :
  currentAccount a = Some acc -> k <> taskKey acc ->
  localStorage (deleteTask a i) !! k = localStorage a !! k.
Proof.
  intros E N. unfold deleteTask. rewrite E.
  destruct (Nat.eqb _ _); [reflexivity|].
  rewrite (saveTasks_frame _ acc k); [reflexivity|exact E|exact N].
Qed.

Lemma submitNewTask_storage now entropy a acc tv dv pv k :
  currentAccount a = Some acc -> k <> taskKey acc ->
  localStorage (submitNewTask now entropy a tv dv pv) !! k = localStorage a !! k.
Proof.
  intros E N. unfold submitNewTask. rewrite E.
  destruct (String.eqb _ ""); [reflexivity|].
  rewrite (saveTasks_frame _ acc k); [reflexivity|exact E|exact N].
Qed.

(** X11.  The task store of one account never touches anything else.
    Whatever [saveTasks], [updateTask], [deleteTask] or the new-task form
    does while an account is signed in, every storage item other than that
    account's own task list is left as it was: the users table, the
    session pointer (so the restored session is the same), and the task
    list that any other account loads. *)
Theorem task_store_isolation now later entropy a acc a' i fs tv dv pv :
  currentAccount a = Some acc ->
  a' = saveTasks a \/ a' = updateTask now a i fs \/ a' = deleteTask a i
  \/ a' = submitNewTask now entropy a tv dv pv ->
  (forall k, k <> taskKey acc -> localStorage a' !! k = localStorage a !! k)
  /\ loadUsers (localStorage a') = loadUsers (localStorage a)
  /\ fst (loadSession (localStorage a')) = fst (loadSession (localStorage a))
  /\ (forall other, other <> id acc ->
        loadTasks later (localStorage a') (Some other)
        = loadTasks later (localStorage a) (Some other)).
Proof.
  intros E O.
  assert (F : forall k, k <> taskKey acc -> localStorage a' !! k = localStorage a !! k).
  { intros k N. destruct O as [-> | [-> | [-> | ->]]].
    - apply (saveTasks_frame a acc k E N).
    - apply (updateTask_storage now a acc i fs k E N).
    - apply (deleteTask_storage a acc i k E N).
    - apply (submitNewTask_storage now entropy a acc tv dv pv k E N). }
  pose proof (F USERS_KEY (fun Q => taskKey_not_users acc (eq_sym Q))) as U.
  pose proof (F SESSION_KEY (fun Q => taskKey_not_session acc (eq_sym Q))) as S.
  split; [exact F|]. split; [|split].
  - unfold loadUsers. rewrite U. reflexivity.
  - apply loadSession_depends; assumption.
  - intros other N. apply loadTasks_depends. intros k K. apply F.
    unfold getTaskStorageKey in K. destruct (String.eqb other ""); [discriminate|].
    injection K as <-. intros Q.
    apply N. apply (taskKey_inj {| id := other; displayName := JNull |} acc Q).
Qed.

End StoreFacts.

Section UpdatePersist.
Context `{Browser}.


End UpdatePersist.



Section IdFacts.

Lemma code_ofCode n : 0 <= n < 256 -> JsString.code (JsString.ofCode n) = n.
Proof.
  intros R. unfold JsString.code, JsString.ofCode.
  rewrite N_ascii_embedding by lia. lia.
Qed.

Lemma code_hexChar d :
  0 <= d < 16 -> JsString.code (JsString.hexChar d) = if d <? 10 then 48 + d else 87 + d.
Proof.
  intros R. unfold JsString.hexChar.
  destruct (Z.ltb_spec d 10); apply code_ofCode; lia.
Qed.

Lemma hexChar_inj a b :
  0 <= a < 16 -> 0 <= b < 16 -> JsString.hexChar a = JsString.hexChar b -> a = b.
Proof.
  intros Ra Rb E. apply (f_equal JsString.code) in E.
  rewrite !code_hexChar in E by assumption.
  destruct (Z.ltb_spec a 10), (Z.ltb_spec b 10); lia.
Qed.

Lemma toZ_inj a b : Bytes.toZ a = Bytes.toZ b -> a = b.
Proof.
  unfold Bytes.toZ. intros E. apply N2Z.inj in E.
  pose proof (Byte.of_to_N a) as Ha. rewrite E, Byte.of_to_N in Ha. congruence.
Qed.

Lemma hex_inj bs1 bs2 : Bytes.hex bs1 = Bytes.hex bs2 -> bs1 = bs2.
Proof.
  revert bs2. induction bs1 as [|a r IH]; intros [|b s] E; try discriminate; [reflexivity|].
  simpl in E. injection E as E1 E2 E3.
  pose proof (toZ_range a) as Ra. pose proof (toZ_range b) as Rb.
  apply hexChar_inj in E1; [|Z.div_mod_to_equations; lia..].
  apply hexChar_inj in E2; [|Z.div_mod_to_equations; lia..].
  f_equal; [|apply IH, E3].
  apply toZ_inj. Z.div_mod_to_equations. lia.
Qed.

Lemma createId_inj entropy other :
  createId entropy = createId other ->
  forall i, (i < 16)%nat -> entropy i = other i.
Proof.
  unfold createId. intros E i L. apply hex_inj in E.
  assert (G : nth_error (map entropy (seq 0 16)) i
              = nth_error (map other (seq 0 16)) i) by (rewrite E; reflexivity).
  rewrite !nth_error_map in G.
  rewrite (nth_error_nth' (seq 0 16) 0%nat) in G by (rewrite length_seq; exact L).
  rewrite seq_nth in G by exact L. simpl in G. congruence.
Qed.

(** X14.  [createId] returns 32 lower-case hexadecimal digits, and two
    identifiers are equal exactly when the 16 random bytes behind them
    are: the rendering loses nothing of the randomness. *)
Theorem createId_hex_digits entropy other :
  String.length (createId entropy) = 32%nat
  /\ JsString.allChars JsString.isLowerHex (createId entropy) = true
  /\ (createId entropy = createId other
      <-> forall i, (i < 16)%nat -> entropy i = other i).
Proof.
  unfold createId. split; [|split].
  - rewrite length_hex, length_map, length_seq. reflexivity.
  - apply hex_lower.
  - split.
    + intros E i L. exact (createId_inj entropy other E i L).
    + intros E. f_equal. apply map_ext_in. intros i I. apply E.
      apply in_seq in I. lia.
Qed.

End IdFacts.

Section NewTaskFacts.
Context `{Browser}.
Import Date.

(** X12.  The new-task form, with an account signed in and a title that
    is not blank, puts one new task in front of the collection: its id is
    [createId()] of the 16 random bytes, its title the trimmed input, it
    is not completed, and it is created and updated at the instant of the
    call.  The id differs from the id of every earlier task that was made
    from other bytes; the script itself never compares it with the ids
    already there, so the same bytes drawn again give a second task under
    the same id.
    When the due input, if readable, is an instant of the four-digit
    years, the new task is one the store reads back: the collection is
    written under the account's key and loading it at any later instant
    returns the collection with the new task in front. *)
Theorem submitNewTask_adds now later entropy a acc titleValue dueValue priorityValue :
  signedInAs a acc ->
  JsString.trim titleValue <> "" ->
  Forall storable (tasks a) ->
  (forall t, Date.parse dueValue = Some t -> fourDigitYears (Day t)) ->
  let a' := submitNewTask now entropy a titleValue dueValue priorityValue in
  exists task,
    tasks a' = task :: tasks a
    /\ taskId task = createId entropy
    /\ title task = JsString.trim titleValue
    /\ completed task = false
    /\ createdAt task = Date.toISOString now
    /\ updatedAt task = Date.toISOString now
    /\ storable task
    /\ localStorage a' !! taskKey acc = Some (Text (JArr (map taskJson (tasks a'))))
    /\ loadTasks later (localStorage a') (Some (id acc)) = tasks a'
    /\ (forall t other,
          In t (tasks a) -> taskId t = createId other ->
          (exists k, (k < 16)%nat /\ other k <> entropy k) ->
          taskId task <> taskId t)
    /\ (forall t,
          In t (tasks a) -> taskId t = createId entropy ->
          In t (tasks a') /\ In task (tasks a') /\ taskId task = taskId t).
Proof.
  intros S T F D a'.
  set (task := {| taskId := createId entropy;
                  title := JsString.trim titleValue;
                  completed := false;
                  description := None;
                  createdAt := Date.toISOString now;
                  updatedAt := Date.toISOString now;
                  dueAt :=
                    match normalizeDate (Some (JStr dueValue)) with
                    | Returns due => due
                    | Throws => None
                    end;
                  priority := normalizePriority (Some (JStr priorityValue)) |}).
  assert (E : a' = saveTasks (withTasks a (task :: tasks a))).
  { unfold a', submitNewTask. rewrite (proj1 S).
    rewrite (proj2 (String.eqb_neq _ "") T). reflexivity. }
  assert (St : storable task).
  { split.
    - cbn [dueAt task]. unfold normalizeDate, newDate. cbn [Js.truthy].
      destruct (String.eqb dueValue ""); [left; reflexivity|]. cbn [negb].
      destruct (Date.parse dueValue) as [t|] eqn:P; [|left; reflexivity].
      right. specialize (D t eq_refl).
      rewrite (slice_isoOfDay t D).
      destruct (isoOfDay_valid _ D) as (y & m & d & Ei & V & Ry & _).
      exists y, m, d. rewrite Ei. auto.
    - cbn [priority task]. unfold normalizePriority.
      destruct (String.eqb_spec priorityValue "low") as [->|]; [auto|].
      destruct (String.eqb_spec priorityValue "med") as [->|]; [auto|].
      destruct (String.eqb_spec priorityValue "high") as [->|]; auto. }
  rewrite (saveTasks_withTasks a acc (task :: tasks a) S) in E.
  exists task. rewrite E. cbn [tasks localStorage].
  split; [reflexivity|]. split; [reflexivity|]. split; [reflexivity|].
  split; [reflexivity|]. split; [reflexivity|]. split; [reflexivity|].
  split; [exact St|]. split; [apply lookup_insert_eq|]. split; [|split].
  - unfold loadTasks. rewrite (key_of_id acc (proj2 S)), lookup_insert_eq.
    rewrite keepNormalized_taskJson; [reflexivity|]. constructor; assumption.
  - intros t other I Ei (k & Lk & Nk) Q. apply Nk. symmetry.
    apply (createId_inj entropy other); [|exact Lk].
    rewrite <- Ei. exact Q.
  - intros t I Ei. split; [right; exact I|]. split; [left; reflexivity|].
    symmetry. exact Ei.
Qed.

End NewTaskFacts.

Section CsvFacts.
Import Csv CsvReader.

Lemma needsQuotes_cons c r :
  needsQuotes (String c r) = false ->
  Ascii.eqb c quote = false /\ Ascii.eqb c comma = false
  /\ Ascii.eqb c newline = false /\ needsQuotes r = false.
Proof.
  cbn [needsQuotes]. intros E.
  apply orb_false_iff in E as [E N].
  apply orb_false_iff in E as [E E3].
  apply orb_false_iff in E as [E1 E2]. auto.
Qed.

Lemma append_snoc (cell : string) c r :
  ((cell ++ String c EmptyString) ++ r = cell ++ String c r)%string.
Proof. induction cell as [|x cell IH]; simpl; [reflexivity|]. rewrite IH. reflexivity. Qed.

Lemma records_plain cell done s rest :
  needsQuotes s = false -> hasReturn s = false ->
  records Bare cell done (s ++ rest) = records Bare (cell ++ s) done rest.
Proof.
  revert cell. induction s as [|c r IH]; intros cell N R.
  - cbn [String.append]. rewrite IsoFacts.append_nil_r. reflexivity.
  - apply needsQuotes_cons in N as (P1 & P2 & P3 & N).
    cbn [hasReturn] in R. apply orb_false_iff in R as [P4 R].
    cbn [String.append records]. rewrite P1, P2, P3, P4.
    rewrite IH by assumption. rewrite append_snoc. reflexivity.
Qed.

Lemma records_quoted cell done s rest :
  records Quoted cell done (doubleQuotes s ++ String quote rest)
  = records Closing (cell ++ s) done rest.
Proof.
  revert cell. induction s as [|c r IH]; intros cell.
  - cbn [doubleQuotes String.append]. rewrite IsoFacts.append_nil_r.
    cbn [records]. change (Ascii.eqb quote quote) with true. reflexivity.
  - cbn [doubleQuotes]. destruct (Ascii.eqb c quote) eqn:Q.
    + apply Ascii.eqb_eq in Q. subst c.
      cbn [String.append records]. change (Ascii.eqb quote quote) with true. cbn iota.
      change (Ascii.eqb quote comma) with false.
      change (Ascii.eqb quote newline) with false.
      change (Ascii.eqb quote carriage) with false. cbn iota.
      rewrite IH, append_snoc. reflexivity.
    + cbn [String.append records]. rewrite Q, IH, append_snoc. reflexivity.
Qed.

Lemma records_closing cell done rest :
  atSeparator rest -> records Closing cell done rest = records Bare cell done rest.
Proof.
  intros [->|[[r ->]|[r ->]]]; reflexivity.
Qed.

(** Reading an escaped cell leaves the reader at the separator with the
    cell restored. *)
Lemma records_escape done s rest :
  exportable s -> atSeparator rest ->
  records Bare EmptyString done (escape s ++ rest) = records Bare s done rest.
Proof.
  intros X Sep. unfold escape. destruct (needsQuotes s) eqn:N.
  - cbn [String.append records].
    change (Ascii.eqb quote comma) with false.
    change (Ascii.eqb quote newline) with false.
    change (Ascii.eqb quote carriage) with false.
    change (Ascii.eqb quote quote) with true. cbn iota.
    rewrite DigitFacts.append_assoc. cbn [String.append].
    rewrite records_quoted. cbn [String.append].
    apply records_closing, Sep.
  - rewrite records_plain; [reflexivity|exact N|].
    unfold exportable in X. destruct (hasReturn s); [|reflexivity].
    rewrite X in N by reflexivity. discriminate.
Qed.

Lemma records_row done cs rest :
  cs <> [] -> Forall exportable cs ->
  rest = EmptyString \/ (exists r, rest = String newline r) ->
  records Bare EmptyString done
    (JsString.join (String comma EmptyString) (map escape cs) ++ rest)
  = records Bare (List.last cs EmptyString) (rev (removelast cs) ++ done) rest.
Proof.
  revert done. induction cs as [|c r IH]; intros done N X Sep; [congruence|].
  apply Forall_cons_iff in X as [Xc X].
  destruct r as [|c' r'].
  - cbn [map JsString.join List.last removelast rev app].
    apply records_escape; [exact Xc|].
    destruct Sep; [left|right; right]; assumption.
  - change (JsString.join (String comma EmptyString) (map escape (c :: c' :: r')))
      with (escape c ++ String comma EmptyString
            ++ JsString.join (String comma EmptyString) (map escape (c' :: r')))%string.
    rewrite DigitFacts.append_assoc. rewrite records_escape
      by (try exact Xc; right; left; eexists; rewrite DigitFacts.append_assoc; reflexivity).
    rewrite DigitFacts.append_assoc. cbn [String.append records].
    change (Ascii.eqb comma comma) with true. cbn iota.
    rewrite IH by (try discriminate; assumption).
    change (List.last (c :: c' :: r') EmptyString) with (List.last (c' :: r') EmptyString).
    change (removelast (c :: c' :: r')) with (c :: removelast (c' :: r')).
    cbn [rev]. rewrite <- app_assoc. reflexivity.
Qed.

Lemma rev_last_removelast (cs : list string) :
  cs <> [] -> rev (List.last cs EmptyString :: rev (removelast cs) ++ []) = cs.
Proof.
  intros N. rewrite app_nil_r. cbn [rev]. rewrite rev_involutive.
  symmetry. apply app_removelast_last. exact N.
Qed.

Lemma read_lines (rows : list (list string)) :
  rows <> [] -> Forall (fun cs => cs <> [] /\ Forall exportable cs) rows ->
  read (JsString.join (String newline EmptyString)
          (map (fun cs => JsString.join (String comma EmptyString) (map escape cs)) rows))
  = rows.
Proof.
  unfold read. induction rows as [|cs rows IH]; intros N F; [congruence|].
  apply Forall_cons_iff in F as [[Ncs Xcs] F].
  destruct rows as [|cs' rows'].
  - cbn [map JsString.join].
    rewrite <- (IsoFacts.append_nil_r (JsString.join _ _)) at 1.
    rewrite records_row by auto.
    cbn [records]. rewrite rev_last_removelast by exact Ncs. reflexivity.
  - set (line := fun cs => JsString.join (String comma EmptyString) (map escape cs)) in *.
    change (JsString.join (String newline EmptyString) (map line (cs :: cs' :: rows')))
      with (line cs ++ String newline EmptyString
            ++ JsString.join (String newline EmptyString) (map line (cs' :: rows')))%string.
    unfold line at 1.
    rewrite records_row by (try assumption; right; eexists; reflexivity).
    cbn [String.append records].
    change (Ascii.eqb newline comma) with false.
    change (Ascii.eqb newline newline) with true. cbn iota.
    rewrite rev_last_removelast by exact Ncs.
    f_equal. apply IH; [discriminate|exact F].
Qed.

Lemma read_content (visible : list Task) :
  Forall (fun t => Forall exportable (cells t)) visible ->
  read (content visible) = headers :: map cells visible.
Proof.
  intros X. unfold content, row.
  assert (H : JsString.join (String comma EmptyString) headers
              = JsString.join (String comma EmptyString) (map escape headers))
    by reflexivity.
  rewrite H.
  rewrite <- (read_lines (headers :: map cells visible)).
  - cbn [map]. rewrite map_map. reflexivity.
  - discriminate.
  - constructor.
    + split; [discriminate|].
      repeat (apply List.Forall_cons; [intros R; discriminate R|]).
      apply List.Forall_nil.
    + apply List.Forall_forall. intros cs I.
      apply in_map_iff in I as (t & <- & I). split; [discriminate|].
      rewrite List.Forall_forall in X. apply X, I.
Qed.

(** X15.  The exported text reads back.  A reader that follows the
    quoting of RFC 4180 and ends a record at CR LF, at a bare LF or at a
    bare CR finds in the text exactly the header record followed by one
    record of seven cells per task, each cell equal to the exported
    value, whatever commas, quotes and line feeds the cells hold,
    provided that a cell that holds a carriage return also holds a
    comma, a quote or a line feed.  The test of [escape] leaves the
    carriage return out: a title that holds one and none of the three is
    written without quotes, and the reader takes it for a line break.
    The export of a signed-in state is that text for the visible tasks;
    nothing is exported when nobody is signed in. *)
Theorem csv_export_reads_back `{Browser} `{Daylight} now (a : App) :
  (forall visible,
      Forall (fun t => Forall exportable (cells t)) visible ->
      read (content visible) = headers :: map cells visible)
  /\ (forall text,
        exportVisibleTasksToCSV now a = Some text ->
        exists visible,
          getVisibleTasks now a = Some visible
          /\ text = content visible
          /\ (Forall (fun t => Forall exportable (cells t)) visible ->
              read text = headers :: map cells visible
              /\ List.length (read text) = S (List.length visible)))
  /\ (currentAccount a = None -> exportVisibleTasksToCSV now a = None)
  /\ escape (title returnTask) = title returnTask
  /\ read (content [returnTask])
     = [headers;
        ["r1"; "a"];
        ["b"; "false"; "2024-03-01T09:00:00.000Z"; "2024-03-01T09:00:00.000Z"; ""; ""]].
Proof.
  split; [exact read_content|]. split; [|split; [|split]].
  - intros text E. unfold exportVisibleTasksToCSV in E.
    destruct (currentAccount a); [|discriminate].
    destruct (getVisibleTasks now a) as [visible|]; [|discriminate].
    injection E as <-. exists visible. split; [reflexivity|]. split; [reflexivity|].
    intros X. rewrite (read_content visible X). split; [reflexivity|].
    cbn [List.length]. rewrite length_map. reflexivity.
  - intros E. unfold exportVisibleTasksToCSV. rewrite E. reflexivity.
  - reflexivity.
  - vm_compute. reflexivity.
Qed.

End CsvFacts.

Section FormFacts.
Context `{Browser} `{Daylight}.
Variable control : SortControl.

Lemma withStorage_same a : withStorage a (localStorage a) = a.
Proof. destruct a. reflexivity. Qed.

Lemma trim_nonempty u : normalizeUsername u <> "" -> JsString.trim u <> "".
Proof.
  intros N E. apply N. unfold normalizeUsername. rewrite E. reflexivity.
Qed.

Lemma authenticateUser_inr ls u p acct :
  authenticateUser ls u p = inr acct ->
  id acct = normalizeUsername u
  /\ id acct <> ""
  /\ JsString.trim u <> ""
  /\ Js.truthyProp (Js.get (loadUsers ls) (id acct)) = true
  /\ displayName acct
     = orElse (Js.propField (Js.get (loadUsers ls) (id acct)) "displayName")
         (JStr (JsString.trim u)).
Proof.
  unfold authenticateUser. rewrite normalizeUsername_trim.
  destruct (String.eqb_spec (normalizeUsername u) "") as [E|N]; [discriminate|].
  destruct (Js.truthyProp (Js.get (loadUsers ls) (normalizeUsername u))) eqn:T;
    [|discriminate]. cbn [negb].
  destruct (differsFrom _ _); [discriminate|].
  intros Q. injection Q as <-. cbn [id displayName].
  split; [reflexivity|]. split; [exact N|]. split; [apply trim_nonempty, N|].
  split; [exact T|reflexivity].
Qed.

Lemma loadUsers_session ls v :
  loadUsers (<[SESSION_KEY := v]> ls) = loadUsers ls.
Proof. unfold loadUsers. rewrite lookup_insert_ne; [reflexivity|discriminate]. Qed.

Lemma loadUsers_no_session ls :
  loadUsers (delete SESSION_KEY ls) = loadUsers ls.
Proof. unfold loadUsers. rewrite lookup_delete_ne; [reflexivity|discriminate]. Qed.

(** The pointer written at sign-in restores the same account. *)
Lemma loadSession_pointer ls acct clean :
  id acct <> "" -> clean <> "" ->
  Js.truthyProp (Js.get (loadUsers ls) (id acct)) = true ->
  displayName acct
  = orElse (Js.propField (Js.get (loadUsers ls) (id acct)) "displayName") (JStr clean) ->
  loadSession (<[SESSION_KEY := Text (accountJson acct)]> ls)
  = (Some acct, <[SESSION_KEY := Text (accountJson acct)]> ls).
Proof.
  intros N C T D. unfold loadSession. rewrite lookup_insert_eq.
  cbn [accountJson Js.field Js.assoc String.eqb Ascii.eqb Bool.eqb Js.asString].
  rewrite (proj2 (String.eqb_neq _ _) N), loadUsers_session, T. cbn [negb].
  f_equal. destruct acct as [i dn]. cbn [id displayName] in *. do 2 f_equal.
  assert (Tc : Js.truthy (JStr clean) = true).
  { cbn [Js.truthy]. rewrite (proj2 (String.eqb_neq _ _) C). reflexivity. }
  rewrite D. destruct (Js.propField _ "displayName") as [v|].
  - unfold orElse. destruct (Js.truthy v) eqn:Tv; rewrite ?Tv, ?Tc; reflexivity.
  - unfold orElse. rewrite Tc. reflexivity.
Qed.

Lemma sessionKey_not_tasks o k :
  getTaskStorageKey o = Some k -> k <> SESSION_KEY.
Proof.
  unfold getTaskStorageKey. destruct o as [i|]; [|discriminate].
  destruct (String.eqb i ""); [discriminate|]. intros Q. injection Q as <-.
  apply (taskKey_not_session {| id := i; displayName := JNull |}).
Qed.

Lemma loadTasks_session now ls v o :
  loadTasks now (<[SESSION_KEY := v]> ls) o = loadTasks now ls o.
Proof.
  apply loadTasks_depends. intros k K. apply lookup_insert_ne.
  intros Q. apply (sessionKey_not_tasks o k K). auto.
Qed.

Lemma loadTasks_no_session now ls o :
  loadTasks now (delete SESSION_KEY ls) o = loadTasks now ls o.
Proof.
  apply loadTasks_depends. intros k K. apply lookup_delete_ne.
  intros Q. apply (sessionKey_not_tasks o k K). auto.
Qed.

Lemma initialize_pointer later today ls acct :
  loadSession (<[SESSION_KEY := Text (accountJson acct)]> ls)
  = (Some acct, <[SESSION_KEY := Text (accountJson acct)]> ls) ->
  let ls' := <[SESSION_KEY := Text (accountJson acct)]> ls in
  let b := initialize control later (freshApp control today ls') in
  currentAccount b = Some acct
  /\ tasks b = loadTasks later ls (Some (id acct))
  /\ localStorage b = ls'.
Proof.
  intros L ls' b. subst b ls'. unfold initialize. cbn [freshApp localStorage].
  rewrite L.
  cbn [setCurrentAccount withStorage freshApp localStorage currentAccount tasks].
  split; [reflexivity|]. split.
  - rewrite !loadTasks_session. reflexivity.
  - apply insert_insert_eq.
Qed.

(** X16.  A login the form accepts opens a session that survives a
    reload.  The account becomes the current one, the filter is reset,
    the tasks are those stored for the account, and the storage differs
    only by the session pointer; restoring the session from that storage
    gives the same account, and the script started afresh on it is signed
    in as that account with the same stored tasks. *)
Theorem handleLogin_opens_session now a username password acct a' :
  handleLogin control now a username password = (Accepted acct, a') ->
  currentAccount a' = Some acct
  /\ currentFilter a' = "all"
  /\ tasks a' = loadTasks now (localStorage a) (Some (id acct))
  /\ localStorage a' = <[SESSION_KEY := Text (accountJson acct)]> (localStorage a)
  /\ loadSession (localStorage a') = (Some acct, localStorage a')
  /\ forall later today,
       let b := initialize control later (freshApp control today (localStorage a')) in
       currentAccount b = Some acct
       /\ tasks b = loadTasks later (localStorage a) (Some (id acct))
       /\ localStorage b = localStorage a'.
Proof.
  unfold handleLogin.
  destruct (String.eqb _ "" || String.eqb _ ""); [discriminate|].
  destruct (authenticateUser _ _ _) as [e|account] eqn:A; [discriminate|].
  intros Q. injection Q as <- <-.
  apply authenticateUser_inr in A as (_ & N & C & T & D).
  pose proof (loadSession_pointer (localStorage a) account _ N C T D) as L.
  cbn [setCurrentAccount currentAccount currentFilter tasks localStorage].
  split; [reflexivity|]. split; [reflexivity|].
  split; [apply loadTasks_session|]. split; [reflexivity|]. split; [exact L|].
  intros later today. apply initialize_pointer. exact L.
Qed.


Lemma registerUser_refused now ls u p e ls' :
  registerUser now ls u p = (inl e, ls') -> ls' = ls.
Proof.
  unfold registerUser.
  destruct (_ <? 3)%nat; [intros Q; injection Q; auto|].
  destruct (_ <? 6)%nat; [intros Q; injection Q; auto|].
  destruct (String.eqb _ ""); [intros Q; injection Q; auto|].
  destruct (Js.truthyProp _); [intros Q; injection Q; auto|discriminate].
Qed.

Lemma differsFrom_same s : differsFrom (Some (JStr s)) s = false.
Proof. unfold differsFrom. rewrite String.eqb_refl. reflexivity. Qed.

(** After a registration, the same name and password authenticate as the
    account that the registration returned. *)
Lemma authenticateUser_registered now ls u p acct ls' extra :
  registerUser now ls u p = (inr acct, ls') ->
  (forall k, k <> SESSION_KEY -> extra !! k = ls' !! k) ->
  authenticateUser extra u p = inr acct.
Proof.
  intros R F. pose proof (registerUser_inr now ls u p acct ls' R) as (L1 & _ & _ & -> & ->).
  assert (U : loadUsers extra
              = Js.setField (normalizeUsername u)
                  (userRecord (hashPassword p) (JsString.trim u) now) (loadUsers ls)).
  { unfold loadUsers at 1. rewrite F by discriminate.
    change (loadUsers (saveUsers (Js.setField (normalizeUsername u)
                (userRecord (hashPassword p) (JsString.trim u) now) (loadUsers ls)) ls)
            = Js.setField (normalizeUsername u)
                (userRecord (hashPassword p) (JsString.trim u) now) (loadUsers ls)).
    apply loadUsers_saveUsers. }
  rewrite (authenticateUser_found extra u p
             (userRecord (hashPassword p) (JsString.trim u) now)).
  - cbn [userRecord Js.field Js.assoc String.eqb Ascii.eqb Bool.eqb].
    rewrite differsFrom_same. unfold orElse. cbn [Js.truthy].
    destruct (String.eqb_spec (JsString.trim u) "") as [E|_]; [|reflexivity].
    rewrite E in L1. simpl in L1. lia.
  - apply normalized_nonempty, L1.
  - rewrite U. apply assoc_setField_eq.
  - reflexivity.
Qed.

(** X17.  A registration the form accepts signs the new account in (its
    id is the normalized name, its display name the trimmed one, the
    confirmation equal to the password), and the credentials then work:
    after signing out, the login form accepts the same name and password
    as the same account, with the tasks stored for it, and leaves the
    storage as it was before signing out. *)
Theorem handleRegister_then_login now a username password confirm acct a' :
  handleRegister control now a username password confirm = (Accepted acct, a') ->
  formText confirm = formText password
  /\ id acct = normalizeUsername (formText username)
  /\ displayName acct = JStr (JsString.trim (formText username))
  /\ currentAccount a' = Some acct
  /\ tasks a' = loadTasks now (localStorage a) (Some (id acct))
  /\ loadSession (localStorage a') = (Some acct, localStorage a')
  /\ forall later again,
       let b := handleLogin control again (handleLogout control later a')
                  username password in
       fst b = Accepted acct
       /\ tasks (snd b) = loadTasks again (localStorage a) (Some (id acct))
       /\ localStorage (snd b) = localStorage a'.
Proof.
  unfold handleRegister.
  destruct (String.eqb (JsString.trim (formText username)) "") eqn:Eu; [discriminate|].
  destruct (String.eqb (formText password) "") eqn:Ep; [discriminate|].
  cbn [orb].
  destruct (String.eqb_spec (formText password) (formText confirm)) as [Ec|];
    [|discriminate]. cbn [negb].
  destruct (registerUser now (localStorage a) (JsString.trim (formText username))
              (formText password)) as [[e|account] ls] eqn:R; [discriminate|].
  intros Q. injection Q as <- <-.
  pose proof (registerUser_inr _ _ _ _ _ _ R) as (L1 & L2 & T & Ea & Els).
  rewrite JsStringFacts.trim_idem in Ea, L1, Els.
  rewrite normalizeUsername_trim in Ea, Els, T.
  assert (N : id account <> "").
  { rewrite Ea. cbn [id]. apply String.eqb_neq, normalized_nonempty. exact L1. }
  assert (C : JsString.trim (formText username) <> "")
    by (apply String.eqb_neq; exact Eu).
  assert (Tr : Js.truthyProp (Js.get (loadUsers ls) (id account)) = true
               /\ Js.propField (Js.get (loadUsers ls) (id account)) "displayName"
                  = Some (JStr (JsString.trim (formText username)))).
  { rewrite Els, loadUsers_saveUsers, Ea. cbn [id].
    rewrite (get_own _ _ _ (assoc_setField_eq _ _ _)). split; reflexivity. }
  destruct Tr as [Tr Dn].
  assert (L : loadSession (<[SESSION_KEY := Text (accountJson account)]> ls)
              = (Some account, <[SESSION_KEY := Text (accountJson account)]> ls)).
  { apply (loadSession_pointer ls account (JsString.trim (formText username)) N C Tr).
    rewrite Dn, Ea. unfold orElse. cbn [displayName Js.truthy].
    rewrite Eu. reflexivity. }
  assert (Tk : forall t, loadTasks t ls (Some (id account))
                         = loadTasks t (localStorage a) (Some (id account))).
  { intros t. apply loadTasks_depends. intros k K.
    rewrite Els. unfold saveUsers. apply lookup_insert_ne.
    intros Q. unfold getTaskStorageKey in K.
    destruct (String.eqb (id account) ""); [discriminate|].
    injection K as <-. apply (taskKey_not_users account). symmetry. exact Q. }
  cbn [setCurrentAccount withStorage currentAccount tasks localStorage].
  split; [symmetry; exact Ec|]. split; [rewrite Ea; reflexivity|].
  split; [rewrite Ea; reflexivity|]. split; [reflexivity|].
  split; [rewrite loadTasks_session; apply Tk|]. split; [exact L|].
  intros later again.
  unfold handleLogin, handleLogout.
  rewrite Eu, Ep. cbn [orb].
  cbn [setCurrentAccount localStorage].
  rewrite (authenticateUser_registered now (localStorage a)
             (JsString.trim (formText username)) (formText password) account ls).
  - cbn [fst snd setCurrentAccount tasks localStorage].
    split; [reflexivity|]. split.
    + rewrite loadTasks_session, loadTasks_no_session, loadTasks_session. apply Tk.
    + apply map_eq. intros k. destruct (decide (k = SESSION_KEY)) as [->|Nk].
      * rewrite !lookup_insert_eq. reflexivity.
      * rewrite !lookup_insert_ne by auto. rewrite lookup_delete_ne by auto.
        rewrite lookup_insert_ne by auto. reflexivity.
  - exact R.
  - intros k Nk. rewrite lookup_delete_ne by auto. apply lookup_insert_ne. auto.
Qed.

(** X18.  Signing out forgets the session and nothing else: no account
    is current, the collection in memory is empty, the session pointer is
    gone, while the users table and every stored task list are as before;
    the script started afresh on that storage stays signed out. *)
Theorem handleLogout_keeps_data now a :
  let b := handleLogout control now a in
  currentAccount b = None
  /\ tasks b = []
  /\ currentFilter b = "all"
  /\ localStorage b = delete SESSION_KEY (localStorage a)
  /\ loadUsers (localStorage b) = loadUsers (localStorage a)
  /\ (forall later o,
        loadTasks later (localStorage b) o = loadTasks later (localStorage a) o)
  /\ loadSession (localStorage b) = (None, localStorage b)
  /\ forall later today,
       initialize control later (freshApp control today (localStorage b))
       = freshApp control today (localStorage b).
Proof.
  intros b. subst b. unfold handleLogout.
  cbn [setCurrentAccount currentAccount tasks currentFilter localStorage].
  assert (L : loadSession (delete SESSION_KEY (localStorage a))
              = (None, delete SESSION_KEY (localStorage a))).
  { apply loadSession_absent. apply lookup_delete_eq. }
  split; [reflexivity|]. split; [reflexivity|]. split; [reflexivity|].
  split; [reflexivity|]. split; [apply loadUsers_no_session|].
  split; [intros; apply loadTasks_no_session|]. split; [exact L|].
  intros later today. unfold initialize. cbn [freshApp localStorage].
  rewrite L. reflexivity.
Qed.


(** X19.  A form that refuses leaves the state and the storage as they
    were.  The login form refuses with one of three notices (never with
    the blank-name notice of [authenticateUser], which it pre-empts); a
    blank name or an empty password is refused before any lookup; the
    registration form refuses a confirmation that differs from the
    password, and creates no account when it refuses. *)
Theorem forms_refuse_without_change now a :
  (forall username password notice a',
      handleLogin control now a username password = (Refused notice, a') ->
      a' = a
      /\ (notice = "Username and password are required."
          \/ notice = "Account not found." \/ notice = "Incorrect password."))
  /\ (forall username password confirm notice a',
        handleRegister control now a username password confirm = (Refused notice, a') ->
        a' = a)
  /\ (forall username password,
        JsString.trim (formText username) = "" \/ formText password = "" ->
        handleLogin control now a username password
        = (Refused "Username and password are required.", a))
  /\ (forall username password confirm,
        JsString.trim (formText username) <> "" -> formText password <> "" ->
        formText password <> formText confirm ->
        handleRegister control now a username password confirm
        = (Refused "Passwords do not match.", a)).
Proof.
  split; [|split; [|split]].
  - intros username password notice a'. unfold handleLogin.
    destruct (String.eqb _ "" || String.eqb _ "") eqn:B.
    { intros Q. injection Q as <- <-. auto. }
    apply orb_false_iff in B as [Bu _].
    destruct (authenticateUser _ _ _) as [e|account] eqn:A; [|discriminate].
    intros Q. injection Q as <- <-. split; [reflexivity|].
    unfold authenticateUser in A. rewrite JsStringFacts.trim_idem in A.
    destruct (String.eqb_spec (normalizeUsername (JsString.trim (formText username))) "")
      as [E|_].
    { exfalso. apply String.eqb_neq in Bu. apply Bu.
      pose proof (length_normalizeUsername (JsString.trim (formText username))) as Ln.
      rewrite E, JsStringFacts.trim_idem in Ln.
      destruct (JsString.trim (formText username)); [reflexivity|discriminate Ln]. }
    destruct (negb _); [injection A as <-; auto|].
    destruct (differsFrom _ _); [injection A as <-; auto|discriminate].
  - intros username password confirm notice a'. unfold handleRegister.
    destruct (String.eqb _ "" || String.eqb _ "").
    { intros Q. injection Q as <- <-. reflexivity. }
    destruct (negb _).
    { intros Q. injection Q as <- <-. reflexivity. }
    destruct (registerUser _ _ _ _) as [[e|account] ls] eqn:R; [|discriminate].
    intros Q. injection Q as <- <-.
    rewrite (registerUser_refused _ _ _ _ _ _ R). apply withStorage_same.
  - intros username password B. unfold handleLogin.
    destruct B as [-> | ->]; [reflexivity|].
    rewrite orb_true_r. reflexivity.
  - intros username password confirm Nu Np Nc. unfold handleRegister.
    rewrite (proj2 (String.eqb_neq _ _) Nu), (proj2 (String.eqb_neq _ _) Np),
      (proj2 (String.eqb_neq _ _) Nc). reflexivity.
Qed.

(** X20.  Start-up without a usable session.  With no pointer the script
    starts signed out and leaves the storage alone; a pointer that is not
    JSON is removed; a pointer that is JSON without a string [id] is left
    in place.  Whatever the pointer, start-up never changes the users
    table or any stored task list, and a start that ends signed out has no
    task in memory. *)
Theorem initialize_without_account now today ls :
  (ls !! SESSION_KEY = None ->
   initialize control now (freshApp control today ls) = freshApp control today ls)
  /\ (forall raw, ls !! SESSION_KEY = Some (Garbage raw) -> raw <> "" ->
        initialize control now (freshApp control today ls)
        = freshApp control today (delete SESSION_KEY ls))
  /\ (forall v, ls !! SESSION_KEY = Some (Text v) ->
        (forall i, Js.field v "id" <> Some (JStr i)) ->
        initialize control now (freshApp control today ls) = freshApp control today ls)
  /\ (forall b, b = initialize control now (freshApp control today ls) ->
        loadUsers (localStorage b) = loadUsers ls
        /\ (forall later o,
              loadTasks later (localStorage b) o = loadTasks later ls o)
        /\ (currentAccount b = None -> tasks b = [])).
Proof.
  split; [|split; [|split]].
  - intros E. unfold initialize. cbn [freshApp localStorage].
    rewrite (loadSession_absent ls E). reflexivity.
  - intros raw E N. unfold initialize, loadSession. cbn [freshApp localStorage].
    rewrite E, (proj2 (String.eqb_neq _ _) N). reflexivity.
  - intros v E N. unfold initialize, loadSession. cbn [freshApp localStorage].
    rewrite E. destruct v; try reflexivity.
    destruct (Js.field (JObj fields) "id") as [[| | |i| |]|] eqn:F; try reflexivity.
    exfalso. apply (N i). reflexivity.
  - intros b ->. unfold initialize. cbn [freshApp localStorage].
    pose proof (loadSession_keeps_users ls) as U.
    assert (S : snd (loadSession ls) = ls \/ snd (loadSession ls) = delete SESSION_KEY ls).
    { unfold loadSession.
      destruct (ls !! SESSION_KEY) as [[raw|parsed]|]; simpl; [| |auto].
      - destruct (String.eqb raw ""); simpl; auto.
      - destruct parsed; simpl; auto;
          destruct (Js.asString _) as [i|]; simpl; auto;
          destruct (String.eqb i ""); simpl; auto;
          destruct (Js.truthyProp _); simpl; auto. }
    destruct (loadSession ls) as [[acct|] ls'] eqn:L; cbn [snd] in *.
    + cbn [setCurrentAccount withStorage freshApp localStorage currentAccount tasks].
      split; [rewrite loadUsers_session; exact U|]. split; [|discriminate].
      intros later o. rewrite loadTasks_session.
      destruct S as [-> | ->]; [reflexivity|apply loadTasks_no_session].
    + cbn [withStorage freshApp localStorage currentAccount tasks].
      split; [exact U|]. split; [|reflexivity].
      intros later o. destruct S as [-> | ->]; [reflexivity|apply loadTasks_no_session].
Qed.

End FormFacts.

Section MoreFacts.
Context `{Browser} `{Daylight}.
Import JsString DigitFacts Date CalendarFacts IsoFacts OrderFacts MonotoneFacts.

(** X13.  The timestamps the script writes are readable by its sorts.
    For an instant of the four-digit years, [toISOString] reads back as
    that instant; so the task the form creates, a loaded task that had no
    [createdAt], and a task that [updateTask] changed all carry the
    instant of the call as a readable time. *)
Theorem timestamps_read_back now :
  fourDigitYears (Day now) ->
  getTime (toISOString now) = Some now
  /\ (forall entropy a acc titleValue dueValue priorityValue,
        signedInAs a acc -> JsString.trim titleValue <> "" ->
        exists task,
          tasks (submitNewTask now entropy a titleValue dueValue priorityValue)
          = task :: tasks a
          /\ createdTime task = Some now
          /\ getTime (updatedAt task) = Some now)
  /\ (forall raw t,
        normalizeTask now raw = Returns (Some t) ->
        (forall s, Js.field raw "createdAt" <> Some (JStr s)) ->
        createdTime t = Some now)
  /\ (forall a i fs k t t',
        nth_error (tasks a) k = Some t ->
        nth_error (tasks (updateTask now a i fs)) k = Some t' ->
        t' <> t -> getTime (updatedAt t') = Some now).
Proof.
  intros R. pose proof (parse_toISOString now R) as P.
  split; [exact P|]. split; [|split].
  - intros entropy a acc tv dv pv S T.
    eexists. split.
    + unfold submitNewTask. rewrite (proj1 S), (proj2 (String.eqb_neq _ "") T).
      rewrite (saveTasks_withTasks a acc _ S). reflexivity.
    + split; exact P.
  - intros raw t N C. unfold normalizeTask in N.
    destruct raw; try discriminate N. cbn [Js.field] in N, C.
    destruct (Js.assoc "id" fields) as [[| | |i| |]|]; try discriminate N.
    destruct (Js.assoc "title" fields) as [[| | |ti| |]|]; try discriminate N.
    destruct (normalizeDate _) as [|due]; try discriminate N.
    injection N as <-. unfold createdTime. cbn [createdAt].
    destruct (Js.assoc "createdAt" fields) as [[| | |s| |]|]; try exact P.
    exfalso. apply (C s). reflexivity.
  - intros a i fs k t t' Hk Hk' D.
    destruct (updateTask_nth now a i fs k t' Hk') as (t0 & Ht0 & [E|[_ U]]).
    + congruence.
    + rewrite U. exact P.
Qed.

(** X7.  With the agenda off (a scope other than [day] and [week]) the
    visible sequence is an arrangement of the tasks the status filter
    keeps: under [active] exactly the tasks that are not completed, under
    [completed] exactly the completed ones, and under any other filter the
    whole collection. *)
Theorem getVisibleTasks_status now (a : App) :
  agendaScope a <> "day" -> agendaScope a <> "week" ->
  exists visible,
    getVisibleTasks now a = Some visible
    /\ Permutation (List.filter (statusFilter (currentFilter a)) (tasks a)) visible
    /\ (currentFilter a = "active" ->
        forall t, In t visible <-> In t (tasks a) /\ completed t = false)
    /\ (currentFilter a = "completed" ->
        forall t, In t visible <-> In t (tasks a) /\ completed t = true)
    /\ (currentFilter a <> "active" -> currentFilter a <> "completed" ->
        Permutation (tasks a) visible).
Proof.
  intros N1 N2. unfold getVisibleTasks.
  rewrite (proj2 (String.eqb_neq _ _) N1), (proj2 (String.eqb_neq _ _) N2).
  eexists. split; [reflexivity|]. split; [apply sortTasks_perm|]. split; [|split].
  - intros E t. rewrite in_sorted_filter. unfold statusFilter. rewrite E.
    cbn. rewrite negb_true_iff. reflexivity.
  - intros E t. rewrite in_sorted_filter. unfold statusFilter. rewrite E.
    cbn. reflexivity.
  - intros E1 E2.
    assert (F : List.filter (statusFilter (currentFilter a)) (tasks a) = tasks a).
    { apply filter_all_forall. intros t _. unfold statusFilter.
      rewrite (proj2 (String.eqb_neq _ _) E1), (proj2 (String.eqb_neq _ _) E2).
      reflexivity. }
    rewrite F. apply sortTasks_perm.
Qed.

(** X21.  Registration on a missing or unusable users table.  When the
    stored table is absent, is not JSON or is not an object, a
    registration with a valid name and password succeeds and the table it
    writes holds that one account, the record of the password's hash,
    the trimmed name and the instant of the call: whatever was stored
    under the key is replaced, and signing in with the same name and
    password on the storage it leaves returns the new account. *)
Theorem registerUser_starts_table now ls username password :
  (forall fields, ls !! USERS_KEY <> Some (Text (JObj fields))) ->
  (3 <= String.length (JsString.trim username))%nat ->
  (6 <= String.length password)%nat ->
  Js.inheritedName (normalizeUsername username) = false ->
  let account := {| id := normalizeUsername username;
                    displayName := JStr (JsString.trim username) |} in
  let ls' :=
    <[USERS_KEY :=
        Text (JObj [(normalizeUsername username,
                     JObj [("passwordHash", JStr (hashPassword password));
                           ("displayName", JStr (JsString.trim username));
                           ("createdAt", JStr (Date.toISOString now))])])]> ls in
  registerUser now ls username password = (inr account, ls')
  /\ authenticateUser ls' username password = inr account.
Proof.
  intros C L1 L2 I account ls'.
  assert (U : loadUsers ls = []).
  { unfold loadUsers. destruct (ls !! USERS_KEY) as [[raw|[]]|] eqn:E; try reflexivity.
    exfalso. apply (C fields). reflexivity. }
  split.
  - rewrite (registerUser_valid now ls username password L1 L2), U.
    unfold Js.get. cbn [Js.assoc]. rewrite I. reflexivity.
  - unfold authenticateUser, ls', loadUsers.
    rewrite normalizeUsername_trim, (normalized_nonempty username L1).
    rewrite lookup_insert_eq. unfold Js.get. cbn [Js.assoc].
    rewrite String.eqb_refl. cbn. rewrite String.eqb_refl. cbn.
    destruct (String.eqb_spec (JsString.trim username) "") as [Z0|_];
      [rewrite Z0 in L1; simpl in L1; lia|reflexivity].
Qed.

End MoreFacts.

(* ===================================================================== *)
(** * Examples for the rest of the script *)
(* ===================================================================== *)

(** Five hours behind UTC, on 2024-03-03 local time, a task due on that
    day is past due; in Australia/Sydney, half an hour into Sunday
    2024-10-06, a task due on the Saturday is. *)
Lemma isPastDue_local_days_witness :
  @isPastDue modernHost noDaylight 1709500000000 "2024-03-03" = true
  /\ @todayISO modernHost noDaylight 1709500000000 = Some "2024-03-03"
  /\ @isPastDue sydneyHost sydneyDaylight 1728138600000 "2024-10-05" = true.
Proof.
  split; [|split; [reflexivity|]].
  - assert (Z0 : -1440 < @tzOffsetMinutes modernHost <= 1440) by (simpl; lia).
    assert (Ry : 0 <= 2024 <= 9999) by lia.
    assert (C : inCalendar (@localDay modernHost noDaylight 1709500000000))
      by (vm_compute; split; discriminate).
    pose proof (@isPastDue_local_days modernHost 1709500000000 2024 3 3 Z0 eq_refl Ry C)
      as [[_ P] _].
    exact (eq_trans (P eq_refl) eq_refl).
  - assert (Z0 : -1440 < @tzOffsetMinutes sydneyHost <= 1440) by (simpl; lia).
    assert (Ry : 0 <= 2024 <= 9999) by lia.
    assert (C : inCalendar (@localDay sydneyHost noDaylight 1728138600000))
      by (vm_compute; split; discriminate).
    pose proof (@isPastDue_local_days sydneyHost 1728138600000 2024 10 5 Z0 eq_refl Ry C)
      as [_ G].
    assert (B : forall l, 0 <= @savingAtLocal sydneyDaylight l < 1440).
    { intros l. cbn [savingAtLocal sydneyDaylight]. unfold sydneySaving.
      destruct (_ || _); lia. }
    assert (C1 : inCalendar (@localDay sydneyHost sydneyDaylight 1728138600000))
      by (vm_compute; split; discriminate).
    assert (C2 : inCalendar (@localDay sydneyHost sydneyDaylight
                               (dayNumber 2024 10 5 * Date.msPerDay)))
      by (vm_compute; split; discriminate).
    exact (eq_trans (G sydneyDaylight B C1 C2) eq_refl).
Defined.

(** Three tasks by creation instant. *)
Lemma sortTasks_newest_first_witness :
  @sortTasks legacyHost "created" [reportTask; milkTask; callTask]
  = [callTask; milkTask; reportTask]
  /\ Permutation [reportTask; milkTask; callTask]
       (@sortTasks legacyHost "created" [reportTask; milkTask; callTask]).
Proof.
  split; [reflexivity|].
  refine (proj1 (@sortTasks_newest_first legacyHost "created"
                   [reportTask; milkTask; callTask] _ _ _)).
  - discriminate.
  - discriminate.
  - repeat constructor; eexists; reflexivity.
Defined.

(** A high, a low and an unranked task. *)
Lemma sortTasks_priority_witness :
  @sortTasks legacyHost "priority" [milkTask; callTask; reportTask]
  = [reportTask; callTask; milkTask]
  /\ Permutation [milkTask; callTask; reportTask]
       (@sortTasks legacyHost "priority" [milkTask; callTask; reportTask]).
Proof.
  split; [reflexivity|].
  refine (proj1 (@sortTasks_priority legacyHost [milkTask; callTask; reportTask] _)).
  assert (C : forall t c, @createdTime legacyHost t = Some c ->
                          knownPriority t -> @ranked legacyHost t).
  { intros t c E K. split; [exists c; exact E|exact K]. }
  apply List.Forall_cons; [|apply List.Forall_cons; [|apply List.Forall_cons; [|apply List.Forall_nil]]].
  - apply (C milkTask 1709404200000); [vm_compute; reflexivity|left; reflexivity].
  - apply (C callTask 1709406000000);
      [vm_compute; reflexivity|right; left; reflexivity].
  - apply (C reportTask 1709283600000);
      [vm_compute; reflexivity|right; right; right; reflexivity].
Defined.

(** The evening of 2024-03-03 in UTC, one hour east of Greenwich. *)
Lemma todayISO_local_date_witness :
  @todayISO legacyHost noDaylight 1709500000000 = Some "2024-03-03".
Proof.
  refine (eq_trans (proj1 (@todayISO_local_date legacyHost 1709500000000 _)) _).
  - vm_compute. split; [discriminate|reflexivity].
  - reflexivity.
Defined.

(** Across the leap day of 2024, and back. *)
Lemma addDaysISO_moves_days_witness :
  @addDaysISO legacyHost noDaylight 0 "2024-02-28" 2 = Some "2024-03-01"
  /\ @addDaysISO legacyHost noDaylight 0 "2024-03-01" (-2) = Some "2024-02-28".
Proof.
  assert (zone : @usualTimeZone legacyHost) by (unfold usualTimeZone; simpl; lia).
  destruct (@addDaysISO_moves_days legacyHost 0 2024 2 28 2 zone eq_refl
              ltac:(lia) ltac:(vm_compute; split; [discriminate|reflexivity]))
    as (A & _ & B).
  split; [exact A|exact (B 0)].
Defined.

(** An instant late on 2024-03-01. *)
Lemma normalizeDate_utc_day_witness :
  @normalizeDate legacyHost (Some (JStr "2024-03-01T23:30:00.000Z"))
  = Returns (Some "2024-03-01").
Proof.
  refine (eq_trans (proj1 (@normalizeDate_utc_day legacyHost
                             (JStr "2024-03-01T23:30:00.000Z") 1709335800000
                             eq_refl _ _)) _).
  - vm_compute. reflexivity.
  - vm_compute. split; [discriminate|reflexivity].
  - reflexivity.
Defined.

(** Carol's two tasks, saved and loaded. *)
Lemma saveTasks_loadTasks_witness :
  @loadTasks legacyHost 0 (localStorage (saveTasks carolApp)) (Some "carol")
  = [milkTask; reportTask].
Proof.
  refine (proj2 (proj2 (@saveTasks_loadTasks legacyHost 0 carolApp
                          {| id := "carol"; displayName := JStr "Carol" |} _ _))).
  - split; [reflexivity|discriminate].
  - apply List.Forall_cons; [|apply List.Forall_cons; [|apply List.Forall_nil]].
    + split; left; reflexivity.
    + split; [right; exists 2024, 3, 5; repeat split; try reflexivity; lia|].
      right; right; right; reflexivity.
Defined.

(** Carol deletes the report. *)
Lemma deleteTask_removes_witness :
  tasks (deleteTask carolApp "a1") = [milkTask]
  /\ findTask (deleteTask carolApp "a1") "a1" = None
  /\ @loadTasks legacyHost 1709600000000 (localStorage (deleteTask carolApp "a1"))
       (Some "carol") = [milkTask].
Proof.
  assert (S : signedInAs carolApp {| id := "carol"; displayName := JStr "Carol" |})
    by (split; [reflexivity|discriminate]).
  pose proof (@deleteTask_removes legacyHost carolApp _ "a1" S) as D.
  cbv zeta in D. destruct D as (A & B & _ & _ & _ & R).
  assert (K : List.filter (fun task => negb (String.eqb (taskId task) "a1")) (tasks carolApp)
              = [milkTask]) by (vm_compute; reflexivity).
  rewrite K in R.
  split; [rewrite A; exact K|]. split; [exact B|].
  apply R.
  - vm_compute. discriminate.
  - apply List.Forall_cons; [|apply List.Forall_nil].
    split; left; reflexivity.
Defined.

(** Carol deletes a task; Dave's list and the users table stay. *)
Lemma task_store_isolation_witness :
  let ls : storage :=
    {[ "todo.tasks.v1.dave" := Text (JArr [taskJson callTask]);
       USERS_KEY := Text (JObj [("carol", JObj [("passwordHash", JStr "x")])]) ]} in
  let a := withStorage carolApp ls in
  @loadTasks legacyHost 0 (localStorage (deleteTask a "a1")) (Some "dave")
  = @loadTasks legacyHost 0 ls (Some "dave")
  /\ @loadUsers (localStorage (deleteTask a "a1")) = @loadUsers ls.
Proof.
  intros ls a.
  destruct (@task_store_isolation legacyHost 0 0 (fun _ => Byte.x00) a
              {| id := "carol"; displayName := JStr "Carol" |}
              (deleteTask a "a1") "a1" [] "" "" "" eq_refl
              (or_intror (or_intror (or_introl eq_refl)))) as (_ & U & _ & T).
  split; [apply T; discriminate|exact U].
Defined.

(** Carol adds a task due on 2024-03-09. *)
Lemma submitNewTask_adds_witness :
  exists task,
    tasks (@submitNewTask legacyHost 1709500000000 (fun _ => Byte.x2a) carolApp
             "  Water the plants " "2024-03-09" "med")
    = [task; milkTask; reportTask]
    /\ title task = "Water the plants"
    /\ dueAt task = Some "2024-03-09"
    /\ storable task.
Proof.
  destruct (@submitNewTask_adds legacyHost 1709500000000 0 (fun _ => Byte.x2a) carolApp
              {| id := "carol"; displayName := JStr "Carol" |}
              "  Water the plants " "2024-03-09" "med")
    as (task & T & _ & Ti & _ & _ & _ & S & _).
  - split; [reflexivity|discriminate].
  - vm_compute. discriminate.
  - apply List.Forall_cons; [|apply List.Forall_cons; [|apply List.Forall_nil]].
    + split; left; reflexivity.
    + split; [right; exists 2024, 3, 5; repeat split; try reflexivity; lia|].
      right; right; right; reflexivity.
  - intros t P. vm_compute in P. injection P as <-.
    vm_compute. split; [discriminate|reflexivity].
  - exists task. split; [exact T|]. split; [exact Ti|]. split; [|exact S].
    vm_compute in T. injection T as <-. reflexivity.
Defined.

(** The instant 2024-03-03T21:06:40.000Z. *)
Lemma timestamps_read_back_witness :
  @getTime legacyHost (Date.toISOString 1709500000000) = Some 1709500000000.
Proof.
  exact (proj1 (@timestamps_read_back legacyHost 1709500000000
                  ltac:(vm_compute; split; [discriminate|reflexivity]))).
Defined.

(** Carol's list under the filter [all]. *)
Lemma getVisibleTasks_status_witness :
  exists visible,
    @getVisibleTasks legacyHost noDaylight 0 carolApp = Some visible
    /\ Permutation [milkTask; reportTask] visible.
Proof.
  destruct (@getVisibleTasks_status legacyHost noDaylight 0 carolApp ltac:(discriminate)
              ltac:(discriminate)) as (visible & V & _ & _ & _ & P).
  exists visible. split; [exact V|].
  apply P; discriminate.
Defined.

(** Alice registers over a users item that is not JSON. *)
Lemma registerUser_starts_table_witness :
  let ls' : storage :=
    {[ USERS_KEY :=
         Text (JObj [("alice",
                      JObj [("passwordHash", JStr "c2VjcmV0MQ==");
                            ("displayName", JStr "Alice");
                            ("createdAt", JStr "1970-01-01T00:00:00.000Z")])]) ]} in
  @registerUser legacyHost 0 {[ USERS_KEY := Garbage "{oops" ]} " Alice " "secret1"
  = (inr {| id := "alice"; displayName := JStr "Alice" |}, ls')
  /\ @authenticateUser legacyHost ls' " Alice " "secret1"
     = inr {| id := "alice"; displayName := JStr "Alice" |}.
Proof.
  intros ls'.
  assert (C : forall fields,
             ({[ USERS_KEY := Garbage "{oops" ]} : storage) !! USERS_KEY
             <> Some (Text (JObj fields))).
  { intros fields E. vm_compute in E. discriminate. }
  assert (L1 : (3 <= String.length (JsString.trim " Alice "))%nat)
    by (vm_compute; lia).
  assert (L2 : (6 <= String.length "secret1")%nat) by (vm_compute; lia).
  assert (I : Js.inheritedName (normalizeUsername " Alice ") = false)
    by (vm_compute; reflexivity).
  pose proof (@registerUser_starts_table legacyHost 0 _ " Alice " "secret1" C L1 L2 I)
    as P.
  cbv zeta in P. destruct P as [R A]. split.
  - rewrite R. vm_compute. reflexivity.
  - assert (E : ls' = <[USERS_KEY :=
        Text (JObj [(@normalizeUsername " Alice ",
                     JObj [("passwordHash", JStr (@hashPassword legacyHost "secret1"));
                           ("displayName", JStr (JsString.trim " Alice "));
                           ("createdAt", JStr (Date.toISOString 0))])])]>
        ({[ USERS_KEY := Garbage "{oops" ]} : storage))
      by (vm_compute; reflexivity).
    rewrite E, A. vm_compute. reflexivity.
Defined.

(** Alice signs in with another casing of her name. *)
Lemma handleLogin_opens_session_witness :
  let a := @freshApp pageControl "2024-03-01" aliceStorage in
  let r := @handleLogin legacyHost pageControl 5 a (Some " alice ") (Some "secret1") in
  fst r = Accepted {| id := "alice"; displayName := JStr "Alice" |}
  /\ @loadSession (localStorage (snd r))
     = (Some {| id := "alice"; displayName := JStr "Alice" |}, localStorage (snd r)).
Proof.
  intros a r.
  assert (E : r = (Accepted {| id := "alice"; displayName := JStr "Alice" |}, snd r))
    by (vm_compute; reflexivity).
  split; [rewrite E; reflexivity|].
  exact (proj1 (proj2 (proj2 (proj2 (proj2
           (@handleLogin_opens_session legacyHost pageControl 5 a (Some " alice ")
              (Some "secret1") _ _ E)))))).
Defined.

(** Alice registers, signs out and signs in again. *)
Lemma handleRegister_then_login_witness :
  let a := @freshApp pageControl "2024-03-01" ∅ in
  let r := @handleRegister legacyHost pageControl 5 a (Some "Alice") (Some "secret1")
             (Some "secret1") in
  fst r = Accepted {| id := "alice"; displayName := JStr "Alice" |}
  /\ fst (@handleLogin legacyHost pageControl 9
            (@handleLogout legacyHost pageControl 7 (snd r))
            (Some "Alice") (Some "secret1"))
     = Accepted {| id := "alice"; displayName := JStr "Alice" |}.
Proof.
  intros a r.
  assert (E : r = (Accepted {| id := "alice"; displayName := JStr "Alice" |}, snd r))
    by (vm_compute; reflexivity).
  split; [rewrite E; reflexivity|].
  destruct (@handleRegister_then_login legacyHost pageControl 5 a (Some "Alice")
              (Some "secret1") (Some "secret1") _ _ E) as (_ & _ & _ & _ & _ & _ & L).
  exact (proj1 (L 7 9)).
Defined.

(* ===================================================================== *)
(** * Passwords without WebCrypto, the agenda controls, titles, and the
      single-user variant *)
(* ===================================================================== *)

Section FallbackFacts.
Context `{Browser} `{Daylight}.

Lemma toZ_ofZ n : 0 <= n < 256 -> Bytes.toZ (Bytes.ofZ n) = n.
Proof.
  intros R. unfold Bytes.toZ, Bytes.ofZ.
  destruct (Byte.of_N (Z.to_N n)) as [b|] eqn:E.
  - apply Byte.to_of_N in E. rewrite E. lia.
  - apply Byte.of_N_None_iff in E. lia.
Qed.

Lemma code_range c : 0 <= JsString.code c < 256.
Proof.
  unfold JsString.code. pose proof (N_ascii_bounded c). lia.
Qed.

Lemma code_inj a b : JsString.code a = JsString.code b -> a = b.
Proof.
  unfold JsString.code. intros E. apply N2Z.inj in E.
  rewrite <- (ascii_N_embedding a), <- (ascii_N_embedding b), E. reflexivity.
Qed.

Lemma utf8_inj s1 s2 : Bytes.utf8 s1 = Bytes.utf8 s2 -> s1 = s2.
Proof.
  revert s2. induction s1 as [|a r IH]; intros [|b s] E.
  - reflexivity.
  - simpl in E. destruct (JsString.code b <? 128); discriminate.
  - simpl in E. destruct (JsString.code a <? 128); discriminate.
  - pose proof (code_range a) as Ra. pose proof (code_range b) as Rb.
    cbn [Bytes.utf8] in E.
    destruct (Z.ltb_spec (JsString.code a) 128), (Z.ltb_spec (JsString.code b) 128).
    + injection E as E1 E2. apply (f_equal Bytes.toZ) in E1.
      rewrite !toZ_ofZ in E1 by lia.
      f_equal; [apply code_inj, E1|apply IH, E2].
    + injection E as E1 E2. apply (f_equal Bytes.toZ) in E1.
      rewrite !toZ_ofZ in E1 by (Z.div_mod_to_equations; lia).
      exfalso. Z.div_mod_to_equations. lia.
    + injection E as E1 E2. apply (f_equal Bytes.toZ) in E1.
      rewrite !toZ_ofZ in E1 by (Z.div_mod_to_equations; lia).
      exfalso. Z.div_mod_to_equations. lia.
    + injection E as E1 E2 E3.
      apply (f_equal Bytes.toZ) in E1. apply (f_equal Bytes.toZ) in E2.
      rewrite !toZ_ofZ in E1, E2 by (Z.div_mod_to_equations; lia).
      f_equal; [|apply IH, E3].
      apply code_inj. Z.div_mod_to_equations. lia.
Qed.

Lemma code_b64Char n :
  0 <= n < 64 ->
  JsString.code (Bytes.b64Char n)
  = if n <? 26 then 65 + n
    else if n <? 52 then 71 + n
    else if n <? 62 then n - 4
    else if n =? 62 then 43 else 47.
Proof.
  intros R. unfold Bytes.b64Char.
  destruct (Z.ltb_spec n 26); [apply code_ofCode; lia|].
  destruct (Z.ltb_spec n 52); [apply code_ofCode; lia|].
  destruct (Z.ltb_spec n 62); [apply code_ofCode; lia|].
  destruct (Z.eqb_spec n 62); reflexivity.
Qed.

Lemma b64Char_inj a b :
  0 <= a < 64 -> 0 <= b < 64 -> Bytes.b64Char a = Bytes.b64Char b -> a = b.
Proof.
  intros Ra Rb E. apply (f_equal JsString.code) in E.
  rewrite !code_b64Char in E by assumption.
  destruct (Z.ltb_spec a 26), (Z.ltb_spec b 26); try lia;
    destruct (Z.ltb_spec a 52), (Z.ltb_spec b 52); try lia;
    destruct (Z.ltb_spec a 62), (Z.ltb_spec b 62); try lia;
    destruct (Z.eqb_spec a 62), (Z.eqb_spec b 62); lia.
Qed.

Lemma b64Char_not_pad a : 0 <= a < 64 -> Bytes.b64Char a <> "="%char.
Proof.
  intros Ra E. apply (f_equal JsString.code) in E.
  rewrite code_b64Char in E by assumption.
  change (JsString.code "=") with 61 in E.
  destruct (Z.ltb_spec a 26); try lia;
    destruct (Z.ltb_spec a 52); try lia;
    destruct (Z.ltb_spec a 62); try lia;
    destruct (Z.eqb_spec a 62); lia.
Qed.

Ltac sextets :=
  repeat match goal with
         | b : Byte.byte |- _ =>
             lazymatch goal with
             | _ : 0 <= Bytes.toZ b < 256 |- _ => fail
             | _ => pose proof (toZ_range b)
             end
         end.

Lemma btoa_inj_bounded n bs1 bs2 :
  (List.length bs1 <= n)%nat -> Bytes.btoa bs1 = Bytes.btoa bs2 -> bs1 = bs2.
Proof.
  revert bs1 bs2. induction n as [|n IH]; intros bs1 bs2 L E.
  - destruct bs1; [|simpl in L; lia].
    destruct bs2 as [|a [|b [|c r]]]; [reflexivity|discriminate..].
  - destruct bs1 as [|x [|y [|z r1]]], bs2 as [|x' [|y' [|z' r2]]];
      try reflexivity; try discriminate E; cbn [Bytes.btoa] in E; sextets.
    + injection E as E1 E2.
      apply b64Char_inj in E1; [|Z.div_mod_to_equations; lia..].
      apply b64Char_inj in E2; [|Z.div_mod_to_equations; lia..].
      f_equal. apply toZ_inj. Z.div_mod_to_equations. lia.
    + injection E as _ _ E3. exfalso.
      symmetry in E3. revert E3. apply b64Char_not_pad. Z.div_mod_to_equations. lia.
    + injection E as _ _ E3. exfalso.
      symmetry in E3. revert E3. apply b64Char_not_pad. Z.div_mod_to_equations. lia.
    + injection E as _ _ E3. exfalso.
      revert E3. apply b64Char_not_pad. Z.div_mod_to_equations. lia.
    + injection E as E1 E2 E3.
      apply b64Char_inj in E1; [|Z.div_mod_to_equations; lia..].
      apply b64Char_inj in E2; [|Z.div_mod_to_equations; lia..].
      apply b64Char_inj in E3; [|Z.div_mod_to_equations; lia..].
      f_equal; [|f_equal]; apply toZ_inj; Z.div_mod_to_equations; lia.
    + injection E as _ _ _ E4. exfalso.
      symmetry in E4. revert E4. apply b64Char_not_pad. Z.div_mod_to_equations. lia.
    + injection E as _ _ E3. exfalso.
      revert E3. apply b64Char_not_pad. Z.div_mod_to_equations. lia.
    + injection E as _ _ _ E4. exfalso.
      revert E4. apply b64Char_not_pad. Z.div_mod_to_equations. lia.
    + injection E as E1 E2 E3 E4 E5.
      apply b64Char_inj in E1; [|Z.div_mod_to_equations; lia..].
      apply b64Char_inj in E2; [|Z.div_mod_to_equations; lia..].
      apply b64Char_inj in E3; [|Z.div_mod_to_equations; lia..].
      apply b64Char_inj in E4; [|Z.div_mod_to_equations; lia..].
      assert (r1 = r2) by (apply IH; [simpl in L; lia|exact E5]). subst r2.
      f_equal; [|f_equal; [|f_equal]]; apply toZ_inj; Z.div_mod_to_equations; lia.
Qed.

Lemma btoa_inj bs1 bs2 : Bytes.btoa bs1 = Bytes.btoa bs2 -> bs1 = bs2.
Proof. apply (btoa_inj_bounded (List.length bs1)). lia. Qed.

Lemma hashPassword_fallback_inj p q :
  hasSubtleCrypto = false -> hashPassword p = hashPassword q -> p = q.
Proof.
  unfold hashPassword. intros ->. destruct hasBtoa; [|auto].
  intros E. apply utf8_inj, btoa_inj, E.
Qed.

(** X22.  Without WebCrypto the stored rendering of a password
    determines the password: two passwords have the same rendering only
    if they are equal (base64 of the UTF-8 bytes, or the password itself,
    loses nothing).  So after a registration, authentication under the
    registered name succeeds for exactly the registered password, and
    every other password is refused as incorrect. *)
Theorem fallback_hash_exact_password :
  hasSubtleCrypto = false ->
  (forall p q, hashPassword p = hashPassword q <-> p = q)
  /\ (forall now ls u p acct ls' q,
        registerUser now ls u p = (inr acct, ls') ->
        (authenticateUser ls' u q = inr acct <-> q = p)
        /\ (q <> p -> authenticateUser ls' u q = inl IncorrectPassword)).
Proof.
  intros W.
  assert (I : forall p q, hashPassword p = hashPassword q <-> p = q).
  { intros p q. split; [apply hashPassword_fallback_inj, W|intros ->; reflexivity]. }
  split; [exact I|].
  intros now ls u p acct ls' q R.
  pose proof (registerUser_inr now ls u p acct ls' R) as (L1 & _ & _ & Ea & Els).
  assert (A : authenticateUser ls' u q
              = if differsFrom (Some (JStr (hashPassword p))) (hashPassword q)
                then inl IncorrectPassword else inr acct).
  { rewrite (authenticateUser_found ls' u q
               (userRecord (hashPassword p) (JsString.trim u) now)).
    - cbn [userRecord Js.field Js.assoc String.eqb Ascii.eqb Bool.eqb].
      destruct (differsFrom _ _); [reflexivity|].
      unfold orElse. cbn [Js.truthy].
      destruct (String.eqb_spec (JsString.trim u) "") as [E|_].
      + rewrite E in L1. simpl in L1. lia.
      + rewrite Ea. reflexivity.
    - apply normalized_nonempty, L1.
    - rewrite Els, loadUsers_saveUsers. apply assoc_setField_eq.
    - reflexivity. }
  rewrite A. unfold differsFrom.
  destruct (String.eqb_spec (hashPassword p) (hashPassword q)) as [E|N]; cbn [negb].
  - apply (proj1 (I p q)) in E. subst q. split; [tauto|congruence].
  - split; [|reflexivity]. split; [discriminate|].
    intros ->. congruence.
Qed.

End FallbackFacts.

(** Alice's password, and the same with another casing. *)
Lemma fallback_hash_exact_password_witness :
  @authenticateUser legacyHost aliceStorage "Alice" "secret1"
  = inr {| id := "alice"; displayName := JStr "Alice" |}
  /\ @authenticateUser legacyHost aliceStorage "Alice" "Secret1" = inl IncorrectPassword.
Proof.
  assert (R : @registerUser legacyHost 0 ∅ "Alice" "secret1"
              = (inr {| id := "alice"; displayName := JStr "Alice" |}, aliceStorage))
    by (vm_compute; reflexivity).
  destruct (proj2 (@fallback_hash_exact_password legacyHost eq_refl)
              0 ∅ "Alice" "secret1" _ aliceStorage "Secret1" R) as [_ B].
  destruct (proj2 (@fallback_hash_exact_password legacyHost eq_refl)
              0 ∅ "Alice" "secret1" _ aliceStorage "secret1" R) as [A _].
  split; [apply A; reflexivity|apply B; discriminate].
Defined.

Section AgendaControls.
Context `{Browser}.
(* In this section the zone keeps its standard offset all year. *)
#[local] Existing Instance noDaylight.
Import JsString DigitFacts Date CalendarFacts IsoFacts OrderFacts MonotoneFacts.

Lemma week_in_years n :
  firstMonday <= n <= lastSunday -> fourDigitYears n.
Proof.
  unfold fourDigitYears. rewrite DayFromYear_0, DayFromYear_10000.
  change firstMonday with (-719526). change lastSunday with 2932891. lia.
Qed.

Lemma agendaDay_move now a n delta :
  usualTimeZone -> agendaDay a n ->
  firstMonday <= n + delta <= lastSunday ->
  addDaysISO now (agendaDate a) delta = Some (isoOfDay (n + delta))
  /\ agendaDay (withAgendaDate a (isoOfDay (n + delta))) (n + delta).
Proof.
  intros zone (y & m & d & E & V & N & R) R'.
  assert (Ry : 0 <= y <= 9999).
  { apply (calendar_year y m d V). rewrite N. apply week_in_years, R. }
  split.
  - rewrite E, <- N. apply addDaysISO_isoDate; try assumption.
    rewrite N. apply week_in_years, R'.
  - destruct (isoOfDay_valid (n + delta) (week_in_years _ R'))
      as (y' & m' & d' & E' & V' & _ & N').
    exists y', m', d'. cbn [agendaDate withAgendaDate]. auto.
Qed.

Lemma getVisibleTasks_defined now a n :
  usualTimeZone -> agendaDay a n -> is_Some (getVisibleTasks now a).
Proof.
  intros zone (y & m & d & E & V & N & R). unfold getVisibleTasks.
  destruct (String.eqb (agendaScope a) "day"); [eexists; reflexivity|].
  destruct (String.eqb (agendaScope a) "week"); [|eexists; reflexivity].
  assert (Ry : 0 <= y <= 9999).
  { apply (calendar_year y m d V). rewrite N. apply week_in_years, R. }
  rewrite (getWeekRangeISO_from_midnight now (agendaDate a) n zone R).
  - eexists. reflexivity.
  - rewrite E, <- N. apply (parseISOToLocalDate_isoDate zone); assumption.
Qed.

(** X23.  The agenda stays on valid dates, and the view stays defined.
    In a time zone without daylight saving whose offset is at most a day,
    when the agenda date is
    a valid [YYYY-MM-DD] date whose week lies in the four-digit years, the
    visible sequence is defined under every scope; the previous and next
    buttons move the date by one day to a valid date again and undo each
    other, leaving everything else as it was; the today button, and an
    emptied date input, set the local date of the call; a valid date typed
    into the input is taken as it is. *)
Theorem agenda_navigation_defined now a n :
  usualTimeZone -> agendaDay a n ->
  is_Some (getVisibleTasks now a)
  /\ (firstMonday <= n - 1 ->
      agendaPrev now a = Some (withAgendaDate a (isoOfDay (n - 1)))
      /\ agendaDay (withAgendaDate a (isoOfDay (n - 1))) (n - 1)
      /\ forall later,
           agendaNext later (withAgendaDate a (isoOfDay (n - 1))) = Some a)
  /\ (n + 1 <= lastSunday ->
      agendaNext now a = Some (withAgendaDate a (isoOfDay (n + 1)))
      /\ agendaDay (withAgendaDate a (isoOfDay (n + 1))) (n + 1)
      /\ forall later,
           agendaPrev later (withAgendaDate a (isoOfDay (n + 1))) = Some a)
  /\ (firstMonday <= localDay now <= lastSunday ->
      agendaToday now a = Some (withAgendaDate a (isoOfDay (localDay now)))
      /\ agendaDay (withAgendaDate a (isoOfDay (localDay now))) (localDay now)
      /\ agendaDateChange now a "" = agendaToday now a)
  /\ (forall y m d,
        validCivil y m d = true -> firstMonday <= dayNumber y m d <= lastSunday ->
        agendaDateChange now a (isoDate y m d) = Some (withAgendaDate a (isoDate y m d))
        /\ agendaDay (withAgendaDate a (isoDate y m d)) (dayNumber y m d)).
Proof.
  intros zone A.
  assert (Back : forall later delta,
             firstMonday <= n + delta <= lastSunday ->
             addDaysISO later (isoOfDay (n + delta)) (- delta) = Some (agendaDate a)).
  { intros later delta R'. destruct A as (y & m & d & E & V & N & R).
    assert (Ry : 0 <= y <= 9999).
    { apply (calendar_year y m d V). rewrite N. apply week_in_years, R. }
    rewrite E.
    destruct (isoOfDay_valid _ (week_in_years _ R')) as (y' & m' & d' & E' & V' & Ry' & N').
    rewrite E'.
    rewrite (addDaysISO_isoDate later y' m' d' (- delta) zone V' Ry').
    - rewrite N'. replace (n + delta + - delta) with n by lia.
      rewrite <- N, (isoOfDay_dayNumber y m d V). reflexivity.
    - rewrite N'. replace (n + delta + - delta) with n by lia.
      apply week_in_years, R. }
  assert (Same : withAgendaDate a (agendaDate a) = a) by (destruct a; reflexivity).
  assert (Twice : forall d1 d2, withAgendaDate (withAgendaDate a d1) d2 = withAgendaDate a d2)
    by reflexivity.
  pose proof A as (y0 & m0 & d0 & E0 & V0 & N0 & R0).
  split; [apply (getVisibleTasks_defined now a n zone A)|].
  split; [|split; [|split]].
  - intros L. assert (R' : firstMonday <= n + -1 <= lastSunday) by lia.
    destruct (agendaDay_move now a n (-1) zone A R') as [M D].
    replace (n + -1) with (n - 1) in * by lia.
    split; [unfold agendaPrev; rewrite M; reflexivity|]. split; [exact D|].
    intros later. unfold agendaNext. cbn [agendaDate withAgendaDate].
    pose proof (Back later (-1) R') as B.
    replace (n + -1) with (n - 1) in B by lia. change (- -1) with 1 in B.
    rewrite B. cbn [tasks currentAccount currentFilter currentSort agendaScope localStorage].
    exact (f_equal Some Same).
  - intros L. assert (R' : firstMonday <= n + 1 <= lastSunday) by lia.
    destruct (agendaDay_move now a n 1 zone A R') as [M D].
    split; [unfold agendaNext; rewrite M; reflexivity|]. split; [exact D|].
    intros later. unfold agendaPrev. cbn [agendaDate withAgendaDate].
    pose proof (Back later 1 R') as B. change (- (1)) with (-1) in B. rewrite B.
    cbn [tasks currentAccount currentFilter currentSort agendaScope localStorage].
    exact (f_equal Some Same).
  - intros R'. pose proof (toISODateLocal_local now (week_in_years _ R')) as T.
    assert (Td : agendaToday now a = Some (withAgendaDate a (isoOfDay (localDay now)))).
    { unfold agendaToday, todayISO. rewrite T. reflexivity. }
    split; [exact Td|]. split.
    + destruct (isoOfDay_valid _ (week_in_years _ R')) as (y' & m' & d' & E' & V' & _ & N').
      exists y', m', d'. cbn [agendaDate withAgendaDate]. auto.
    + rewrite Td. unfold agendaDateChange, normalizeDate. cbn [Js.truthy String.eqb negb].
      unfold todayISO. rewrite T. reflexivity.
  - intros y m d V R'.
    assert (Ry : 0 <= y <= 9999).
    { apply (calendar_year y m d V). apply week_in_years, R'. }
    split.
    + unfold agendaDateChange. rewrite (normalizeDate_isoDate y m d V Ry).
      rewrite isoDate_nonempty. reflexivity.
    + exists y, m, d. cbn [agendaDate withAgendaDate]. auto.
Qed.

End AgendaControls.

Section TitleFacts.
Context `{Browser} `{Daylight}.

Lemma updateOne_title now i v t :
  title (fst (updateOne now i [SetTitle v] t)) = title t
  \/ title (fst (updateOne now i [SetTitle v] t)) = v.
Proof.
  unfold updateOne. destruct (negb _); [left; reflexivity|].
  cbn [applyFields]. destruct (differs t (SetTitle v)); [right|left]; reflexivity.
Qed.

Lemma updateOne_completed now i c t :
  title (fst (updateOne now i [SetCompleted c] t)) = title t.
Proof.
  unfold updateOne. destruct (negb _); [reflexivity|].
  cbn [applyFields]. destruct (differs t (SetCompleted c)); reflexivity.
Qed.

Lemma titled_trim v : JsString.trim v <> "" -> forall t, title t = JsString.trim v -> titled t.
Proof.
  intros N t E. unfold titled. rewrite E. split; [apply JsStringFacts.trim_idem|exact N].
Qed.

(** X24.  The forms never store a blank title.  If every task has a
    trimmed, non-empty title, so has every task after the new-task form,
    the inline editor, the checkbox or a deletion; and the inline editor
    changes nothing at all when the field is blank or holds the title the
    task had when editing began. *)
Theorem forms_keep_titles now entropy a :
  Forall titled (tasks a) ->
  (forall titleValue dueValue priorityValue,
      Forall titled (tasks (submitNewTask now entropy a titleValue dueValue priorityValue)))
  /\ (forall i task fieldValue,
        Forall titled (tasks (commitEdit now a i task fieldValue)))
  /\ (forall i checked, Forall titled (tasks (toggleTask now a i checked)))
  /\ (forall i, Forall titled (tasks (deleteTask a i)))
  /\ (forall i task fieldValue,
        JsString.trim fieldValue = "" \/ JsString.trim fieldValue = title task ->
        commitEdit now a i task fieldValue = a).
Proof.
  intros F. split; [|split; [|split; [|split]]].
  - intros tv dv pv. unfold submitNewTask.
    destruct (currentAccount a) as [acc|] eqn:E; [|exact F].
    destruct (String.eqb_spec (JsString.trim tv) "") as [B|N]; [exact F|].
    assert (T : forall b, tasks (saveTasks b) = tasks b).
    { intros b. unfold saveTasks. destruct (getTaskStorageKey _); reflexivity. }
    rewrite T. cbn [tasks withTasks]. constructor; [|exact F].
    apply (titled_trim tv N). reflexivity.
  - intros i task v. unfold commitEdit.
    destruct (String.eqb_spec (JsString.trim v) "") as [B|N]; [exact F|].
    destruct (negb _); [|exact F].
    rewrite tasks_updateTask. destruct (currentAccount a); [|exact F].
    rewrite List.Forall_forall in *. intros t I.
    apply in_map_iff in I as (t0 & <- & I0).
    destruct (updateOne_title now i (JsString.trim v) t0) as [E|E].
    + destruct (F t0 I0) as [T1 T2]. unfold titled. rewrite E. auto.
    + apply (titled_trim v N). exact E.
  - intros i checked. unfold toggleTask.
    destruct (currentAccount a) eqn:E; [|exact F].
    rewrite tasks_updateTask, E.
    rewrite List.Forall_forall in *. intros t I.
    apply in_map_iff in I as (t0 & <- & I0).
    destruct (F t0 I0) as [T1 T2]. unfold titled.
    rewrite (updateOne_completed now i checked t0). auto.
  - intros i. unfold deleteTask. destruct (currentAccount a); [|exact F].
    destruct (Nat.eqb _ _); [exact F|].
    assert (T : forall b, tasks (saveTasks b) = tasks b).
    { intros b. unfold saveTasks. destruct (getTaskStorageKey _); reflexivity. }
    rewrite T. cbn [tasks withTasks]. apply Forall_filter_keep. exact F.
  - intros i task v [B|B]; unfold commitEdit; rewrite B.
    + reflexivity.
    + rewrite String.eqb_refl. destruct (String.eqb (title task) ""); reflexivity.
Qed.

End TitleFacts.

(** The day after 2024-03-01, and the week view of that date. *)
Lemma agenda_navigation_defined_witness :
  @agendaNext legacyHost noDaylight 0 (agendaApp "week")
  = Some (withAgendaDate (agendaApp "week") "2024-03-02")
  /\ is_Some (@getVisibleTasks legacyHost noDaylight 0 (agendaApp "week")).
Proof.
  assert (zone : @usualTimeZone legacyHost) by (unfold usualTimeZone; simpl; lia).
  assert (A : agendaDay (agendaApp "week") 19783).
  { exists 2024, 3, 1. split; [reflexivity|]. split; [reflexivity|].
    split; [reflexivity|]. vm_compute. split; discriminate. }
  destruct (@agenda_navigation_defined legacyHost 0 (agendaApp "week") 19783 zone A)
    as (V & _ & N & _).
  split; [|exact V].
  destruct N as (N & _); [vm_compute; discriminate|].
  rewrite N. vm_compute. reflexivity.
Defined.

(** Carol renames her report. *)
Lemma forms_keep_titles_witness :
  Forall titled
    (tasks (commitEdit 5 carolApp "a1" reportTask "  Write the report ")).
Proof.
  refine (proj1 (proj2 (@forms_keep_titles legacyHost 5 (fun _ => Byte.x00) carolApp _))
            "a1" reportTask "  Write the report ").
  apply List.Forall_cons; [|apply List.Forall_cons; [|apply List.Forall_nil]];
    (split; [vm_compute; reflexivity|discriminate]).
Defined.

Section SingleUserFacts.
Context `{Browser} `{Daylight}.
Import JsString DigitFacts Date CalendarFacts IsoFacts OrderFacts MonotoneFacts.

(** X25.  The single-user variant: [deleteTask] keeps exactly the tasks
    whose id differs from the given one, after which [findTask] finds
    nothing under that id; when no task has the id the state and the
    storage are left as they were, otherwise the remaining collection is
    written under the storage key; and the visible sequence is an
    arrangement of exactly the tasks the status filter keeps. *)
Theorem SingleUser_deleteTask_removes (a : SingleUser.App) i :
  let kept :=
    List.filter (fun task => negb (String.eqb (taskId task) i)) (SingleUser.tasks a) in
  SingleUser.tasks (SingleUserStore.deleteTask a i) = kept
  /\ SingleUserStore.findTask (SingleUserStore.deleteTask a i) i = None
  /\ (SingleUserStore.findTask a i = None -> SingleUserStore.deleteTask a i = a)
  /\ (SingleUserStore.findTask a i <> None ->
      SingleUser.localStorage (SingleUserStore.deleteTask a i)
      = <[SingleUser.STORAGE_KEY := Text (JArr (map taskJson kept))]>
          (SingleUser.localStorage a))
  /\ Permutation
       (List.filter (statusFilter (SingleUser.currentFilter a)) (SingleUser.tasks a))
       (SingleUserStore.getVisibleTasks a)
  /\ (forall t, In t (SingleUserStore.getVisibleTasks a)
                <-> In t (SingleUser.tasks a)
                    /\ statusFilter (SingleUser.currentFilter a) t = true).
Proof.
  intros kept.
  assert (T : SingleUser.tasks (SingleUserStore.deleteTask a i) = kept).
  { unfold SingleUserStore.deleteTask. fold kept.
    destruct (Nat.eqb_spec (List.length kept) (List.length (SingleUser.tasks a))) as [L|L].
    - symmetry. apply filter_all_length. exact L.
    - reflexivity. }
  assert (Q : SingleUserStore.findTask a i = None <-> kept = SingleUser.tasks a).
  { unfold SingleUserStore.findTask, kept. rewrite filter_all_forall. split.
    - intros F t I. pose proof (List.find_none _ _ F t I) as G. simpl in G.
      rewrite G. reflexivity.
    - intros F. destruct (List.find _ (SingleUser.tasks a)) as [t|] eqn:G; [|reflexivity].
      apply List.find_some in G as [I G]. specialize (F t I). simpl in F.
      rewrite G in F. discriminate. }
  split; [exact T|]. split; [|split; [|split; [|split]]].
  - unfold SingleUserStore.findTask. rewrite T. apply find_filter_none.
  - intros F. apply Q in F. unfold SingleUserStore.deleteTask. fold kept. rewrite F.
    rewrite Nat.eqb_refl. reflexivity.
  - intros F. unfold SingleUserStore.deleteTask. fold kept.
    destruct (Nat.eqb_spec (List.length kept) (List.length (SingleUser.tasks a))) as [L|L].
    + exfalso. apply F, Q, filter_all_length, L.
    + reflexivity.
  - apply sort_perm.
  - intros t. unfold SingleUserStore.getVisibleTasks, SingleUser.sortTasks.
    rewrite sort_in, filter_In. reflexivity.
Qed.

Lemma toISOString_nonempty t :
  fourDigitYears (Day t) -> String.eqb (toISOString t) "" = false.
Proof.
  intros R. rewrite toISOString_parts
    by (unfold YearFromTime; apply yearFromDay_calendar; exact R).
  unfold isoDate. reflexivity.
Qed.

(** X26.  The normalizers of the single-user variant.  A value the
    [Date] constructor reads as an instant of the four-digit years is
    stored as the full [toISOString] of that instant, which reads back as
    the same instant and normalizes to itself.  A priority is accepted in
    any casing of the three levels and stored in lower case, which
    normalizes to itself; "High" is accepted here, while the account-aware
    script drops it. *)
Theorem SingleUser_normalizers_idempotent :
  (forall v t,
      Js.truthy v = true -> newDate v = Returns (Some t) -> fourDigitYears (Day t) ->
      SingleUserStore.normalizeDate (Some v) = Returns (Some (toISOString t))
      /\ SingleUserStore.normalizeDate (Some (JStr (toISOString t)))
         = Returns (Some (toISOString t))
      /\ getTime (toISOString t) = Some t)
  /\ (forall s level,
        level = "low" \/ level = "med" \/ level = "high" ->
        JsString.toLowerCase s = level ->
        SingleUserStore.normalizePriority (Some (JStr s)) = Returns (Some level)
        /\ SingleUserStore.normalizePriority (Some (JStr level)) = Returns (Some level))
  /\ SingleUserStore.normalizePriority (Some (JStr "High")) = Returns (Some "high")
  /\ normalizePriority (Some (JStr "High")) = None.
Proof.
  split; [|split; [|split]].
  - intros v t T D R. pose proof (parse_toISOString t R) as P.
    split; [|split; [|exact P]].
    + unfold SingleUserStore.normalizeDate. rewrite T, D. reflexivity.
    + unfold SingleUserStore.normalizeDate, newDate. cbn [Js.truthy].
      rewrite (toISOString_nonempty t R). cbn [negb]. rewrite P. reflexivity.
  - intros s level L E.
    assert (N : s <> "").
    { intros ->. simpl in E. destruct L as [-> | [-> | ->]]; discriminate. }
    split.
    + unfold SingleUserStore.normalizePriority. cbn [Js.truthy Js.toString].
      rewrite (proj2 (String.eqb_neq _ _) N). cbn [negb]. cbv zeta. rewrite E.
      destruct L as [-> | [-> | ->]]; reflexivity.
    + destruct L as [-> | [-> | ->]]; reflexivity.
  - reflexivity.
  - reflexivity.
Qed.

End SingleUserFacts.
